(** * Flash Poll: the poll / vote consistency model

    A shallow embedding of the application logic of the Flash Poll front end
    (React + supabase-js) together with the relational store declared by the
    migration script, and the properties of the specification proved on it.

    Layout:
    - JavaScript strings and identifiers;
    - the store: tables, constraints, row-level policies and the requests the
      client issues against it (from the SQL migration);
    - asynchronous client programs: a free monad over network requests and
      synchronous UI effects, with exceptions, a sequential interpreter and an
      interleaving one;
    - the components: [PollCard], [CreatePollForm], [Dashboard],
      [ResetPassword];
    - the theorems. *)

From Stdlib Require Import String Ascii.
From Stdlib Require Import List Bool Arith NArith ZArith Lia.
From Stdlib Require Import Sorting.Sorted Sorting.Permutation.
From Stdlib Require Import Floats.PrimFloat Floats.FloatOps Floats.SpecFloat.
Import ListNotations.

Set Implicit Arguments.

(* ================================================================== *)
(** * JavaScript strings *)

(** A JavaScript string is a sequence of UTF-16 code units; [length] of the
    list is the string's [.length], which is what zod's [min]/[max] compare. *)
Definition code_unit := N.
Definition jsstring := list code_unit.

(** String literals of the source (all of them ASCII). *)
Definition js (s : string) : jsstring :=
  map N_of_ascii (list_ascii_of_string s).

(** [a === b] on strings. *)
Fixpoint jsstring_eqb (a b : jsstring) : bool :=
  match a, b with
  | [], [] => true
  | x :: a', y :: b' => N.eqb x y && jsstring_eqb a' b'
  | _, _ => false
  end.

(** Identifiers are UUIDs: 128-bit values of which only equality is used. *)
Definition uuid := N.

(** [timestamptz] values, as a count of clock ticks. *)
Definition timestamptz := N.

(** What a failed call reports; the handlers read only [message]. *)
Record Error := { message : jsstring }.

(* ================================================================== *)
(** * The store (supabase/migrations/20250806055456_....sql) *)

(** [CREATE TABLE public.polls] *)
Module Polls.
Record row := {
  id : uuid;
  title : jsstring;
  user_id : uuid;
  created_at : timestamptz;
  updated_at : timestamptz
}.
End Polls.

(** [CREATE TABLE public.poll_options] *)
Module PollOptions.
Record row := {
  id : uuid;
  poll_id : uuid;
  option_text : jsstring;
  created_at : timestamptz
}.
End PollOptions.

(** [CREATE TABLE public.votes] *)
Module Votes.
Record row := {
  id : uuid;
  poll_id : uuid;
  option_id : uuid;
  user_id : uuid;
  created_at : timestamptz
}.
End Votes.

Record Database := {
  polls : list Polls.row;
  poll_options : list PollOptions.row;
  votes : list Votes.row
}.

(** The store: the tables, the supply behind [gen_random_uuid()] (a counter,
    so that a generated identifier is never one handed out before and the
    PRIMARY KEY constraints cannot fire) and the clock behind [now()]. *)
Record Store := {
  db : Database;
  next_uuid : uuid;
  clock : timestamptz
}.

Definition empty_store : Store :=
  {| db := {| polls := []; poll_options := []; votes := [] |};
     next_uuid := 0%N; clock := 0%N |}.

(** [auth.uid() = u]: false when the caller has no session ([auth.uid()] is
    NULL and the comparison is not true). *)
Definition auth_uid_is (uid : option uuid) (u : uuid) : bool :=
  match uid with
  | Some v => N.eqb v u
  | None => false
  end.

(** ** Queries on the tables *)

Definition poll_exists (d : Database) (p : uuid) : bool :=
  existsb (fun r => N.eqb (Polls.id r) p) (polls d).

Definition option_exists (d : Database) (o : uuid) : bool :=
  existsb (fun r => N.eqb (PollOptions.id r) o) (poll_options d).

(** The rows a [.eq('poll_id', p).eq('user_id', u)] filter keeps. *)
Definition vote_of (p u : uuid) (v : Votes.row) : bool :=
  N.eqb (Votes.poll_id v) p && N.eqb (Votes.user_id v) u.

Definition votes_of (d : Database) (p u : uuid) : list Votes.row :=
  filter (vote_of p u) (votes d).

(** The policy of [poll_options]: the caller owns the poll the row belongs to. *)
Definition owns_poll (d : Database) (uid : option uuid) (p : uuid) : bool :=
  existsb (fun r => N.eqb (Polls.id r) p && auth_uid_is uid (Polls.user_id r))
          (polls d).

(** [ORDER BY created_at DESC], by insertion. *)
Fixpoint insert_desc (p : Polls.row) (l : list Polls.row) : list Polls.row :=
  match l with
  | [] => [p]
  | q :: l' =>
      if N.ltb (Polls.created_at q) (Polls.created_at p)
      then p :: l
      else q :: insert_desc p l'
  end.

Definition order_by_created_at_desc (l : list Polls.row) : list Polls.row :=
  fold_right insert_desc [] l.

(** ** Requests *)

(** The calls the client makes through the SDK, one constructor per call
    shape in the source. *)
Inductive Request : Type :=
  (* .from('votes').select('id').eq('poll_id', p).eq('user_id', u).maybeSingle() *)
| votes_select_id (poll_id user_id : uuid)
  (* .from('votes').update({ option_id }).eq('id', id) *)
| votes_update_option (id option_id : uuid)
  (* .from('votes').insert({ poll_id, option_id, user_id }) *)
| votes_insert (poll_id option_id user_id : uuid)
  (* .from('votes').delete().eq('poll_id', p) *)
| votes_delete (poll_id : uuid)
  (* .from('votes').select('*', { count: 'exact', head: true }).eq('option_id', o) *)
| votes_count (option_id : uuid)
  (* .from('poll_options').insert([{ poll_id, option_text }, ...]) *)
| poll_options_insert (rows : list (uuid * jsstring))
  (* .from('poll_options').delete().eq('poll_id', p) *)
| poll_options_delete (poll_id : uuid)
  (* .from('polls').insert({ title, user_id }).select().single() *)
| polls_insert (title : jsstring) (user_id : uuid)
  (* .from('polls').select('id, title, created_at, user_id, poll_options (id, option_text)')
     .order('created_at', { ascending: false }) *)
| polls_select
  (* .from('polls').delete().eq('id', p).eq('user_id', u) *)
| polls_delete (id user_id : uuid)
  (* supabase.auth.setSession({ access_token, refresh_token }) *)
| auth_setSession (access_token refresh_token : jsstring).

(** A poll as [polls_select] returns it: its columns and its nested options. *)
Definition PollWithOptions : Type := Polls.row * list PollOptions.row.

(** What [data] holds in the answer to each request. *)
Definition Payload (r : Request) : Type :=
  match r with
  | votes_select_id _ _ => uuid
  | polls_insert _ _ => Polls.row
  | polls_select => list PollWithOptions
  | _ => unit
  end.

(** The SDK's answer [{ data, error, count }]. *)
Record Response (A : Type) := {
  data : option A;
  error : option Error;
  count : option nat
}.

Definition Result (r : Request) : Type := Response (Payload r).

Definition ok {A} (a : option A) : Response A :=
  {| data := a; error := None; count := None |}.

Definition fail {A} (e : Error) : Response A :=
  {| data := None; error := Some e; count := None |}.

Definition counted {A} (n : nat) : Response A :=
  {| data := None; error := None; count := Some n |}.

Definition pg_error (s : string) : Error := {| message := js s |}.

(** ** Executing a request

    [uid] is [auth.uid()]: the user of the session the request is sent with.
    Row-level policies filter the rows a DELETE or UPDATE touches and reject
    an INSERT; constraints reject the statement; [ON DELETE CASCADE] removes
    the referencing rows whatever the policies say. A rejected statement leaves
    the tables as they were. *)

Definition set_votes (d : Database) (vs : list Votes.row) : Database :=
  {| polls := polls d; poll_options := poll_options d; votes := vs |}.

Definition set_db (s : Store) (d : Database) : Store :=
  {| db := d; next_uuid := next_uuid s; clock := clock s |}.

Definition mem_uuid (x : uuid) (l : list uuid) : bool := existsb (N.eqb x) l.

(** [maybeSingle()]: no row is [data: null] without an error, one row is that
    row, several rows are an error. *)
Definition select_vote_id (d : Database) (p u : uuid) : Response uuid :=
  match votes_of d p u with
  | [] => ok None
  | [v] => ok (Some (Votes.id v))
  | _ :: _ :: _ =>
      fail (pg_error "JSON object requested, multiple (or no) rows returned")
  end.

(** INSERT INTO votes: policy "Authenticated users can vote"
    [WITH CHECK (auth.uid() = user_id)], then [UNIQUE(poll_id, user_id)], then
    the two foreign keys. *)
Definition insert_vote (uid : option uuid) (p o u : uuid) (s : Store)
  : Response unit * Store :=
  let d := db s in
  if negb (auth_uid_is uid u) then
    (fail (pg_error "new row violates row-level security policy for table votes"), s)
  else if existsb (vote_of p u) (votes d) then
    (fail (pg_error "duplicate key value violates unique constraint votes_poll_id_user_id_key"), s)
  else if negb (poll_exists d p) then
    (fail (pg_error "insert or update on table votes violates foreign key constraint votes_poll_id_fkey"), s)
  else if negb (option_exists d o) then
    (fail (pg_error "insert or update on table votes violates foreign key constraint votes_option_id_fkey"), s)
  else
    let v := {| Votes.id := next_uuid s; Votes.poll_id := p; Votes.option_id := o;
                Votes.user_id := u; Votes.created_at := clock s |} in
    (ok None,
     {| db := set_votes d (votes d ++ [v]);
        next_uuid := N.succ (next_uuid s); clock := clock s |}).

(** UPDATE votes SET option_id = o WHERE id = i: policy "Users can update
    their own votes" [USING (auth.uid() = user_id)] hides the other rows; the
    new [option_id] must reference an option. *)
Definition update_hits (uid : option uuid) (i : uuid) (v : Votes.row) : bool :=
  N.eqb (Votes.id v) i && auth_uid_is uid (Votes.user_id v).

Definition set_option_id (o : uuid) (v : Votes.row) : Votes.row :=
  {| Votes.id := Votes.id v; Votes.poll_id := Votes.poll_id v; Votes.option_id := o;
     Votes.user_id := Votes.user_id v; Votes.created_at := Votes.created_at v |}.

Definition update_vote_option (uid : option uuid) (i o : uuid) (s : Store)
  : Response unit * Store :=
  let d := db s in
  if existsb (update_hits uid i) (votes d) && negb (option_exists d o) then
    (fail (pg_error "insert or update on table votes violates foreign key constraint votes_option_id_fkey"), s)
  else
    (ok None,
     set_db s (set_votes d
       (map (fun v => if update_hits uid i v then set_option_id o v else v) (votes d)))).

(** DELETE FROM votes WHERE poll_id = p: policy "Users can delete their own
    votes" [USING (auth.uid() = user_id)]. *)
Definition delete_votes (uid : option uuid) (p : uuid) (s : Store)
  : Response unit * Store :=
  let d := db s in
  (ok None,
   set_db s (set_votes d
     (filter (fun v => negb (N.eqb (Votes.poll_id v) p
                             && auth_uid_is uid (Votes.user_id v)))
             (votes d)))).

(** DELETE FROM poll_options WHERE poll_id = p: policy "Poll creators can
    manage options"; votes referencing a deleted option go with it. *)
Definition delete_poll_options (uid : option uuid) (p : uuid) (s : Store)
  : Response unit * Store :=
  let d := db s in
  let gone o := N.eqb (PollOptions.poll_id o) p
                && owns_poll d uid (PollOptions.poll_id o) in
  let dead := map PollOptions.id (filter gone (poll_options d)) in
  (ok None,
   set_db s
     {| polls := polls d;
        poll_options := filter (fun o => negb (gone o)) (poll_options d);
        votes := filter (fun v => negb (mem_uuid (Votes.option_id v) dead)) (votes d) |}).

(** DELETE FROM polls WHERE id = p AND user_id = u: policy "Users can delete
    their own polls"; the poll's options and votes go with it. *)
Definition delete_polls (uid : option uuid) (p u : uuid) (s : Store)
  : Response unit * Store :=
  let d := db s in
  let gone r := N.eqb (Polls.id r) p && N.eqb (Polls.user_id r) u
                && auth_uid_is uid (Polls.user_id r) in
  let dead_polls := map Polls.id (filter gone (polls d)) in
  let orphan o := mem_uuid (PollOptions.poll_id o) dead_polls in
  let dead_options := map PollOptions.id (filter orphan (poll_options d)) in
  (ok None,
   set_db s
     {| polls := filter (fun r => negb (gone r)) (polls d);
        poll_options := filter (fun o => negb (orphan o)) (poll_options d);
        votes := filter (fun v => negb (mem_uuid (Votes.poll_id v) dead_polls)
                                  && negb (mem_uuid (Votes.option_id v) dead_options))
                        (votes d) |}).

(** ** TEXT values

    A TEXT column holds text in the encoding of the database (UTF-8), which
    has no place for U+0000 nor for half of a surrogate pair. The client sends
    the string inside a JSON body, where [JSON.stringify] writes both as
    escapes; the store refuses the escape when it builds the row, before any
    policy or constraint is looked at. [text_error] reads the string as the
    store does, left to right, and gives the error of the first code unit it
    refuses. *)
Definition is_high_surrogate (c : code_unit) : bool :=
  (N.leb 55296 c && N.leb c 56319)%N.

Definition is_low_surrogate (c : code_unit) : bool :=
  (N.leb 56320 c && N.leb c 57343)%N.

Fixpoint text_error (s : jsstring) : option Error :=
  match s with
  | [] => None
  | c :: rest =>
      if N.eqb c 0 then Some (pg_error "unsupported Unicode escape sequence")
      else if is_high_surrogate c then
        match rest with
        | l :: rest' =>
            if is_low_surrogate l then text_error rest'
            else Some (pg_error "invalid input syntax for type json")
        | [] => Some (pg_error "invalid input syntax for type json")
        end
      else if is_low_surrogate c then
        Some (pg_error "invalid input syntax for type json")
      else text_error rest
  end.

(** The first text of a statement's rows that the store refuses. *)
Fixpoint first_text_error (l : list jsstring) : option Error :=
  match l with
  | [] => None
  | t :: rest =>
      match text_error t with
      | Some e => Some e
      | None => first_text_error rest
      end
  end.

(** INSERT INTO polls ... RETURNING *: the title must be text; policy "Users
    can create their own polls" [WITH CHECK (auth.uid() = user_id)]; [id],
    [created_at] and [updated_at] take their defaults. *)
Definition insert_poll (uid : option uuid) (t : jsstring) (u : uuid) (s : Store)
  : Response Polls.row * Store :=
  let d := db s in
  match text_error t with
  | Some e => (fail e, s)
  | None =>
  if negb (auth_uid_is uid u) then
    (fail (pg_error "new row violates row-level security policy for table polls"), s)
  else
    let r := {| Polls.id := next_uuid s; Polls.title := t; Polls.user_id := u;
                Polls.created_at := clock s; Polls.updated_at := clock s |} in
    (ok (Some r),
     {| db := {| polls := polls d ++ [r]; poll_options := poll_options d;
                 votes := votes d |};
        next_uuid := N.succ (next_uuid s); clock := clock s |})
  end.

(** The rows of one INSERT INTO poll_options, numbered from [i]. *)
Fixpoint option_rows (i : uuid) (now : timestamptz) (rows : list (uuid * jsstring))
  : list PollOptions.row :=
  match rows with
  | [] => []
  | (p, t) :: rest =>
      {| PollOptions.id := i; PollOptions.poll_id := p;
         PollOptions.option_text := t; PollOptions.created_at := now |}
      :: option_rows (N.succ i) now rest
  end.

(** INSERT INTO poll_options: every [option_text] must be text; policy "Poll
    creators can manage options" (FOR ALL, so its USING expression also checks
    new rows); one statement, so either every row is inserted or none. *)
Definition insert_poll_options (uid : option uuid) (rows : list (uuid * jsstring))
  (s : Store) : Response unit * Store :=
  let d := db s in
  match first_text_error (map snd rows) with
  | Some e => (fail e, s)
  | None =>
  if forallb (fun r => owns_poll d uid (fst r)) rows then
    (ok None,
     {| db := {| polls := polls d;
                 poll_options := poll_options d ++ option_rows (next_uuid s) (clock s) rows;
                 votes := votes d |};
        next_uuid := (next_uuid s + N.of_nat (length rows))%N; clock := clock s |})
  else
    (fail (pg_error "new row violates row-level security policy for table poll_options"), s)
  end.

(** SELECT with the options nested, newest poll first. Everyone may read. *)
Definition options_of (d : Database) (p : uuid) : list PollOptions.row :=
  filter (fun o => N.eqb (PollOptions.poll_id o) p) (poll_options d).

Definition select_polls (d : Database) : Response (list PollWithOptions) :=
  ok (Some (map (fun r => (r, options_of d (Polls.id r)))
                (order_by_created_at_desc (polls d)))).

(** The rows a count-only SELECT on votes with [option_id = o] counts (a head
    request: the answer carries the count and no rows). *)
Definition votes_for_option (d : Database) (o : uuid) : list Votes.row :=
  filter (fun v => N.eqb (Votes.option_id v) o) (votes d).

Definition count_votes (d : Database) (o : uuid) : Response unit :=
  counted (length (votes_for_option d o)).

Definition exec (uid : option uuid) (r : Request) (s : Store) : Result r * Store :=
  match r as r0 return Result r0 * Store with
  | votes_select_id p u => (select_vote_id (db s) p u, s)
  | votes_update_option i o => update_vote_option uid i o s
  | votes_insert p o u => insert_vote uid p o u s
  | votes_delete p => delete_votes uid p s
  | votes_count o => (count_votes (db s) o, s)
  | poll_options_insert rows => insert_poll_options uid rows s
  | poll_options_delete p => delete_poll_options uid p s
  | polls_insert t u => insert_poll uid t u s
  | polls_select => (select_polls (db s), s)
  | polls_delete p u => delete_polls uid p u s
  (* the identity provider accepts the tokens; a refusal is a fault below *)
  | auth_setSession _ _ => (ok None, s)
  end.

(** ** The network

    Each call may fail before it reaches the store (no connection, a service
    error, tokens the identity provider refuses): [faults] says, call by call,
    which of the coming calls fail and with what error; a call past the end of
    the list goes through. [requests] records the calls issued, oldest first;
    the clock advances with every call. *)
Record Backend := {
  store : Store;
  faults : list (option Error);
  requests : list Request
}.

Definition tick (s : Store) : Store :=
  {| db := db s; next_uuid := next_uuid s; clock := N.succ (clock s) |}.

Definition perform (uid : option uuid) (r : Request) (b : Backend)
  : Result r * Backend :=
  match hd None (faults b) with
  | Some e =>
      (fail e,
       {| store := tick (store b); faults := tl (faults b);
          requests := requests b ++ [r] |})
  | None =>
      let (res, s) := exec uid r (store b) in
      (res,
       {| store := tick s; faults := tl (faults b);
          requests := requests b ++ [r] |})
  end.

(* ================================================================== *)
(** * Client programs *)

(** The authenticated user, as [useAuth()] hands it to a component. *)
Module User.
Record t := { id : uuid }.
End User.

(** A notice: [toast({ title, description, variant })]. *)
Inductive Variant := default | destructive.

Record Toast := {
  toast_title : jsstring;
  description : jsstring;
  variant : Variant
}.

(** The props a component calls back, and [form.reset()]. *)
Inductive Callback := onSuccess | onPollDeleted | form_reset.

(** What a handler does between two awaits. [S] is the state of the
    component the handler belongs to. *)
Inductive Effect (S : Type) : Type :=
| toast (t : Toast)
| navigate (to : jsstring)
| console_error (label : jsstring)
| set_state (f : S -> S)
| invoke (c : Callback).

Arguments toast {S} t.
Arguments navigate {S} to.
Arguments console_error {S} label.
Arguments invoke {S} c.

(** An async function: it returns, throws, performs a synchronous effect or
    awaits the answer to a request. *)
Inductive Prog (S A : Type) : Type :=
| Ret (a : A)
| Throw (e : Error)
| Do (e : Effect S) (k : Prog S A)
| Await (r : Request) (k : Result r -> Prog S A).

Arguments Ret {S A} a.
Arguments Throw {S A} e.
Arguments Do {S A} e k.
Arguments Await {S A} r k.

Fixpoint bind {S A B} (p : Prog S A) (f : A -> Prog S B) : Prog S B :=
  match p with
  | Ret a => f a
  | Throw e => Throw e
  | Do e k => Do e (bind k f)
  | Await r k => Await r (fun x => bind (k x) f)
  end.

(** [try { p } catch (error) { h error }] *)
Fixpoint try_catch {S A} (p : Prog S A) (h : Error -> Prog S A) : Prog S A :=
  match p with
  | Ret a => Ret a
  | Throw e => h e
  | Do e k => Do e (try_catch k h)
  | Await r k => Await r (fun x => try_catch (k x) h)
  end.

(** [try { p } finally { f }]: [f] runs on both ways out of [p]. *)
Fixpoint try_finally {S A} (p : Prog S A) (f : Prog S unit) : Prog S A :=
  match p with
  | Ret a => bind f (fun _ => Ret a)
  | Throw e => bind f (fun _ => Throw e)
  | Do e k => Do e (try_finally k f)
  | Await r k => Await r (fun x => try_finally (k x) f)
  end.

Declare Scope prog_scope.
Delimit Scope prog_scope with prog.
Notation "x <- p ;; q" := (bind p (fun x => q))
  (at level 61, p at next level, right associativity) : prog_scope.
Notation "p ;; q" := (bind p (fun _ => q))
  (at level 61, right associativity) : prog_scope.

Definition perform_effect {S} (e : Effect S) : Prog S unit := Do e (Ret tt).
Definition await {S} (r : Request) : Prog S (Result r) := Await r (fun x => Ret x).

(** [if (error) throw error] *)
Definition throw_if {S} (e : option Error) : Prog S unit :=
  match e with
  | Some err => Throw err
  | None => Ret tt
  end.

(** [Promise.all(l.map(async x => f x))]: the calls are issued in the order
    of the list. *)
Fixpoint promise_all_map {S A B} (f : A -> Prog S B) (l : list A) : Prog S (list B) :=
  match l with
  | [] => Ret []
  | x :: l' =>
      bind (f x) (fun y => bind (promise_all_map f l') (fun ys => Ret (y :: ys)))
  end.

(** ** One client

    The component's state, the session its requests are sent with, and what
    it has shown so far. *)
Record Client (S : Type) := {
  state : S;
  session : option User.t;
  toasts : list Toast;
  navigations : list jsstring;
  console : list jsstring;
  callbacks : list Callback
}.

Definition auth_uid {S} (c : Client S) : option uuid :=
  option_map User.id (session c).

Definition apply_effect {S} (e : Effect S) (c : Client S) : Client S :=
  match e with
  | toast t =>
      {| state := state c; session := session c; toasts := toasts c ++ [t];
         navigations := navigations c; console := console c;
         callbacks := callbacks c |}
  | navigate to =>
      {| state := state c; session := session c; toasts := toasts c;
         navigations := navigations c ++ [to]; console := console c;
         callbacks := callbacks c |}
  | console_error l =>
      {| state := state c; session := session c; toasts := toasts c;
         navigations := navigations c; console := console c ++ [l];
         callbacks := callbacks c |}
  | set_state f =>
      {| state := f (state c); session := session c; toasts := toasts c;
         navigations := navigations c; console := console c;
         callbacks := callbacks c |}
  | invoke cb =>
      {| state := state c; session := session c; toasts := toasts c;
         navigations := navigations c; console := console c;
         callbacks := callbacks c ++ [cb] |}
  end.

(** How an async function ends: its promise is fulfilled or rejected. *)
Inductive Outcome (A : Type) : Type :=
| Fulfilled (a : A)
| Rejected (e : Error).

Arguments Rejected {A} e.

(** Running one program to its end, nothing else touching the store. *)
Fixpoint run {S A} (p : Prog S A) (c : Client S) (b : Backend)
  : Outcome A * Client S * Backend :=
  match p with
  | Ret a => (Fulfilled a, c, b)
  | Throw e => (Rejected e, c, b)
  | Do e k => run k (apply_effect e c) b
  | Await r k =>
      let (res, b') := perform (auth_uid c) r b in
      run (k res) c b'
  end.

(** ** Several clients

    Each await is a point where another client's request may reach the store
    first. A thread is a client with what remains of its handler; a schedule
    names, step by step, the thread that moves. *)
Record Thread (S : Type) := {
  client : Client S;
  prog : Prog S unit
}.

Definition step_thread {S} (t : Thread S) (b : Backend) : Thread S * Backend :=
  match prog t with
  | Ret _ => (t, b)
  | Throw _ => (t, b)
  | Do e k => ({| client := apply_effect e (client t); prog := k |}, b)
  | Await r k =>
      let (res, b') := perform (auth_uid (client t)) r b in
      ({| client := client t; prog := k res |}, b')
  end.

Fixpoint set_nth {A} (i : nat) (x : A) (l : list A) : list A :=
  match l, i with
  | [], _ => []
  | _ :: l', O => x :: l'
  | y :: l', S i' => y :: set_nth i' x l'
  end.

Fixpoint interleave {S} (sched : list nat) (pool : list (Thread S)) (b : Backend)
  : list (Thread S) * Backend :=
  match sched with
  | [] => (pool, b)
  | i :: rest =>
      match nth_error pool i with
      | None => interleave rest pool b
      | Some t =>
          let (t', b') := step_thread t b in
          interleave rest (set_nth i t' pool) b'
      end
  end.

(* ================================================================== *)
(** * JavaScript numbers *)

(** The Number an integer count is: the nearest binary64 value (the count
    itself below 2^53). Counts are added as integers, which is what Number
    addition does on them below 2^53. *)
Definition Number (n : nat) : float :=
  SF2Prim (binary_normalize prec emax (Z.of_nat n) 0 false).

(** Decimal digits of a natural number, most significant first. *)
Fixpoint digits_aux (fuel : nat) (n : N) (acc : jsstring) : jsstring :=
  match fuel with
  | O => acc
  | S fuel' =>
      let acc' := (48 + n mod 10)%N :: acc in
      if (n / 10 =? 0)%N then acc' else digits_aux fuel' (n / 10)%N acc'
  end.

Definition digits (n : N) : jsstring :=
  digits_aux (S (N.to_nat (N.log2 n))) n [].

(** [x.toFixed(1)] (Number.prototype.toFixed): for a finite [x] below 10^21
    in magnitude, the integer [n] nearest to [|x| * 10] (the larger one of two
    equally near), written with a point before its last digit. [None] stands
    for the exponential notation of larger numbers, which is not modelled. *)
Definition toFixed1 (x : float) : option jsstring :=
  match Prim2SF x with
  | S754_nan => Some (js "NaN")
  | S754_infinity false => Some (js "Infinity")
  | S754_infinity true => Some (js "-Infinity")
  | S754_zero _ => Some (js "0.0")
  | S754_finite s m e =>
      let huge := if (0 <=? e)%Z then (10 ^ 21 <=? Zpos m * 2 ^ e)%Z
                  else (10 ^ 21 * 2 ^ (- e) <=? Zpos m)%Z in
      if huge then None
      else
        let n := if (0 <=? e)%Z then (Zpos m * 2 ^ e * 10)%Z
                 else ((2 * 10 * Zpos m + 2 ^ (- e)) / 2 ^ (1 - e))%Z in
        let ds := digits (Z.to_N n) in
        let ds := if (List.length ds <=? 1)%nat then 48%N :: ds else ds in
        let k := List.length ds in
        Some ((if s then js "-" else [])
              ++ firstn (k - 1) ds ++ js "." ++ skipn (k - 1) ds)
  end.

(* ================================================================== *)
(** * The components *)

(** The client's view of a poll (the [Poll] and [PollOption] interfaces). *)
Module PollOption.
Record t := {
  id : uuid;
  option_text : jsstring;
  vote_count : option nat
}.
End PollOption.

Module Poll.
Record t := {
  id : uuid;
  title : jsstring;
  created_at : timestamptz;
  user_id : uuid;
  poll_options : list PollOption.t
}.
End Poll.

(** ** PollCard *)
Module PollCard.

Record State := {
  isVoting : bool;
  isDeleting : bool;
  userVote : option uuid
}.

Definition setIsVoting (v : bool) (s : State) : State :=
  {| isVoting := v; isDeleting := isDeleting s; userVote := userVote s |}.

Definition setIsDeleting (v : bool) (s : State) : State :=
  {| isVoting := isVoting s; isDeleting := v; userVote := userVote s |}.

Definition setUserVote (o : uuid) (s : State) : State :=
  {| isVoting := isVoting s; isDeleting := isDeleting s; userVote := Some o |}.

(** [option.vote_count || 0] *)
Definition vote_count_or_0 (opt : PollOption.t) : nat :=
  match PollOption.vote_count opt with
  | Some n => n
  | None => 0
  end.

(** [poll.poll_options.reduce((sum, option) => sum + (option.vote_count || 0), 0)] *)
Definition totalVotes (poll : Poll.t) : nat :=
  fold_left (fun sum opt => sum + vote_count_or_0 opt)
            (Poll.poll_options poll) 0.

(** [totalVotes > 0 ? (option.vote_count || 0) / totalVotes * 100 : 0] *)
Definition percentage (poll : Poll.t) (opt : PollOption.t) : float :=
  if 0 <? totalVotes poll
  then (Number (vote_count_or_0 opt) / Number (totalVotes poll) * 100)%float
  else 0%float.

(** What the card shows beside an option: [percentage.toFixed(1)]. *)
Definition displayed (poll : Poll.t) (opt : PollOption.t) : option jsstring :=
  toFixed1 (percentage poll opt).

Definition vote_recorded : Toast :=
  {| toast_title := js "Vote recorded!";
     description := js "Your vote has been recorded successfully.";
     variant := default |}.

Definition error_voting (error : Error) : Toast :=
  {| toast_title := js "Error voting";
     description := message error;
     variant := destructive |}.

(** [handleVote]. [user], [isVoting] and [poll] are what the closure sees:
    the values of the render the handler was created in. *)
Definition handleVote (user : option User.t) (isVoting : bool) (poll : Poll.t)
  (optionId : uuid) : Prog State unit :=
  match user, isVoting with
  | Some user, false =>
      Do (set_state (setIsVoting true))
      (try_finally
        (try_catch
          (existing <- await (votes_select_id (Poll.id poll) (User.id user)) ;;
           match data existing with
           | Some existingVote =>
               r <- await (votes_update_option existingVote optionId) ;;
               throw_if (error r)
           | None =>
               r <- await (votes_insert (Poll.id poll) optionId (User.id user)) ;;
               throw_if (error r)
           end ;;
           perform_effect (set_state (setUserVote optionId)) ;;
           perform_effect (toast vote_recorded))%prog
          (fun error => perform_effect (toast (error_voting error))))
        (perform_effect (set_state (setIsVoting false))))
  | _, _ => Ret tt
  end.

Definition poll_deleted : Toast :=
  {| toast_title := js "Poll deleted";
     description := js "Your poll has been deleted successfully.";
     variant := default |}.

(** [error.message || "Failed to delete the poll."] *)
Definition error_deleting (error : Error) : Toast :=
  {| toast_title := js "Error deleting poll";
     description := match message error with
                    | [] => js "Failed to delete the poll."
                    | m => m
                    end;
     variant := destructive |}.

(** [handleDeletePoll] *)
Definition handleDeletePoll (user : option User.t) (isOwner isDeleting : bool)
  (poll : Poll.t) : Prog State unit :=
  match user, isOwner, isDeleting with
  | Some user, true, false =>
      Do (set_state (setIsDeleting true))
      (try_finally
        (try_catch
          (votesR <- await (votes_delete (Poll.id poll)) ;;
           throw_if (error votesR) ;;
           optionsR <- await (poll_options_delete (Poll.id poll)) ;;
           throw_if (error optionsR) ;;
           pollR <- await (polls_delete (Poll.id poll) (User.id user)) ;;
           throw_if (error pollR) ;;
           perform_effect (toast poll_deleted) ;;
           perform_effect (invoke onPollDeleted))%prog
          (fun error => perform_effect (toast (error_deleting error))))
        (perform_effect (set_state (setIsDeleting false))))
  | _, _, _ => Ret tt
  end.

(** [onClick={() => handleVote(option.id)}] in the render of a card whose
    client is [c]: the closure holds the user and the flag of that render. *)
Definition onClick (c : Client State) (poll : Poll.t) (optionId : uuid)
  : Prog State unit :=
  handleVote (session c) (isVoting (state c)) poll optionId.

End PollCard.

(** ** CreatePollForm *)
Module CreatePollForm.

(** [z.infer<typeof createPollSchema>]: what the form holds. *)
Record OptionField := { text : jsstring }.

Record CreatePollForm := {
  title : jsstring;
  options : list OptionField
}.

(** Where a validation issue sits in the form, and its message. *)
Inductive Path :=
| at_title
| at_options
| at_option_text (index : nat).

Record Issue := {
  path : Path;
  issue_message : jsstring
}.

(** [z.string().min(lo, m_lo).max(hi, m_hi)]: both checks run. *)
Definition string_min_max (p : Path) (lo : nat) (m_lo : string) (hi : nat)
  (m_hi : string) (s : jsstring) : list Issue :=
  (if length s <? lo then [{| path := p; issue_message := js m_lo |}] else [])
  ++ (if hi <? length s then [{| path := p; issue_message := js m_hi |}] else []).

Fixpoint option_issues (index : nat) (l : list OptionField) : list Issue :=
  match l with
  | [] => []
  | o :: l' =>
      string_min_max (at_option_text index)
        1 "Option text is required" 100 "Option must be less than 100 characters"
        (text o)
      ++ option_issues (S index) l'
  end.

(** [createPollSchema]: the issues zod reports; none means the data parse. *)
Definition createPollSchema (data : CreatePollForm) : list Issue :=
  string_min_max at_title
    1 "Poll title is required" 200 "Title must be less than 200 characters"
    (title data)
  ++ (if length (options data) <? 2
      then [{| path := at_options; issue_message := js "At least 2 options are required" |}]
      else [])
  ++ (if 10 <? length (options data)
      then [{| path := at_options; issue_message := js "Maximum 10 options allowed" |}]
      else [])
  ++ option_issues 0 (options data).

Record State := {
  isLoading : bool;
  errors : list Issue
}.

Definition setIsLoading (v : bool) (s : State) : State :=
  {| isLoading := v; errors := errors s |}.

Definition setErrors (l : list Issue) (s : State) : State :=
  {| isLoading := isLoading s; errors := l |}.

Definition poll_created : Toast :=
  {| toast_title := js "Poll created!";
     description := js "Your poll has been created successfully.";
     variant := default |}.

Definition error_creating (error : Error) : Toast :=
  {| toast_title := js "Error creating poll";
     description := message error;
     variant := destructive |}.

(** What reading [pollData.id] throws when [pollData] is null. *)
Definition TypeError : Error :=
  pg_error "Cannot read properties of null (reading 'id')".

(** [data.options.map((option) => ({ poll_id: pollData.id, option_text: option.text }))]:
    the callback reads [pollData.id] once per option. *)
Definition option_inserts (pollData : option Polls.row) (opts : list OptionField)
  : Error + list (uuid * jsstring) :=
  match pollData, opts with
  | Some p, _ => inr (map (fun o => (Polls.id p, text o)) opts)
  | None, [] => inr []
  | None, _ :: _ => inl TypeError
  end.

(** [handleSubmit]; [values] is the handler's [data] argument. *)
Definition handleSubmit (user : option User.t) (values : CreatePollForm)
  : Prog State unit :=
  match user with
  | None => Ret tt
  | Some user =>
      Do (set_state (setIsLoading true))
      (try_finally
        (try_catch
          (pollR <- await (polls_insert (title values) (User.id user)) ;;
           throw_if (error pollR) ;;
           match option_inserts (data pollR) (options values) with
           | inl e => Throw e
           | inr rows =>
               optionsR <- await (poll_options_insert rows) ;;
               throw_if (error optionsR) ;;
               perform_effect (toast poll_created) ;;
               perform_effect (invoke form_reset) ;;
               perform_effect (invoke onSuccess)
           end)%prog
          (fun error => perform_effect (toast (error_creating error))))
        (perform_effect (set_state (setIsLoading false))))
  end.

(** [form.handleSubmit(handleSubmit)] with [zodResolver(createPollSchema)]
    (react-hook-form): the values are validated first; the callback runs only
    when there is no issue, otherwise the issues are shown beside the fields. *)
Definition form_handleSubmit (onValid : CreatePollForm -> Prog State unit)
  (values : CreatePollForm) : Prog State unit :=
  match createPollSchema values with
  | [] => Do (set_state (setErrors [])) (onValid values)
  | issues => perform_effect (set_state (setErrors issues))
  end.

(** The form's [onSubmit]. *)
Definition onSubmit (user : option User.t) (values : CreatePollForm)
  : Prog State unit :=
  form_handleSubmit (handleSubmit user) values.

End CreatePollForm.

(** ** Dashboard *)
Module Dashboard.

Record State := {
  polls : list Poll.t;
  isLoading : bool;
  isCreateModalOpen : bool
}.

Definition setPolls (l : list Poll.t) (s : State) : State :=
  {| polls := l; isLoading := isLoading s; isCreateModalOpen := isCreateModalOpen s |}.

Definition setIsLoading (v : bool) (s : State) : State :=
  {| polls := polls s; isLoading := v; isCreateModalOpen := isCreateModalOpen s |}.

Definition error_loading (error : Error) : Toast :=
  {| toast_title := js "Error loading polls";
     description := message error;
     variant := destructive |}.

(** [{ ...option, vote_count: count || 0 }] *)
Definition with_vote_count (o : PollOptions.row) (count : option nat) : PollOption.t :=
  {| PollOption.id := PollOptions.id o;
     PollOption.option_text := PollOptions.option_text o;
     PollOption.vote_count := Some (match count with Some n => n | None => 0 end) |}.

(** [{ ...poll, poll_options: optionsWithVotes }] *)
Definition with_options (poll : Polls.row) (optionsWithVotes : list PollOption.t) : Poll.t :=
  {| Poll.id := Polls.id poll; Poll.title := Polls.title poll;
     Poll.created_at := Polls.created_at poll; Poll.user_id := Polls.user_id poll;
     Poll.poll_options := optionsWithVotes |}.

(** The inner callback: one count query for one option. *)
Definition count_option (o : PollOptions.row) : Prog State PollOption.t :=
  (r <- await (votes_count (PollOptions.id o)) ;;
   Ret (with_vote_count o (count r)))%prog.

(** The outer callback: the options of one poll. *)
Definition count_poll (poll : PollWithOptions) : Prog State Poll.t :=
  (optionsWithVotes <- promise_all_map count_option (snd poll) ;;
   Ret (with_options (fst poll) optionsWithVotes))%prog.

(** [fetchPolls] *)
Definition fetchPolls : Prog State unit :=
  try_finally
    (try_catch
      (pollsR <- await polls_select ;;
       throw_if (error pollsR) ;;
       pollsWithVotes <-
         promise_all_map count_poll
           (match data pollsR with Some l => l | None => [] end) ;;
       perform_effect (set_state (setPolls pollsWithVotes)))%prog
      (fun error => perform_effect (toast (error_loading error))))
    (perform_effect (set_state (setIsLoading false))).

End Dashboard.

(** ** ResetPassword *)

(** [decodeURIComponent] (ECMAScript's Decode with an empty set of preserved
    escapes): [None] is the URIError it throws. Code unit 37 is the percent
    sign. *)
Definition hex_value (c : code_unit) : option N :=
  if ((48 <=? c) && (c <=? 57))%N then Some (c - 48)%N
  else if ((65 <=? c) && (c <=? 70))%N then Some (c - 55)%N
  else if ((97 <=? c) && (c <=? 102))%N then Some (c - 87)%N
  else None.

(** The octet of the two hexadecimal digits a string starts with. *)
Definition parse_hex_octet (s : jsstring) : option (N * jsstring) :=
  match s with
  | h :: l :: rest =>
      match hex_value h, hex_value l with
      | Some a, Some b => Some (16 * a + b, rest)%N
      | _, _ => None
      end
  | _ => None
  end.

(** [n] continuation octets, each written [%XX], folded into the code point. *)
Fixpoint continuation (n : nat) (acc : N) (s : jsstring) : option (N * jsstring) :=
  match n with
  | O => Some (acc, s)
  | S n' =>
      match s with
      | c :: s' =>
          if (c =? 37)%N then
            match parse_hex_octet s' with
            | Some (b, rest) =>
                if ((128 <=? b) && (b <=? 191))%N
                then continuation n' (64 * acc + (b - 128))%N rest
                else None
            | None => None
            end
          else None
      | [] => None
      end
  end.

(** The least code point an encoding of [n] octets may stand for. *)
Definition least_code_point (n : nat) : N :=
  match n with
  | 2 => 128%N
  | 3 => 2048%N
  | _ => 65536%N
  end.

Definition UTF16EncodeCodePoint (v : N) : jsstring :=
  if (v <=? 65535)%N then [v]
  else [((v - 65536) / 1024 + 55296)%N; ((v - 65536) mod 1024 + 56320)%N].

Fixpoint decode (fuel : nat) (s : jsstring) : option jsstring :=
  match fuel with
  | O => None
  | S fuel' =>
      match s with
      | [] => Some []
      | c :: s' =>
          if negb (c =? 37)%N then option_map (cons c) (decode fuel' s')
          else
            match parse_hex_octet s' with
            | None => None
            | Some (b, rest) =>
                if (b <? 128)%N then option_map (cons b) (decode fuel' rest)
                else
                  let n := if (b <? 192)%N then 1
                           else if (b <? 224)%N then 2
                           else if (b <? 240)%N then 3
                           else if (b <? 248)%N then 4
                           else 5 in
                  if (n =? 1) || (4 <? n) then None
                  else
                    let lead := (b mod 2 ^ N.of_nat (7 - n))%N in
                    match continuation (n - 1) lead rest with
                    | None => None
                    | Some (v, rest') =>
                        if ((v <? least_code_point n)
                            || ((55296 <=? v) && (v <=? 57343))
                            || (1114111 <? v))%N
                        then None
                        else option_map (app (UTF16EncodeCodePoint v))
                                        (decode fuel' rest')
                    end
            end
      end
  end.

Definition decodeURIComponent (s : jsstring) : option jsstring :=
  decode (S (length s)) s.

Definition URIError : Error := pg_error "URI malformed".

(** [new URLSearchParams(hash)]: the name/value pairs of the fragment, as the
    browser parses them (percent escapes and [+] already decoded). *)
Definition URLSearchParams := list (jsstring * jsstring).

(** [params.get(name)]: the first value under [name], or null. *)
Fixpoint get (name : jsstring) (params : URLSearchParams) : option jsstring :=
  match params with
  | [] => None
  | (k, v) :: rest => if jsstring_eqb k name then Some v else get name rest
  end.

(** [x === 'literal'] for an [x] that may be null. *)
Definition equals (x : option jsstring) (literal : string) : bool :=
  match x with
  | Some s => jsstring_eqb s (js literal)
  | None => false
  end.

(** A string that is neither null nor empty, as [!x] and [x || d] test it. *)
Definition truthy (x : option jsstring) : option jsstring :=
  match x with
  | Some (c :: s) => Some (c :: s)
  | _ => None
  end.

Module ResetPassword.

Record State := {
  isLoading : bool;
  showPassword : bool;
  showConfirmPassword : bool
}.

Definition link_expired (d : jsstring) : Toast :=
  {| toast_title := js "Link expired"; description := d; variant := destructive |}.

Definition invalid_reset_link : Toast :=
  {| toast_title := js "Invalid reset link";
     description := js "Missing credentials. Please request a new reset link.";
     variant := destructive |}.

Definition session_error : Toast :=
  {| toast_title := js "Session error";
     description := js "Failed to authenticate. Try again or request a new reset link.";
     variant := destructive |}.

(** [init], on the parameters of [window.location.hash.substring(1)];
    [error_] is the source's local [error]. *)
Definition init (hashParams : URLSearchParams) : Prog State unit :=
  let error_ := get (js "error") hashParams in
  let errorCode := get (js "error_code") hashParams in
  let errorDescription := get (js "error_description") hashParams in
  if equals error_ "access_denied" && equals errorCode "otp_expired" then
    match decodeURIComponent
            (match truthy errorDescription with
             | Some d => d
             | None => js "Reset link is invalid or expired."
             end) with
    | None => Throw URIError
    | Some d =>
        (perform_effect (toast (link_expired d)) ;;
         perform_effect (navigate (js "/")))%prog
    end
  else
    let accessToken := get (js "access_token") hashParams in
    let refreshToken := get (js "refresh_token") hashParams in
    match truthy accessToken, truthy refreshToken with
    | Some accessToken, Some refreshToken =>
        (r <- await (auth_setSession accessToken refreshToken) ;;
         match error r with
         | Some sessionError =>
             perform_effect (console_error (js "Session error")) ;;
             perform_effect (toast session_error) ;;
             perform_effect (navigate (js "/"))
         | None => Ret tt
         end)%prog
    | _, _ =>
        (perform_effect (toast invalid_reset_link) ;;
         perform_effect (navigate (js "/")))%prog
    end.

End ResetPassword.

(* ================================================================== *)
(** * The vocabulary of the properties *)

(** At most one vote row per (poll, user) pair. *)
Definition votes_unique (d : Database) : Prop :=
  forall p u : uuid, length (votes_of d p u) <= 1.

(** Identifiers of polls, and the polls that options reference, were handed
    out by the supply: the next identifier is not among them. *)
Definition supply_fresh (s : Store) : Prop :=
  Forall (fun r => (Polls.id r < next_uuid s)%N) (polls (db s))
  /\ Forall (fun o => (PollOptions.poll_id o < next_uuid s)%N) (poll_options (db s)).

(** A vote being cast: the card's client, the poll it shows and the option
    clicked. *)
Record VoteCall := {
  voter : Client PollCard.State;
  on_poll : Poll.t;
  chosen : uuid
}.

Definition vote_thread (v : VoteCall) : Thread PollCard.State :=
  {| client := voter v;
     prog := PollCard.onClick (voter v) (on_poll v) (chosen v) |}.

(** A client that has shown nothing yet. *)
Definition new_client {S} (s : S) (user : option User.t) : Client S :=
  {| state := s; session := user; toasts := []; navigations := [];
     console := []; callbacks := [] |}.

Definition idle_card : PollCard.State :=
  {| PollCard.isVoting := false; PollCard.isDeleting := false;
     PollCard.userVote := None |}.

(** The card's client once a vote for [opt] has been recorded. *)
Definition after_vote (opt : uuid) (c : Client PollCard.State) : Client PollCard.State :=
  {| state := {| PollCard.isVoting := false;
                 PollCard.isDeleting := PollCard.isDeleting (state c);
                 PollCard.userVote := Some opt |};
     session := session c;
     toasts := toasts c ++ [PollCard.vote_recorded];
     navigations := navigations c; console := console c;
     callbacks := callbacks c |}.

(** Newest first: [q] may follow [p] in the listing. *)
Definition not_older (p q : timestamptz) : Prop := (q <= p)%N.

(** The backend after a run of read-only requests that all went through:
    the tables are untouched, the clock has advanced, the log has grown. *)
Fixpoint after_reads (rs : list Request) (b : Backend) : Backend :=
  match rs with
  | [] => b
  | r :: rs' =>
      after_reads rs'
        {| store := tick (store b); faults := tl (faults b);
           requests := requests b ++ [r] |}
  end.

(** The listing the dashboard is expected to hold for the tables [d]: the
    polls newest first, each with its options, each option with the number of
    vote rows that reference it. *)
Definition tally_option (d : Database) (o : PollOptions.row) : PollOption.t :=
  Dashboard.with_vote_count o (Some (length (votes_for_option d (PollOptions.id o)))).

Definition tally_poll (d : Database) (p : PollWithOptions) : Poll.t :=
  Dashboard.with_options (fst p) (map (tally_option d) (snd p)).

Definition listing (d : Database) : list Poll.t :=
  map (fun r => tally_poll d (r, options_of d (Polls.id r)))
      (order_by_created_at_desc (polls d)).

(** The count requests of a listing, in the order they are issued. *)
Definition count_requests (l : list Poll.t) : list Request :=
  flat_map (fun poll => map (fun o => votes_count (PollOption.id o))
                            (Poll.poll_options poll)) l.

(** The poll of the specification's example: three votes for A, one for B. *)
Definition option_A : PollOption.t :=
  {| PollOption.id := 1%N; PollOption.option_text := js "A";
     PollOption.vote_count := Some 3 |}.

Definition option_B : PollOption.t :=
  {| PollOption.id := 2%N; PollOption.option_text := js "B";
     PollOption.vote_count := Some 1 |}.

Definition three_to_one : Poll.t :=
  {| Poll.id := 0%N; Poll.title := js "Lunch?"; Poll.created_at := 0%N;
     Poll.user_id := 7%N; Poll.poll_options := [option_A; option_B] |}.

(** Fragments of reset links: an expired link as the identity provider
    writes it, and one whose description holds a stray percent sign (the
    fragment [error_description=%25]). *)
Definition expired_link : URLSearchParams :=
  [(js "error", js "access_denied");
   (js "error_code", js "otp_expired");
   (js "error_description", js "Email link is invalid or has expired")].

Definition expired_link_stray_percent : URLSearchParams :=
  [(js "error", js "access_denied");
   (js "error_code", js "otp_expired");
   (js "error_description", js "%")].

(** The client after [toast(t)] and [navigate('/')]. *)
Definition redirected {S} (t : Toast) (c : Client S) : Client S :=
  apply_effect (navigate (js "/")) (apply_effect (toast t) c).

(** A backend without scheduled faults. *)
Definition online (s : Store) : Backend :=
  {| store := s; faults := []; requests := [] |}.

(** A store for the examples: user 7 owns poll 0, whose options are 1
    (text A) and 2 (text B); nobody has voted. *)
Definition lunch_store : Store :=
  {| db := {| polls := [{| Polls.id := 0%N; Polls.title := js "Lunch?";
                           Polls.user_id := 7%N; Polls.created_at := 0%N;
                           Polls.updated_at := 0%N |}];
              poll_options :=
                [{| PollOptions.id := 1%N; PollOptions.poll_id := 0%N;
                    PollOptions.option_text := js "A"; PollOptions.created_at := 1%N |};
                 {| PollOptions.id := 2%N; PollOptions.poll_id := 0%N;
                    PollOptions.option_text := js "B"; PollOptions.created_at := 1%N |}];
              votes := [] |};
     next_uuid := 3%N; clock := 2%N |}.

Definition lunch_poll : Poll.t :=
  {| Poll.id := 0%N; Poll.title := js "Lunch?"; Poll.created_at := 0%N;
     Poll.user_id := 7%N;
     Poll.poll_options :=
       [{| PollOption.id := 1%N; PollOption.option_text := js "A";
           PollOption.vote_count := Some 0 |};
        {| PollOption.id := 2%N; PollOption.option_text := js "B";
           PollOption.vote_count := Some 0 |}] |}.

(** The store after a history of statements, each with the [auth.uid()] of
    its caller, starting from the tables the migration creates. *)
Definition history := list (option uuid * Request).

Definition replay (h : history) : Store :=
  fold_left (fun s step => snd (exec (fst step) (snd step) s)) h empty_store.

(** Clicks handled one after the other by the same card, each by the render
    of the state the previous one left. *)
Fixpoint click_in_turn (clicks : list (Poll.t * uuid)) (c : Client PollCard.State)
  (b : Backend) : Client PollCard.State * Backend :=
  match clicks with
  | [] => (c, b)
  | (poll, optionId) :: rest =>
      let '(_, c', b') := run (PollCard.onClick c poll optionId) c b in
      click_in_turn rest c' b'
  end.

(** Two first-time votes of user 7 on poll 0 from two tabs, for options 1
    and 2, and the schedule in which the tabs move in turn, so that both
    lookups are answered before either insert. *)
Definition two_tabs : list VoteCall :=
  [{| voter := new_client idle_card (Some {| User.id := 7%N |});
      on_poll := lunch_poll; chosen := 1%N |};
   {| voter := new_client idle_card (Some {| User.id := 7%N |});
      on_poll := lunch_poll; chosen := 2%N |}].

Definition race : list nat := [0; 1; 0; 1; 0; 1; 0; 1; 0; 1].

(* ================================================================== *)
(** * Further vocabulary: integrity of the tables, ownership *)

(** The REFERENCES clauses of the migration: an option belongs to a poll that
    exists, a vote names a poll and an option that exist. *)
Definition references_hold (d : Database) : Prop :=
  Forall (fun o => poll_exists d (PollOptions.poll_id o) = true) (poll_options d)
  /\ Forall (fun v => poll_exists d (Votes.poll_id v) = true) (votes d)
  /\ Forall (fun v => option_exists d (Votes.option_id v) = true) (votes d).

(** The PRIMARY KEY clauses: no identifier twice in a table, and every
    identifier in use came from the supply. *)
Definition keys_hold (s : Store) : Prop :=
  NoDup (map Polls.id (polls (db s)))
  /\ NoDup (map PollOptions.id (poll_options (db s)))
  /\ NoDup (map Votes.id (votes (db s)))
  /\ Forall (fun i => (i < next_uuid s)%N) (map Polls.id (polls (db s)))
  /\ Forall (fun i => (i < next_uuid s)%N) (map PollOptions.id (poll_options (db s)))
  /\ Forall (fun i => (i < next_uuid s)%N) (map Votes.id (votes (db s))).

(** The statements a client issues on the votes table itself. *)
Definition on_votes (r : Request) : bool :=
  match r with
  | votes_insert _ _ _ | votes_update_option _ _ | votes_delete _ => true
  | _ => false
  end.

(** The vote rows that are not the caller's. *)
Definition votes_of_others (uid : option uuid) (d : Database) : list Votes.row :=
  filter (fun v => negb (auth_uid_is uid (Votes.user_id v))) (votes d).

(** The statements that add or remove options of poll [p] or remove [p]. *)
Definition manages_poll (p : uuid) (r : Request) : bool :=
  match r with
  | polls_delete q _ => N.eqb q p
  | poll_options_delete q => N.eqb q p
  | poll_options_insert rows =>
      forallb (fun row => N.eqb (@fst uuid jsstring row) p) rows
  | _ => false
  end.

(** The tables once poll [p] is gone with everything that hangs on it: its
    row, its options, the votes cast on it and the votes that reference one of
    its options. *)
Definition without_poll (p : uuid) (d : Database) : Database :=
  {| polls := filter (fun r => negb (N.eqb (Polls.id r) p)) (polls d);
     poll_options :=
       filter (fun o => negb (N.eqb (PollOptions.poll_id o) p)) (poll_options d);
     votes :=
       filter (fun v => negb (N.eqb (Votes.poll_id v) p)
                        && negb (mem_uuid (Votes.option_id v)
                                          (map PollOptions.id (options_of d p))))
              (votes d) |}.

(** Every row of poll [p] belongs to [u], and there is one. *)
Definition owned_by (d : Database) (p u : uuid) : Prop :=
  poll_exists d p = true
  /\ forall r, In r (polls d) -> Polls.id r = p -> Polls.user_id r = u.

(** The card's client once the poll has been deleted. *)
Definition after_delete (c : Client PollCard.State) : Client PollCard.State :=
  {| state := {| PollCard.isVoting := PollCard.isVoting (state c);
                 PollCard.isDeleting := false;
                 PollCard.userVote := PollCard.userVote (state c) |};
     session := session c;
     toasts := toasts c ++ [PollCard.poll_deleted];
     navigations := navigations c; console := console c;
     callbacks := callbacks c ++ [onPollDeleted] |}.

(* ================================================================== *)
(** * The rest of the Dashboard component *)
Module DashboardView.
Import Dashboard.



(** [handlePollDeleted], the cards' [onPollDeleted]. *)
Definition handlePollDeleted : Prog State unit := fetchPolls.

(** [poll.user_id === user?.id] *)
Definition isOwner (user : option User.t) (poll : Poll.t) : bool :=
  match user with
  | Some u => N.eqb (Poll.user_id poll) (User.id u)
  | None => false
  end.

(** [polls.filter(poll => poll.user_id === user?.id)] *)
Definition myPolls (user : option User.t) (polls : list Poll.t) : list Poll.t :=
  filter (isOwner user) polls.

Definition allPolls (polls : list Poll.t) : list Poll.t := polls.

(** The Total Votes card:
    [allPolls.reduce((total, poll) => total + poll.poll_options.reduce(
       (pollTotal, option) => pollTotal + (option.vote_count || 0), 0), 0)] *)
Definition totalVotes (allPolls : list Poll.t) : nat :=
  fold_left
    (fun total poll =>
       total + fold_left (fun pollTotal opt => pollTotal + PollCard.vote_count_or_0 opt)
                         (Poll.poll_options poll) 0)
    allPolls 0.

End DashboardView.


(** The example store once user 7 has voted for option 1. *)
Definition voted_store : Store :=
  {| db := {| polls := polls (db lunch_store);
              poll_options := poll_options (db lunch_store);
              votes := [{| Votes.id := 3%N; Votes.poll_id := 0%N;
                           Votes.option_id := 1%N; Votes.user_id := 7%N;
                           Votes.created_at := 2%N |}] |};
     next_uuid := 4%N; clock := 3%N |}.

Definition idle_dashboard : Dashboard.State :=
  {| Dashboard.polls := []; Dashboard.isLoading := true;
     Dashboard.isCreateModalOpen := true |}.

Definition idle_form : CreatePollForm.State :=
  {| CreatePollForm.isLoading := false; CreatePollForm.errors := [] |}.

Definition dinner_form : CreatePollForm.CreatePollForm :=
  {| CreatePollForm.title := js "Dinner?";
     CreatePollForm.options := [{| CreatePollForm.text := js "Yes" |};
                                {| CreatePollForm.text := js "No" |}] |}.

(* ================================================================== *)
(** * The rest of the CreatePollForm component *)

Module CreatePollFormView.
Import CreatePollForm.







End CreatePollFormView.

(** A listing as [fetchPolls] shows it when the count requests are answered
    as [answers] says, request by request in the order they are issued (an
    answer past the end of the list is not an error): an option whose count
    request was answered with an error carries 0 ([count || 0]), the others
    what was counted. *)
Definition without_count (o : PollOption.t) : PollOption.t :=
  {| PollOption.id := PollOption.id o;
     PollOption.option_text := PollOption.option_text o;
     PollOption.vote_count := Some 0 |}.

Fixpoint uncounted (answers : list (option Error)) (l : list PollOption.t)
  : list PollOption.t :=
  match l with
  | [] => []
  | o :: l' =>
      match hd None answers with
      | Some _ => without_count o
      | None => o
      end :: uncounted (tl answers) l'
  end.


(** A backend whose first answer is lost. *)
Definition offline (s : Store) : Backend :=
  {| store := s; faults := [Some (pg_error "Failed to fetch")]; requests := [] |}.



Definition expired_link_with_tokens : URLSearchParams :=
  [(js "access_token", js "at"); (js "refresh_token", js "rt");
   (js "error", js "access_denied"); (js "error_code", js "otp_expired")].

Definition idle_reset : ResetPassword.State :=
  {| ResetPassword.isLoading := false; ResetPassword.showPassword := false;
     ResetPassword.showConfirmPassword := false |}.

(** The example poll as a listing of [voted_store] shows it. *)
Definition lunch_poll_voted : Poll.t :=
  {| Poll.id := Poll.id lunch_poll; Poll.title := Poll.title lunch_poll;
     Poll.created_at := Poll.created_at lunch_poll;
     Poll.user_id := Poll.user_id lunch_poll;
     Poll.poll_options :=
       [{| PollOption.id := 1%N; PollOption.option_text := js "A";
           PollOption.vote_count := Some 1 |};
        {| PollOption.id := 2%N; PollOption.option_text := js "B";
           PollOption.vote_count := Some 0 |}] |}.

(** A store with two polls and three votes: the example poll of user 7, and
    a later poll 3 of user 8 with options 4 (Yes) and 5 (No); users 7 and 8
    voted A on the first poll, user 7 voted No on the second. *)
Definition two_polls_store : Store :=
  {| db := {| polls := polls (db lunch_store)
                       ++ [{| Polls.id := 3%N; Polls.title := js "Dinner?";
                              Polls.user_id := 8%N; Polls.created_at := 5%N;
                              Polls.updated_at := 5%N |}];
              poll_options :=
                poll_options (db lunch_store)
                ++ [{| PollOptions.id := 4%N; PollOptions.poll_id := 3%N;
                       PollOptions.option_text := js "Yes";
                       PollOptions.created_at := 6%N |};
                    {| PollOptions.id := 5%N; PollOptions.poll_id := 3%N;
                       PollOptions.option_text := js "No";
                       PollOptions.created_at := 6%N |}];
              votes := [{| Votes.id := 6%N; Votes.poll_id := 0%N;
                           Votes.option_id := 1%N; Votes.user_id := 7%N;
                           Votes.created_at := 7%N |};
                        {| Votes.id := 7%N; Votes.poll_id := 3%N;
                           Votes.option_id := 5%N; Votes.user_id := 7%N;
                           Votes.created_at := 8%N |};
                        {| Votes.id := 8%N; Votes.poll_id := 0%N;
                           Votes.option_id := 1%N; Votes.user_id := 8%N;
                           Votes.created_at := 9%N |}] |};
     next_uuid := 9%N; clock := 10%N |}.

(** What the dashboard shows of it: the later poll first. *)
Definition two_polls_shown : list Poll.t :=
  [{| Poll.id := 3%N; Poll.title := js "Dinner?"; Poll.created_at := 5%N;
      Poll.user_id := 8%N;
      Poll.poll_options :=
        [{| PollOption.id := 4%N; PollOption.option_text := js "Yes";
            PollOption.vote_count := Some 0 |};
         {| PollOption.id := 5%N; PollOption.option_text := js "No";
            PollOption.vote_count := Some 1 |}] |};
   {| Poll.id := 0%N; Poll.title := js "Lunch?"; Poll.created_at := 0%N;
      Poll.user_id := 7%N;
      Poll.poll_options :=
        [{| PollOption.id := 1%N; PollOption.option_text := js "A";
            PollOption.vote_count := Some 2 |};
         {| PollOption.id := 2%N; PollOption.option_text := js "B";
            PollOption.vote_count := Some 0 |}] |}].

(* ================================================================== *)
(** * Running programs: the equations of the interpreter *)

Unset Implicit Arguments.

Section RunEquations.
Context {S : Type}.

Lemma run_bind {A B} (p : Prog S A) (f : A -> Prog S B) (c : Client S) (b : Backend) :
  run (bind p f) c b =
  match run p c b with
  | (Fulfilled a, c', b') => run (f a) c' b'
  | (Rejected e, c', b') => (Rejected e, c', b')
  end.
Proof.
  revert c b. induction p as [a | err | eff k IH | r k IH]; intros c b; simpl.
  - reflexivity.
  - reflexivity.
  - apply IH.
  - destruct (perform (auth_uid c) r b) as [res b']. apply IH.
Qed.

Lemma run_try_catch {A} (p : Prog S A) (h : Error -> Prog S A) (c : Client S)
  (b : Backend) :
  run (try_catch p h) c b =
  match run p c b with
  | (Fulfilled a, c', b') => (Fulfilled a, c', b')
  | (Rejected e, c', b') => run (h e) c' b'
  end.
Proof.
  revert c b. induction p as [a | err | eff k IH | r k IH]; intros c b; simpl.
  - reflexivity.
  - reflexivity.
  - apply IH.
  - destruct (perform (auth_uid c) r b) as [res b']. apply IH.
Qed.

Lemma run_try_finally {A} (p : Prog S A) (f : Prog S unit) (c : Client S)
  (b : Backend) :
  run (try_finally p f) c b =
  match run p c b with
  | (o, c', b') =>
      match run f c' b' with
      | (Fulfilled _, c'', b'') => (o, c'', b'')
      | (Rejected e, c'', b'') => (Rejected e, c'', b'')
      end
  end.
Proof.
  revert c b. induction p as [a | err | eff k IH | r k IH]; intros c b; simpl.
  - rewrite run_bind. destruct (run f c b) as [[[u | e] c'] b']; reflexivity.
  - rewrite run_bind. destruct (run f c b) as [[[u | e] c'] b']; reflexivity.
  - apply IH.
  - destruct (perform (auth_uid c) r b) as [res b']. apply IH.
Qed.

Lemma run_await (r : Request) (c : Client S) (b : Backend) :
  run (await r) c b =
  (Fulfilled (fst (perform (auth_uid c) r b)), c, snd (perform (auth_uid c) r b)).
Proof.
  unfold await. simpl. destruct (perform (auth_uid c) r b); reflexivity.
Qed.

Lemma run_effect (e : Effect S) (c : Client S) (b : Backend) :
  run (perform_effect e) c b = (Fulfilled tt, apply_effect e c, b).
Proof. reflexivity. Qed.

Lemma run_Do {A} (e : Effect S) (k : Prog S A) (c : Client S) (b : Backend) :
  run (Do e k) c b = run k (apply_effect e c) b.
Proof. reflexivity. Qed.

Lemma run_Await {A} (r : Request) (k : Result r -> Prog S A) (c : Client S)
  (b : Backend) :
  run (Await r k) c b
  = run (k (fst (perform (auth_uid c) r b))) c (snd (perform (auth_uid c) r b)).
Proof. simpl. destruct (perform (auth_uid c) r b); reflexivity. Qed.

End RunEquations.

(** A call that goes through: the store's answer, one tick, one more entry
    in the log. *)
Lemma perform_no_fault (uid : option uuid) (r : Request) (b : Backend) :
  hd None (faults b) = None ->
  perform uid r b =
  (fst (exec uid r (store b)),
   {| store := tick (snd (exec uid r (store b))); faults := tl (faults b);
      requests := requests b ++ [r] |}).
Proof.
  intros H. unfold perform. rewrite H.
  destruct (exec uid r (store b)); reflexivity.
Qed.

Lemma perform_fault (uid : option uuid) (r : Request) (b : Backend) (e : Error) :
  hd None (faults b) = Some e ->
  perform uid r b =
  (fail e,
   {| store := tick (store b); faults := tl (faults b);
      requests := requests b ++ [r] |}).
Proof. intros H. unfold perform. rewrite H. reflexivity. Qed.

Lemma perform_requests (uid : option uuid) (r : Request) (b : Backend) :
  requests (snd (perform uid r b)) = requests b ++ [r].
Proof.
  unfold perform. destruct (hd None (faults b)); simpl.
  - reflexivity.
  - destruct (exec uid r (store b)); reflexivity.
Qed.

(** Bringing a handler to the shape [Do e k] or [Await r k], and moving the
    interpreter over one await whose call goes through ([H] says so) or
    fails. *)
Ltac prog_head :=
  cbn [bind try_catch try_finally await throw_if perform_effect].

Ltac await_ok H :=
  prog_head; rewrite ?run_Do; rewrite run_Await;
  rewrite perform_no_fault by exact H; cbn [fst snd faults store requests].

Ltac await_fault H :=
  prog_head; rewrite ?run_Do; rewrite run_Await;
  rewrite perform_fault with (e := _) by exact H; cbn [fst snd faults store requests].

(* ================================================================== *)
(** * Guards at the entry of the handlers *)

(** C9. A call of the vote handler made while no user is authenticated, or
    while the [isVoting] flag is set, does nothing: it returns at once, the
    backend (the store and the log of requests issued) and the client (the
    recorded user vote, the flags, the notices shown) are what they were. *)
Theorem handleVote_guard_is_noop :
  forall (user : option User.t) (isVoting : bool) (poll : Poll.t) (optionId : uuid)
         (c : Client PollCard.State) (b : Backend),
    user = None \/ isVoting = true ->
    run (PollCard.handleVote user isVoting poll optionId) c b = (Fulfilled tt, c, b).
Proof.
  intros user isVoting poll optionId c b [-> | ->].
  - reflexivity.
  - destruct user; reflexivity.
Qed.

Lemma handleVote_guard_is_noop_witness :
  (@None User.t = None \/ false = true) /\
  run (PollCard.handleVote None false
         {| Poll.id := 1%N; Poll.title := js "Lunch?"; Poll.created_at := 0%N;
            Poll.user_id := 2%N; Poll.poll_options := [] |} 5%N)
      {| state := {| PollCard.isVoting := false; PollCard.isDeleting := false;
                     PollCard.userVote := Some 4%N |};
         session := None; toasts := []; navigations := []; console := [];
         callbacks := [] |}
      {| store := empty_store; faults := []; requests := [] |}
  = (Fulfilled tt,
     {| state := {| PollCard.isVoting := false; PollCard.isDeleting := false;
                    PollCard.userVote := Some 4%N |};
        session := None; toasts := []; navigations := []; console := [];
        callbacks := [] |},
     {| store := empty_store; faults := []; requests := [] |}).
Proof.
  split.
  - left. reflexivity.
  - apply handleVote_guard_is_noop. left. reflexivity.
Defined.

(** X8. The delete handler has the same shape of guard: no user, not the owner
    or a deletion in flight. *)
Lemma handleDeletePoll_guard_is_noop :
  forall (user : option User.t) (isOwner isDeleting : bool) (poll : Poll.t)
         (c : Client PollCard.State) (b : Backend),
    user = None \/ isOwner = false \/ isDeleting = true ->
    run (PollCard.handleDeletePoll user isOwner isDeleting poll) c b
    = (Fulfilled tt, c, b).
Proof.
  intros user isOwner isDeleting poll c b [-> | [-> | ->]].
  - reflexivity.
  - destruct user; reflexivity.
  - destruct user, isOwner; reflexivity.
Qed.

(** While a vote is in flight the flag is set: after the first step of the
    handler the card's state has [isVoting = true], so a click handled by the
    render of that state is the no-op above. *)
Lemma handleVote_sets_flag_first :
  forall (user : User.t) (poll : Poll.t) (optionId : uuid)
         (c : Client PollCard.State) (b : Backend),
    let t := {| client := c;
                prog := PollCard.handleVote (Some user) false poll optionId |} in
    PollCard.isVoting (state (client (fst (step_thread t b)))) = true
    /\ snd (step_thread t b) = b.
Proof. intros. split; reflexivity. Qed.

(** C10. A submission handled while no user is authenticated returns at
    once: no request is issued, nothing is changed and no notice is shown. *)
Theorem handleSubmit_unauthenticated_is_noop :
  forall (values : CreatePollForm.CreatePollForm)
         (c : Client CreatePollForm.State) (b : Backend),
    run (CreatePollForm.handleSubmit None values) c b = (Fulfilled tt, c, b).
Proof. reflexivity. Qed.

(* ================================================================== *)
(** * Poll creation: validation *)

Section Validation.
Import CreatePollForm.

Lemma string_min_max_nil (p : Path) (lo hi : nat) (m_lo m_hi : string) (s : jsstring) :
  string_min_max p lo m_lo hi m_hi s = [] <-> lo <= length s <= hi.
Proof.
  unfold string_min_max.
  destruct (Nat.ltb_spec (length s) lo) as [Hlo | Hlo];
    destruct (Nat.ltb_spec hi (length s)) as [Hhi | Hhi]; simpl;
    split; intros H; try discriminate; try lia; reflexivity.
Qed.

Lemma option_issues_nil (l : list OptionField) (index : nat) :
  option_issues index l = [] <->
  Forall (fun o => 1 <= length (text o) <= 100) l.
Proof.
  revert index. induction l as [| o l IH]; intros index; simpl.
  - split; intros _; [constructor | reflexivity].
  - split.
    + intros H. apply app_eq_nil in H. destruct H as [Ho Hl].
      constructor.
      * apply string_min_max_nil in Ho. exact Ho.
      * apply (IH (S index)). exact Hl.
    + intros H. inversion H as [| ? ? Ho Hl]; subst.
      rewrite (proj2 (string_min_max_nil _ _ _ _ _ _) Ho). simpl.
      apply IH. exact Hl.
Qed.

(** The schema accepts exactly the forms within the bounds. *)
Lemma createPollSchema_accepts (values : CreatePollForm) :
  createPollSchema values = [] <->
  1 <= length (title values) <= 200
  /\ 2 <= length (options values) <= 10
  /\ Forall (fun o => 1 <= length (text o) <= 100) (options values).
Proof.
  unfold createPollSchema. split.
  - intros H.
    apply app_eq_nil in H. destruct H as [Ht H].
    apply app_eq_nil in H. destruct H as [Hmin H].
    apply app_eq_nil in H. destruct H as [Hmax Ho].
    apply string_min_max_nil in Ht. apply option_issues_nil in Ho.
    destruct (Nat.ltb_spec (length (options values)) 2); try discriminate.
    destruct (Nat.ltb_spec 10 (length (options values))); try discriminate.
    repeat split; try tauto; lia.
  - intros (Ht & Hn & Ho).
    rewrite (proj2 (string_min_max_nil _ _ _ _ _ _) Ht).
    rewrite (proj2 (option_issues_nil _ 0) Ho).
    destruct (Nat.ltb_spec (length (options values)) 2); try lia.
    destruct (Nat.ltb_spec 10 (length (options values))); try lia.
    reflexivity.
Qed.

(** C4. A submission whose title is outside 1-200 characters, whose number
    of options is outside 2-10 or one of whose option texts is outside 1-100
    characters is rejected by the form before the handler runs: no request is
    issued, the backend is what it was, and the only effect is that the
    (non-empty) list of issues is shown beside the fields. *)
Theorem onSubmit_rejects_out_of_bounds :
  forall (user : option User.t) (values : CreatePollForm)
         (c : Client State) (b : Backend),
    (length (title values) < 1 \/ 200 < length (title values))
    \/ (length (options values) < 2 \/ 10 < length (options values))
    \/ Exists (fun o => length (text o) < 1 \/ 100 < length (text o))
              (options values) ->
    createPollSchema values <> []
    /\ run (onSubmit user values) c b
       = (Fulfilled tt,
          apply_effect (set_state (setErrors (createPollSchema values))) c,
          b).
Proof.
  intros user values c b H.
  assert (Hne : createPollSchema values <> []).
  { intros Hnil. apply createPollSchema_accepts in Hnil.
    destruct Hnil as (Ht & Hn & Ho).
    destruct H as [H | [H | H]]; try lia.
    apply Exists_exists in H. destruct H as (o & Hin & Hbad).
    rewrite Forall_forall in Ho. specialize (Ho o Hin). lia. }
  split; [exact Hne |].
  unfold onSubmit, form_handleSubmit.
  destruct (createPollSchema values) as [| i l]; [contradiction | reflexivity].
Qed.

(** An empty title with two options. *)
Lemma onSubmit_rejects_out_of_bounds_witness :
  let values := {| title := js "";
                   options := [{| text := js "Yes" |}; {| text := js "No" |}] |} in
  let c := {| state := {| isLoading := false; errors := [] |};
              session := Some {| User.id := 7%N |};
              toasts := []; navigations := []; console := []; callbacks := [] |} in
  let b := {| store := empty_store; faults := []; requests := [] |} in
  createPollSchema values <> []
  /\ run (onSubmit (Some {| User.id := 7%N |}) values) c b
     = (Fulfilled tt,
        apply_effect (set_state (setErrors (createPollSchema values))) c, b).
Proof.
  intros values c b.
  apply (onSubmit_rejects_out_of_bounds (Some {| User.id := 7%N |}) values c b).
  left. left. simpl. lia.
Defined.

(** X16. A form within the bounds does reach the handler. The bounds are on
    the [length] of the strings, which counts UTF-16 code units and not
    characters: a character outside the Basic Multilingual Plane counts for
    two. *)
Lemma onSubmit_accepts_within_bounds :
  forall (user : option User.t) (values : CreatePollForm),
    1 <= length (title values) <= 200 ->
    2 <= length (options values) <= 10 ->
    Forall (fun o => 1 <= length (text o) <= 100) (options values) ->
    onSubmit user values = Do (set_state (setErrors [])) (handleSubmit user values).
Proof.
  intros user values Ht Hn Ho.
  unfold onSubmit, form_handleSubmit.
  replace (createPollSchema values) with (@nil Issue); [reflexivity |].
  symmetry. apply createPollSchema_accepts. auto.
Qed.

End Validation.

(* ================================================================== *)
(** * Invariants of the store *)

Lemma filter_filter_length {A} (f g : A -> bool) (l : list A) :
  length (filter f (filter g l)) <= length (filter f l).
Proof.
  induction l as [| x l IH]; simpl; [lia |].
  destruct (g x); simpl; destruct (f x); simpl; lia.
Qed.

Lemma filter_map_invariant {A} (f : A -> bool) (g : A -> A) (l : list A) :
  (forall x, f (g x) = f x) ->
  filter f (map g l) = map g (filter f l).
Proof.
  intros H. induction l as [| x l IH]; simpl; [reflexivity |].
  rewrite H. destruct (f x); simpl; rewrite IH; reflexivity.
Qed.

Lemma existsb_false_filter {A} (f : A -> bool) (l : list A) :
  existsb f l = false -> filter f l = [].
Proof.
  induction l as [| x l IH]; simpl; [reflexivity |].
  destruct (f x); simpl; [discriminate | exact IH].
Qed.

Lemma filter_nil_existsb {A} (f : A -> bool) (l : list A) :
  filter f l = [] -> existsb f l = false.
Proof.
  induction l as [| x l IH]; simpl; [reflexivity |].
  destruct (f x); simpl; [discriminate | exact IH].
Qed.

Lemma vote_of_update (uid : option uuid) (i o p u : uuid) (v : Votes.row) :
  vote_of p u (if update_hits uid i v then set_option_id o v else v) = vote_of p u v.
Proof. destruct (update_hits uid i v); reflexivity. Qed.

(** Every statement keeps the pair (poll, user) unique among the votes: the
    INSERT because the constraint rejects a second row, the UPDATE because it
    leaves [poll_id] and [user_id] alone, the DELETEs because they only
    remove rows. *)
Lemma insert_vote_unique (uid : option uuid) (p o u : uuid) (s : Store) :
  votes_unique (db s) -> votes_unique (db (snd (insert_vote uid p o u s))).
Proof.
  intros H. unfold insert_vote.
  destruct (negb (auth_uid_is uid u)); [exact H |].
  destruct (existsb (vote_of p u) (votes (db s))) eqn:Hdup; [exact H |].
  destruct (negb (poll_exists (db s) p)); [exact H |].
  destruct (negb (option_exists (db s) o)); [exact H |].
  intros p' u'. unfold votes_of. simpl. rewrite filter_app, length_app. simpl.
  destruct (vote_of p' u' _) eqn:Hnew; simpl.
  - assert (p' = p /\ u' = u) as [-> ->].
    { unfold vote_of in Hnew. simpl in Hnew. apply andb_prop in Hnew.
      destruct Hnew as [H1 H2]. apply N.eqb_eq in H1, H2. auto. }
    rewrite (existsb_false_filter _ _ Hdup). simpl. lia.
  - specialize (H p' u'). unfold votes_of in H. lia.
Qed.

Lemma update_vote_option_unique (uid : option uuid) (i o : uuid) (s : Store) :
  votes_unique (db s) -> votes_unique (db (snd (update_vote_option uid i o s))).
Proof.
  intros H. unfold update_vote_option.
  destruct (existsb (update_hits uid i) (votes (db s)) && negb (option_exists (db s) o));
    [exact H |].
  intros p u. unfold votes_of. simpl.
  rewrite filter_map_invariant by (intros v; apply vote_of_update).
  rewrite length_map. apply H.
Qed.

Lemma exec_votes_unique (uid : option uuid) (r : Request) (s : Store) :
  votes_unique (db s) -> votes_unique (db (snd (exec uid r s))).
Proof.
  intros H. destruct r; simpl; try exact H.
  - apply update_vote_option_unique, H.
  - apply insert_vote_unique, H.
  - intros p u. unfold votes_of. simpl.
    eapply Nat.le_trans; [apply filter_filter_length | apply H].
  - unfold insert_poll_options.
    destruct (first_text_error _); [exact H |].
    destruct (forallb _ rows); [| exact H].
    intros p u. apply H.
  - intros p u. unfold votes_of. simpl.
    eapply Nat.le_trans; [apply filter_filter_length | apply H].
  - unfold insert_poll. destruct (text_error title); [exact H |].
    destruct (negb (auth_uid_is uid user_id)); [exact H |].
    intros p u. apply H.
  - intros p u. unfold votes_of. simpl.
    eapply Nat.le_trans; [apply filter_filter_length | apply H].
Qed.

Lemma perform_votes_unique (uid : option uuid) (r : Request) (b : Backend) :
  votes_unique (db (store b)) ->
  votes_unique (db (store (snd (perform uid r b)))).
Proof.
  intros H. unfold perform. destruct (hd None (faults b)); simpl.
  - exact H.
  - pose proof (exec_votes_unique uid r (store b) H) as H'.
    destruct (exec uid r (store b)); exact H'.
Qed.

Lemma run_votes_unique {S A} (p : Prog S A) (c : Client S) (b : Backend) :
  votes_unique (db (store b)) ->
  votes_unique (db (store (snd (run p c b)))).
Proof.
  revert c b. induction p as [a | err | eff k IH | r k IH]; intros c b H; simpl.
  - exact H.
  - exact H.
  - apply IH, H.
  - pose proof (perform_votes_unique (auth_uid c) r b H) as H'.
    destruct (perform (auth_uid c) r b) as [res b']. apply IH, H'.
Qed.

Lemma step_thread_votes_unique {S} (t : Thread S) (b : Backend) :
  votes_unique (db (store b)) ->
  votes_unique (db (store (snd (step_thread t b)))).
Proof.
  intros H. unfold step_thread. destruct (prog t) as [a | err | eff k | r k]; simpl;
    try exact H.
  pose proof (perform_votes_unique (auth_uid (client t)) r b H) as H'.
  destruct (perform (auth_uid (client t)) r b); exact H'.
Qed.

Lemma interleave_votes_unique {S} (sched : list nat) (pool : list (Thread S))
  (b : Backend) :
  votes_unique (db (store b)) ->
  votes_unique (db (store (snd (interleave sched pool b)))).
Proof.
  revert pool b. induction sched as [| i rest IH]; intros pool b H; simpl.
  - exact H.
  - destruct (nth_error pool i) as [t |]; [| apply IH, H].
    pose proof (step_thread_votes_unique t b H) as H'.
    destruct (step_thread t b) as [t' b']. apply IH, H'.
Qed.

Lemma empty_store_votes_unique : votes_unique (db empty_store).
Proof. intros p u. simpl. lia. Qed.

(** The same for clicks handled in turn by one card. *)
Lemma click_in_turn_votes_unique (clicks : list (Poll.t * uuid))
  (c : Client PollCard.State) (b : Backend) :
  votes_unique (db (store b)) ->
  votes_unique (db (store (snd (click_in_turn clicks c b)))).
Proof.
  revert c b. induction clicks as [| [poll optionId] rest IH]; intros c b H.
  - exact H.
  - cbn [click_in_turn].
    pose proof (run_votes_unique (PollCard.onClick c poll optionId) c b H) as H'.
    destruct (run (PollCard.onClick c poll optionId) c b) as [[o c'] b'].
    apply IH, H'.
Qed.

(* ================================================================== *)
(** * One vote per user and poll *)

(** C1. Whatever votes are cast, by whichever users on whichever polls, and
    however the requests of the handlers interleave at the store (a second
    vote may start before the first one's lookup is answered), every (poll,
    user) pair has at most one vote row afterwards, provided it had at most
    one before. The proof never looks at the handlers: the invariant is kept
    by each statement the store executes ([exec_votes_unique]), the INSERT
    being rejected by [UNIQUE(poll_id, user_id)] when a row exists. *)
Theorem one_vote_row_per_poll_and_user :
  forall (calls : list VoteCall) (sched : list nat) (b : Backend),
    votes_unique (db (store b)) ->
    forall p u : uuid,
      length (votes_of (db (store (snd (interleave sched (map vote_thread calls) b))))
                       p u) <= 1.
Proof.
  intros calls sched b H p u.
  apply (interleave_votes_unique sched (map vote_thread calls) b H).
Qed.

(** The test of the specification: in the race of [two_tabs] both handlers
    saw no vote and both insert; the store rejects the second insert, whose
    tab shows the error notice, and one row survives. *)
Lemma concurrent_first_votes_leave_one_row :
  let '(pool, b) := interleave race (map vote_thread two_tabs) (online lunch_store) in
  requests b = [votes_select_id 0%N 7%N; votes_select_id 0%N 7%N;
                votes_insert 0%N 1%N 7%N; votes_insert 0%N 2%N 7%N]
  /\ map Votes.option_id (votes_of (db (store b)) 0%N 7%N) = [1%N]
  /\ map (fun t => map toast_title (toasts (client t))) pool
     = [[js "Vote recorded!"]; [js "Error voting"]]
  /\ map (fun t => PollCard.userVote (state (client t))) pool = [Some 1%N; None].
Proof. vm_compute. repeat split. Qed.

Lemma one_vote_row_per_poll_and_user_witness :
  votes_unique (db (store (online lunch_store)))
  /\ length (votes_of
       (db (store (snd (interleave race (map vote_thread two_tabs) (online lunch_store)))))
       0%N 7%N) <= 1.
Proof.
  assert (H : votes_unique (db (store (online lunch_store)))).
  { intros p u. simpl. lia. }
  split; [exact H |].
  apply (one_vote_row_per_poll_and_user two_tabs race (online lunch_store) H).
Defined.

(* ================================================================== *)
(** * Casting a vote *)

(** The lookup found a row: the handler updates it. *)
Lemma handleVote_updates_existing :
  forall (u : User.t) (poll : Poll.t) (opt : uuid) (w : Votes.row)
         (c : Client PollCard.State) (b : Backend),
    session c = Some u ->
    faults b = [] ->
    option_exists (db (store b)) opt = true ->
    votes_of (db (store b)) (Poll.id poll) (User.id u) = [w] ->
    run (PollCard.handleVote (Some u) false poll opt) c b
    = (Fulfilled tt, after_vote opt c,
       {| store :=
            tick (set_db (tick (store b))
                    (set_votes (db (store b))
                       (map (fun v => if update_hits (Some (User.id u)) (Votes.id w) v
                                      then set_option_id opt v else v)
                            (votes (db (store b))))));
          faults := [];
          requests := requests b ++ [votes_select_id (Poll.id poll) (User.id u);
                                     votes_update_option (Votes.id w) opt] |}).
Proof.
  intros u poll opt w c b Hs Hf Ho Hw.
  destruct b as [[d nx ck] f rq]. simpl in *. subst f.
  unfold PollCard.handleVote. cbn [run].
  unfold perform at 1. cbn [faults hd exec store db fst snd].
  unfold select_vote_id. cbn [db]. rewrite Hw. cbn.
  unfold perform. cbn [faults hd tl exec store]. unfold auth_uid. cbn [session].
  rewrite Hs. cbn [option_map].
  unfold update_vote_option. cbn [db tick]. rewrite Ho, andb_false_r. cbn.
  unfold after_vote. rewrite Hs, <- app_assoc. reflexivity.
Qed.

(** The lookup found nothing: the handler inserts a row. *)
Lemma handleVote_inserts_first :
  forall (u : User.t) (poll : Poll.t) (opt : uuid)
         (c : Client PollCard.State) (b : Backend),
    session c = Some u ->
    faults b = [] ->
    poll_exists (db (store b)) (Poll.id poll) = true ->
    option_exists (db (store b)) opt = true ->
    votes_of (db (store b)) (Poll.id poll) (User.id u) = [] ->
    run (PollCard.handleVote (Some u) false poll opt) c b
    = (Fulfilled tt, after_vote opt c,
       {| store :=
            tick {| db := set_votes (db (store b))
                            (votes (db (store b))
                             ++ [{| Votes.id := next_uuid (store b);
                                    Votes.poll_id := Poll.id poll;
                                    Votes.option_id := opt;
                                    Votes.user_id := User.id u;
                                    Votes.created_at := N.succ (clock (store b)) |}]);
                    next_uuid := N.succ (next_uuid (store b));
                    clock := N.succ (clock (store b)) |};
          faults := [];
          requests := requests b ++ [votes_select_id (Poll.id poll) (User.id u);
                                     votes_insert (Poll.id poll) opt (User.id u)] |}).
Proof.
  intros u poll opt c b Hs Hf Hp Ho Hw.
  destruct b as [[d nx ck] f rq]. simpl in *. subst f.
  unfold PollCard.handleVote. cbn [run].
  unfold perform at 1. cbn [faults hd exec store db fst snd].
  unfold select_vote_id. cbn [db]. rewrite Hw. cbn.
  unfold perform. cbn [faults hd tl exec store]. unfold auth_uid. cbn [session].
  rewrite Hs. cbn [option_map].
  unfold insert_vote. cbn [db tick auth_uid_is]. rewrite N.eqb_refl. cbn [negb].
  rewrite (filter_nil_existsb _ _ Hw), Hp, Ho. cbn.
  unfold after_vote. rewrite Hs, <- app_assoc. reflexivity.
Qed.

Lemma votes_of_singleton_matches (d : Database) (p u : uuid) (w : Votes.row) :
  votes_of d p u = [w] -> vote_of p u w = true.
Proof.
  intros H. assert (Hin : In w (votes_of d p u)) by (rewrite H; left; reflexivity).
  unfold votes_of in Hin. apply filter_In in Hin. tauto.
Qed.

(** One vote cast with a session, no fault on the way, an existing poll and
    an existing option: what is issued and what the store holds after. *)
Lemma handleVote_casts :
  forall (u : User.t) (poll : Poll.t) (opt : uuid)
         (c : Client PollCard.State) (b : Backend),
    session c = Some u ->
    faults b = [] ->
    votes_unique (db (store b)) ->
    poll_exists (db (store b)) (Poll.id poll) = true ->
    option_exists (db (store b)) opt = true ->
    exists b' : Backend,
      run (PollCard.handleVote (Some u) false poll opt) c b
      = (Fulfilled tt, after_vote opt c, b')
      /\ faults b' = []
      /\ polls (db (store b')) = polls (db (store b))
      /\ poll_options (db (store b')) = poll_options (db (store b))
      /\ requests b'
         = requests b
           ++ [votes_select_id (Poll.id poll) (User.id u);
               match votes_of (db (store b)) (Poll.id poll) (User.id u) with
               | [] => votes_insert (Poll.id poll) opt (User.id u)
               | w :: _ => votes_update_option (Votes.id w) opt
               end]
      /\ exists v : Votes.row,
           votes_of (db (store b')) (Poll.id poll) (User.id u) = [v]
           /\ Votes.option_id v = opt
           /\ (forall w, votes_of (db (store b)) (Poll.id poll) (User.id u) = [w] ->
                 Votes.id v = Votes.id w
                 /\ length (votes (db (store b'))) = length (votes (db (store b)))).
Proof.
  intros u poll opt c b Hs Hf Hu Hp Ho.
  destruct (votes_of (db (store b)) (Poll.id poll) (User.id u))
    as [| w [| w' l]] eqn:Hw.
  - eexists. split; [apply handleVote_inserts_first; assumption |].
    cbn [faults store db tick set_votes polls poll_options requests votes].
    repeat split.
    eexists. split; [| split; [| intros w Hw'; discriminate]].
    + unfold votes_of in *. cbn [votes set_votes]. rewrite filter_app, Hw.
      cbn [filter app].
      unfold vote_of. cbn. rewrite !N.eqb_refl. reflexivity.
    + reflexivity.
  - pose proof (votes_of_singleton_matches _ _ _ _ Hw) as Hm.
    eexists. split; [apply handleVote_updates_existing; eassumption |].
    cbn [faults store db tick set_db set_votes polls poll_options requests votes].
    repeat split.
    exists (set_option_id opt w). split; [| split].
    + unfold votes_of in *. cbn [votes set_votes].
      rewrite filter_map_invariant by (intros v; apply vote_of_update).
      rewrite Hw. cbn [map]. unfold update_hits. cbn [auth_uid_is].
      unfold vote_of in Hm. apply andb_prop in Hm. destruct Hm as [_ Hm].
      apply N.eqb_eq in Hm. rewrite Hm, !N.eqb_refl. reflexivity.
    + reflexivity.
    + intros w0 Hw0. injection Hw0 as <-. split; [reflexivity |].
      apply length_map.
  - specialize (Hu (Poll.id poll) (User.id u)). rewrite Hw in Hu. simpl in Hu. lia.
Qed.

(** C2. Casting a vote looks up the row of (poll, user) first, then updates
    the row found or, if there is none, inserts one. With a session, no fault
    on the way, an existing poll and existing options A and B, voting for A
    and then for B issues lookup, insert-or-update, lookup, update of the same
    row; no row is added by the revote and the pair's only row references B. *)
Theorem vote_then_revote :
  forall (u : User.t) (poll : Poll.t) (optA optB : uuid)
         (c : Client PollCard.State) (b : Backend),
    session c = Some u ->
    PollCard.isVoting (state c) = false ->
    faults b = [] ->
    votes_unique (db (store b)) ->
    poll_exists (db (store b)) (Poll.id poll) = true ->
    option_exists (db (store b)) optA = true ->
    option_exists (db (store b)) optB = true ->
    let p := Poll.id poll in
    let uid := User.id u in
    exists (c1 c2 : Client PollCard.State) (b1 b2 : Backend) (v1 v2 : Votes.row),
      run (PollCard.onClick c poll optA) c b = (Fulfilled tt, c1, b1)
      /\ run (PollCard.onClick c1 poll optB) c1 b1 = (Fulfilled tt, c2, b2)
      /\ requests b1
         = requests b
           ++ [votes_select_id p uid;
               match votes_of (db (store b)) p uid with
               | [] => votes_insert p optA uid
               | w :: _ => votes_update_option (Votes.id w) optA
               end]
      /\ votes_of (db (store b1)) p uid = [v1]
      /\ Votes.option_id v1 = optA
      /\ requests b2
         = requests b1 ++ [votes_select_id p uid; votes_update_option (Votes.id v1) optB]
      /\ votes_of (db (store b2)) p uid = [v2]
      /\ Votes.id v2 = Votes.id v1
      /\ Votes.option_id v2 = optB
      /\ length (votes (db (store b2))) = length (votes (db (store b1)))
      /\ PollCard.userVote (state c2) = Some optB.
Proof.
  intros u poll optA optB c b Hs Hv Hf Hu Hp HA HB p uid.
  destruct (@handleVote_casts u poll optA c b Hs Hf Hu Hp HA)
    as (b1 & Hrun1 & Hf1 & Hpolls1 & Hopts1 & Hreq1 & v1 & Hv1 & Ho1 & _).
  assert (Hu1 : votes_unique (db (store b1))).
  { pose proof (run_votes_unique (PollCard.handleVote (Some u) false poll optA) c b Hu)
      as H. rewrite Hrun1 in H. exact H. }
  assert (Hp1 : poll_exists (db (store b1)) (Poll.id poll) = true).
  { unfold poll_exists. rewrite Hpolls1. exact Hp. }
  assert (HB1 : option_exists (db (store b1)) optB = true).
  { unfold option_exists. rewrite Hopts1. exact HB. }
  destruct (@handleVote_casts u poll optB (after_vote optA c) b1 Hs Hf1 Hu1 Hp1 HB1)
    as (b2 & Hrun2 & _ & _ & _ & Hreq2 & v2 & Hv2 & Ho2 & Hsame).
  destruct (Hsame v1 Hv1) as [Hid Hlen].
  exists (after_vote optA c), (after_vote optB (after_vote optA c)), b1, b2, v1, v2.
  unfold PollCard.onClick. cbn [after_vote session state PollCard.isVoting].
  rewrite Hs, Hv.
  subst p uid. rewrite Hv1 in Hreq2.
  repeat split; assumption.
Qed.

Lemma vote_then_revote_witness :
  exists (c1 c2 : Client PollCard.State) (b1 b2 : Backend) (v1 v2 : Votes.row),
    run (PollCard.onClick (new_client idle_card (Some {| User.id := 7%N |}))
           lunch_poll 1%N)
        (new_client idle_card (Some {| User.id := 7%N |})) (online lunch_store)
    = (Fulfilled tt, c1, b1)
    /\ run (PollCard.onClick c1 lunch_poll 2%N) c1 b1 = (Fulfilled tt, c2, b2)
    /\ requests b1 = [] ++ [votes_select_id 0%N 7%N; votes_insert 0%N 1%N 7%N]
    /\ votes_of (db (store b1)) 0%N 7%N = [v1]
    /\ Votes.option_id v1 = 1%N
    /\ requests b2
       = requests b1 ++ [votes_select_id 0%N 7%N; votes_update_option (Votes.id v1) 2%N]
    /\ votes_of (db (store b2)) 0%N 7%N = [v2]
    /\ Votes.id v2 = Votes.id v1
    /\ Votes.option_id v2 = 2%N
    /\ length (votes (db (store b2))) = length (votes (db (store b1)))
    /\ PollCard.userVote (state c2) = Some 2%N.
Proof.
  apply (@vote_then_revote {| User.id := 7%N |} lunch_poll 1%N 2%N
           (new_client idle_card (Some {| User.id := 7%N |})) (online lunch_store)).
  - reflexivity.
  - reflexivity.
  - reflexivity.
  - intros p u. simpl. lia.
  - reflexivity.
  - reflexivity.
  - reflexivity.
Defined.

(* ================================================================== *)
(** * Deleting a poll *)

(** C6. Deleting a poll issues three requests, in this order: the deletion
    of the poll's votes, the deletion of its options, the deletion of the
    poll row itself, the last one filtered on the caller's [user_id] as well.
    Each request is issued once the one before has been answered without an
    error, which is what the two hypotheses say of the network. *)
Theorem handleDeletePoll_three_deletes_in_order :
  forall (u : User.t) (poll : Poll.t) (c : Client PollCard.State) (b : Backend),
    hd None (faults b) = None ->
    hd None (tl (faults b)) = None ->
    requests (snd (run (PollCard.handleDeletePoll (Some u) true false poll) c b))
    = requests b ++ [votes_delete (Poll.id poll);
                     poll_options_delete (Poll.id poll);
                     polls_delete (Poll.id poll) (User.id u)].
Proof.
  intros u poll c b H1 H2.
  unfold PollCard.handleDeletePoll.
  await_ok H1. cbn [exec delete_votes fst snd error ok].
  await_ok H2. cbn [exec delete_poll_options fst snd error ok].
  destruct (hd None (tl (tl (faults b)))) as [e |] eqn:H3.
  - await_fault H3. cbn. rewrite <- !app_assoc. reflexivity.
  - await_ok H3. cbn. rewrite <- !app_assoc. reflexivity.
Qed.

Lemma handleDeletePoll_three_deletes_in_order_witness :
  hd None (faults (online lunch_store)) = None
  /\ hd None (tl (faults (online lunch_store))) = None
  /\ requests (snd (run (PollCard.handleDeletePoll (Some {| User.id := 7%N |})
                           true false lunch_poll)
                        (new_client idle_card (Some {| User.id := 7%N |}))
                        (online lunch_store)))
     = requests (online lunch_store)
       ++ [votes_delete (Poll.id lunch_poll);
           poll_options_delete (Poll.id lunch_poll);
           polls_delete (Poll.id lunch_poll) (User.id {| User.id := 7%N |})].
Proof.
  split; [reflexivity |]. split; [reflexivity |].
  apply (handleDeletePoll_three_deletes_in_order {| User.id := 7%N |} lunch_poll
           (new_client idle_card (Some {| User.id := 7%N |})) (online lunch_store));
    reflexivity.
Defined.

(** X9. Whatever the store holds and whatever the network does, a deletion
    that passes the guard stops at the first request answered with an error:
    the deletion of the votes is issued; the deletion of the options only when
    the first was answered without an error; the deletion of the poll only
    when the second was. Nothing else reaches the backend: no retry, nothing
    to make up for what was already deleted. The error notice carries the
    message of the answer that stopped the handler; the success notice and the
    [onPollDeleted] callback come only after three answers without an error.
    The [isDeleting] flag is down again at the end. *)
Theorem handleDeletePoll_stops_at_first_error :
  forall (u : User.t) (poll : Poll.t) (c : Client PollCard.State) (b : Backend),
    let first := perform (auth_uid c) (votes_delete (Poll.id poll)) b in
    let second :=
      perform (auth_uid c) (poll_options_delete (Poll.id poll)) (snd first) in
    let third :=
      perform (auth_uid c) (polls_delete (Poll.id poll) (User.id u)) (snd second) in
    exists c' : Client PollCard.State,
      PollCard.isDeleting (state c') = false
      /\ PollCard.isVoting (state c') = PollCard.isVoting (state c)
      /\ PollCard.userVote (state c') = PollCard.userVote (state c)
      /\ navigations c' = navigations c
      /\ match error (fst first) with
         | Some e =>
             run (PollCard.handleDeletePoll (Some u) true false poll) c b
             = (Fulfilled tt, c', snd first)
             /\ requests (snd first) = requests b ++ [votes_delete (Poll.id poll)]
             /\ toasts c' = toasts c ++ [PollCard.error_deleting e]
             /\ callbacks c' = callbacks c
         | None =>
             match error (fst second) with
             | Some e =>
                 run (PollCard.handleDeletePoll (Some u) true false poll) c b
                 = (Fulfilled tt, c', snd second)
                 /\ requests (snd second)
                    = requests b ++ [votes_delete (Poll.id poll);
                                     poll_options_delete (Poll.id poll)]
                 /\ toasts c' = toasts c ++ [PollCard.error_deleting e]
                 /\ callbacks c' = callbacks c
             | None =>
                 run (PollCard.handleDeletePoll (Some u) true false poll) c b
                 = (Fulfilled tt, c', snd third)
                 /\ requests (snd third)
                    = requests b ++ [votes_delete (Poll.id poll);
                                     poll_options_delete (Poll.id poll);
                                     polls_delete (Poll.id poll) (User.id u)]
                 /\ match error (fst third) with
                    | Some e =>
                        toasts c' = toasts c ++ [PollCard.error_deleting e]
                        /\ callbacks c' = callbacks c
                    | None =>
                        toasts c' = toasts c ++ [PollCard.poll_deleted]
                        /\ callbacks c' = callbacks c ++ [onPollDeleted]
                    end
             end
         end.
Proof.
  intros u poll c b first second third. subst third second first.
  unfold PollCard.handleDeletePoll. prog_head. rewrite run_Do, run_Await.
  unfold auth_uid; cbn [session apply_effect].
  pose proof (perform_requests (option_map User.id (session c))
                (votes_delete (Poll.id poll)) b) as Hreq1.
  destruct (perform (option_map User.id (session c)) (votes_delete (Poll.id poll)) b) as [r1 b1].
  cbn [fst snd] in *.
  destruct (error r1) as [e |]; prog_head.
  { cbn [run apply_effect]. eexists.
    refine (conj _ (conj _ (conj _ (conj _
              (conj eq_refl (conj Hreq1 (conj eq_refl eq_refl)))))));
      reflexivity. }
  rewrite run_Await. unfold auth_uid; cbn [session apply_effect].
  pose proof (perform_requests (option_map User.id (session c))
                (poll_options_delete (Poll.id poll)) b1)
    as Hreq2.
  destruct (perform (option_map User.id (session c))
              (poll_options_delete (Poll.id poll)) b1) as [r2 b2].
  cbn [fst snd] in *.
  destruct (error r2) as [e |]; prog_head.
  { cbn [run apply_effect]. eexists.
    refine (conj _ (conj _ (conj _ (conj _
              (conj eq_refl (conj _ (conj eq_refl eq_refl)))))));
      try reflexivity.
    rewrite Hreq2, Hreq1, <- app_assoc. reflexivity. }
  rewrite run_Await. unfold auth_uid; cbn [session apply_effect].
  pose proof (perform_requests (option_map User.id (session c))
                (polls_delete (Poll.id poll) (User.id u)) b2) as Hreq3.
  destruct (perform (option_map User.id (session c)) (polls_delete (Poll.id poll) (User.id u)) b2)
    as [r3 b3].
  cbn [fst snd] in *.
  destruct (error r3) as [e |]; prog_head; cbn [run apply_effect]; eexists;
    (refine (conj _ (conj _ (conj _ (conj _
               (conj eq_refl (conj _ (conj eq_refl eq_refl)))))));
     try reflexivity);
    rewrite Hreq3, Hreq2, Hreq1, <- !app_assoc; reflexivity.
Qed.

(** The ownership check of the last request at the store: a poll of another
    user stays, whoever asks. *)
Lemma delete_polls_keeps_other_users_polls :
  forall (uid : option uuid) (p u : uuid) (s : Store) (r : Polls.row),
    In r (polls (db s)) ->
    Polls.user_id r <> u ->
    In r (polls (db (snd (delete_polls uid p u s)))).
Proof.
  intros uid p u s r Hin Hne. cbn. apply filter_In. split; [exact Hin |].
  apply N.eqb_neq in Hne. rewrite Hne, andb_false_r. reflexivity.
Qed.

(** With the owner's session and no fault, the poll is gone afterwards and
    the card says so. *)
Lemma handleDeletePoll_by_owner_example :
  let '(o, c, b) :=
    run (PollCard.handleDeletePoll (Some {| User.id := 7%N |}) true false lunch_poll)
        (new_client idle_card (Some {| User.id := 7%N |})) (online lunch_store) in
  o = Fulfilled tt
  /\ db (store b) = {| polls := []; poll_options := []; votes := [] |}
  /\ toasts c = [PollCard.poll_deleted]
  /\ callbacks c = [onPollDeleted]
  /\ PollCard.isDeleting (state c) = false.
Proof. vm_compute. repeat split. Qed.

(* ================================================================== *)
(** * Creating a poll *)

(** The supply never hands out an identifier a row already carries or
    references: the invariant holds of the empty store and every statement
    keeps it. *)
Lemma empty_store_supply_fresh : supply_fresh empty_store.
Proof. split; constructor. Qed.

Lemma Forall_lt_weaken {A} (f : A -> N) (n m : N) (l : list A) :
  (n <= m)%N ->
  Forall (fun x => (f x < n)%N) l -> Forall (fun x => (f x < m)%N) l.
Proof.
  intros Hle H. eapply Forall_impl; [| exact H]. cbn. intros x Hx. lia.
Qed.

Lemma Forall_filter {A} (P : A -> Prop) (f : A -> bool) (l : list A) :
  Forall P l -> Forall P (filter f l).
Proof.
  intros H. apply Forall_forall. intros x Hx. apply filter_In in Hx.
  rewrite Forall_forall in H. apply H. tauto.
Qed.

Lemma owns_poll_below (s : Store) (uid : option uuid) (p : uuid) :
  supply_fresh s -> owns_poll (db s) uid p = true -> (p < next_uuid s)%N.
Proof.
  intros [Hp _] H. unfold owns_poll in H. apply existsb_exists in H.
  destruct H as (r & Hin & Hr). apply andb_prop in Hr. destruct Hr as [Hid _].
  apply N.eqb_eq in Hid. subst p.
  rewrite Forall_forall in Hp. apply Hp, Hin.
Qed.

Lemma option_rows_poll_ids (i : uuid) (now : timestamptz) (rows : list (uuid * jsstring)) :
  map PollOptions.poll_id (option_rows i now rows) = map fst rows.
Proof.
  revert i. induction rows as [| [p t] rows IH]; intros i; simpl.
  - reflexivity.
  - rewrite IH. reflexivity.
Qed.

Lemma exec_supply_fresh (uid : option uuid) (r : Request) (s : Store) :
  supply_fresh s -> supply_fresh (snd (exec uid r s)).
Proof.
  intros H. pose proof H as [Hp Ho].
  destruct r; cbn [exec snd]; try exact H.
  - unfold update_vote_option. destruct (_ && _); exact H.
  - unfold insert_vote.
    destruct (negb (auth_uid_is uid user_id)); [exact H |].
    destruct (existsb _ _); [exact H |].
    destruct (negb (poll_exists _ _)); [exact H |].
    destruct (negb (option_exists _ _)); [exact H |].
    split; cbn; eapply Forall_lt_weaken; try eassumption; lia.
  - unfold insert_poll_options.
    destruct (first_text_error _); [exact H |].
    destruct (forallb _ rows) eqn:Hown; [| exact H].
    split; cbn.
    + eapply Forall_lt_weaken; [| exact Hp]. lia.
    + apply Forall_app. split.
      * eapply Forall_lt_weaken; [| exact Ho]. lia.
      * apply Forall_forall. intros o Hin.
        apply (in_map PollOptions.poll_id) in Hin.
        rewrite option_rows_poll_ids in Hin. apply in_map_iff in Hin.
        destruct Hin as (row & Hrow & Hin).
        rewrite forallb_forall in Hown. specialize (Hown row Hin).
        apply (owns_poll_below s uid) in Hown; [| exact H].
        rewrite <- Hrow. lia.
  - split; cbn; [exact Hp | apply Forall_filter, Ho].
  - unfold insert_poll. destruct (text_error title); [exact H |].
    destruct (negb (auth_uid_is uid user_id)); [exact H |].
    split; cbn.
    + apply Forall_app. split.
      * eapply Forall_lt_weaken; [| exact Hp]. lia.
      * constructor; [cbn; lia | constructor].
    + eapply Forall_lt_weaken; [| exact Ho]. lia.
  - split; cbn; apply Forall_filter; assumption.
Qed.




Lemma perform_supply_fresh (uid : option uuid) (r : Request) (b : Backend) :
  supply_fresh (store b) -> supply_fresh (store (snd (perform uid r b))).
Proof.
  intros H. unfold perform. destruct (hd None (faults b)); cbn.
  - exact H.
  - pose proof (exec_supply_fresh uid r (store b) H) as H'.
    destruct (exec uid r (store b)); exact H'.
Qed.

(** Both invariants hold of every store a history of statements leads to. *)
Lemma replay_invariants (h : history) :
  votes_unique (db (replay h)) /\ supply_fresh (replay h).
Proof.
  unfold replay. generalize empty_store_votes_unique empty_store_supply_fresh.
  generalize empty_store. induction h as [| [uid r] h IH]; intros s Hu Hf.
  - split; assumption.
  - cbn [fold_left fst snd]. apply IH.
    + apply exec_votes_unique, Hu.
    + apply exec_supply_fresh, Hf.
Qed.

(* ================================================================== *)
(** * Listing the polls *)

(** ** The ORDER BY of the store *)

Lemma insert_desc_perm (p : Polls.row) (l : list Polls.row) :
  Permutation (insert_desc p l) (p :: l).
Proof.
  induction l as [| q l IH]; simpl.
  - apply Permutation_refl.
  - destruct (N.ltb (Polls.created_at q) (Polls.created_at p)).
    + apply Permutation_refl.
    + eapply Permutation_trans; [apply perm_skip, IH | apply perm_swap].
Qed.

Lemma order_by_created_at_desc_perm (l : list Polls.row) :
  Permutation (order_by_created_at_desc l) l.
Proof.
  induction l as [| p l IH]; simpl.
  - apply perm_nil.
  - eapply Permutation_trans; [apply insert_desc_perm | apply perm_skip, IH].
Qed.

Lemma insert_desc_sorted (p : Polls.row) (l : list Polls.row) :
  StronglySorted (fun a b => not_older (Polls.created_at a) (Polls.created_at b)) l ->
  StronglySorted (fun a b => not_older (Polls.created_at a) (Polls.created_at b))
                 (insert_desc p l).
Proof.
  intros H. induction H as [| q l Hs IH Hq]; simpl.
  - constructor; constructor.
  - destruct (N.ltb_spec (Polls.created_at q) (Polls.created_at p)) as [Hlt | Hge].
    + constructor; [constructor; assumption |].
      constructor; [unfold not_older; lia |].
      eapply Forall_impl; [| exact Hq]. unfold not_older. cbn. intros a Ha. lia.
    + constructor; [exact IH |].
      apply Forall_forall. intros a Ha.
      apply (Permutation_in a (insert_desc_perm p l)) in Ha.
      destruct Ha as [<- | Ha]; [exact Hge |].
      rewrite Forall_forall in Hq. apply Hq, Ha.
Qed.

Lemma order_by_created_at_desc_sorted (l : list Polls.row) :
  StronglySorted (fun a b => not_older (Polls.created_at a) (Polls.created_at b))
                 (order_by_created_at_desc l).
Proof.
  induction l as [| p l IH]; simpl.
  - constructor.
  - apply insert_desc_sorted, IH.
Qed.

(** ** The reads of [fetchPolls] *)

Lemma after_reads_spec (rs : list Request) (b : Backend) :
  db (store (after_reads rs b)) = db (store b)
  /\ requests (after_reads rs b) = requests b ++ rs
  /\ (faults b = [] -> faults (after_reads rs b) = []).
Proof.
  revert b. induction rs as [| r rs IH]; intros b; simpl.
  - rewrite app_nil_r. auto.
  - destruct (IH {| store := tick (store b); faults := tl (faults b);
                    requests := requests b ++ [r] |}) as (Hd & Hr & Hf).
    cbn in Hd, Hr, Hf. rewrite Hd, Hr, <- app_assoc.
    repeat split. intros H. apply Hf. rewrite H. reflexivity.
Qed.

Lemma after_reads_app (rs rs' : list Request) (b : Backend) :
  after_reads (rs ++ rs') b = after_reads rs' (after_reads rs b).
Proof.
  revert b. induction rs as [| r rs IH]; intros b; simpl; [reflexivity | apply IH].
Qed.

Section FetchPolls.
Import Dashboard.

Lemma run_count_options (opts : list PollOptions.row) (c : Client State) (b : Backend) :
  faults b = [] ->
  run (promise_all_map count_option opts) c b
  = (Fulfilled (map (tally_option (db (store b))) opts), c,
     after_reads (map (fun o => votes_count (PollOptions.id o)) opts) b).
Proof.
  revert b. induction opts as [| o opts IH]; intros b Hf.
  - reflexivity.
  - cbn [promise_all_map map after_reads].
    unfold count_option at 1. rewrite !run_bind, run_await.
    rewrite perform_no_fault by (rewrite Hf; reflexivity).
    cbn [fst snd exec count_votes count counted run].
    rewrite run_bind, IH by (cbn; rewrite Hf; reflexivity).
    cbn [store db tick run]. reflexivity.
Qed.

Lemma run_count_polls (l : list PollWithOptions) (c : Client State) (b : Backend) :
  faults b = [] ->
  run (promise_all_map count_poll l) c b
  = (Fulfilled (map (tally_poll (db (store b))) l), c,
     after_reads (count_requests (map (tally_poll (db (store b))) l)) b).
Proof.
  revert b. induction l as [| p l IH]; intros b Hf.
  - reflexivity.
  - cbn [promise_all_map map].
    unfold count_poll at 1. rewrite !run_bind, run_count_options by exact Hf.
    cbn [run].
    destruct (after_reads_spec (map (fun o => votes_count (PollOptions.id o)) (snd p)) b)
      as (Hd & _ & Hf').
    rewrite run_bind, IH by (apply Hf', Hf).
    rewrite Hd. cbn [run count_requests flat_map].
    rewrite after_reads_app.
    unfold count_requests, tally_poll.
    cbn [with_options Poll.poll_options]. rewrite map_map. reflexivity.
Qed.

Lemma run_fetchPolls (c : Client State) (b : Backend) :
  faults b = [] ->
  run fetchPolls c b
  = (Fulfilled tt,
     apply_effect (set_state (setIsLoading false))
       (apply_effect (set_state (setPolls (listing (db (store b))))) c),
     after_reads (polls_select :: count_requests (listing (db (store b)))) b).
Proof.
  intros Hf. unfold fetchPolls.
  rewrite run_try_finally, run_try_catch, !run_bind, run_await.
  rewrite perform_no_fault by (rewrite Hf; reflexivity).
  cbn [fst snd exec select_polls error data ok throw_if run].
  rewrite run_bind. cbn [run].
  rewrite run_bind, run_count_polls by (cbn; rewrite Hf; reflexivity).
  cbn [store db tick]. rewrite map_map. reflexivity.
Qed.

End FetchPolls.

(** ** What the listing holds *)

Lemma StronglySorted_map {A B} (R : A -> A -> Prop) (R' : B -> B -> Prop)
  (f : A -> B) (l : list A) :
  (forall a b, R a b -> R' (f a) (f b)) ->
  StronglySorted R l -> StronglySorted R' (map f l).
Proof.
  intros HR H. induction H as [| a l Hs IH Ha]; simpl; constructor.
  - exact IH.
  - apply Forall_map. eapply Forall_impl; [| exact Ha]. intros b. apply HR.
Qed.

Lemma fold_left_sum {A} (f : A -> nat) (l : list A) (a : nat) :
  fold_left (fun sum x => sum + f x) l a = a + list_sum (map f l).
Proof.
  revert a. induction l as [| x l IH]; intros a; simpl.
  - lia.
  - rewrite IH. lia.
Qed.

(** A poll's total is the sum of its options' counts. *)
Lemma totalVotes_is_sum (poll : Poll.t) :
  PollCard.totalVotes poll
  = list_sum (map PollCard.vote_count_or_0 (Poll.poll_options poll)).
Proof.
  unfold PollCard.totalVotes.
  rewrite (fold_left_sum PollCard.vote_count_or_0). reflexivity.
Qed.

Lemma listing_ids (d : Database) :
  map Poll.id (listing d) = map Polls.id (order_by_created_at_desc (polls d)).
Proof. unfold listing. rewrite map_map. reflexivity. Qed.

Lemma listing_newest_first (d : Database) :
  StronglySorted (fun p q => not_older (Poll.created_at p) (Poll.created_at q))
                 (listing d).
Proof.
  unfold listing.
  eapply StronglySorted_map; [| apply order_by_created_at_desc_sorted].
  intros a b H. exact H.
Qed.

Lemma listing_polls (d : Database) (poll : Poll.t) :
  In poll (listing d) ->
  map PollOption.id (Poll.poll_options poll)
  = map PollOptions.id (options_of d (Poll.id poll))
  /\ map PollOption.option_text (Poll.poll_options poll)
     = map PollOptions.option_text (options_of d (Poll.id poll))
  /\ Forall (fun o => PollOption.vote_count o
                      = Some (length (votes_for_option d (PollOption.id o))))
            (Poll.poll_options poll)
  /\ PollCard.totalVotes poll
     = list_sum (map (fun o => length (votes_for_option d (PollOption.id o)))
                     (Poll.poll_options poll)).
Proof.
  intros Hin. unfold listing in Hin. apply in_map_iff in Hin.
  destruct Hin as (r & <- & _).
  unfold tally_poll. cbn [Dashboard.with_options Poll.poll_options Poll.id fst snd].
  repeat split.
  - rewrite map_map. reflexivity.
  - rewrite map_map. reflexivity.
  - apply Forall_map. apply Forall_forall. intros o _. reflexivity.
  - rewrite totalVotes_is_sum.
    cbn [Dashboard.with_options Poll.poll_options]. rewrite !map_map. reflexivity.
Qed.

Lemma flat_map_map {A B C} (f : A -> B) (g : B -> list C) (l : list A) :
  flat_map g (map f l) = flat_map (fun x => g (f x)) l.
Proof.
  induction l as [| x l IH]; cbn [map flat_map]; [reflexivity |].
  rewrite IH. reflexivity.
Qed.

(** C8. With no fault on the way, listing the polls asks for all the polls
    with their nested options, newest first, and then issues one count request
    per option, over the vote rows that reference the option. The dashboard
    ends up holding every poll row of the store, ordered by descending
    creation time, each with its identifier, title, creation time and owner,
    and with the option rows whose [poll_id] is the poll's, each option with
    its identifier, its text and the number of vote rows whose [option_id] is
    the option's; a poll's total is the sum of those counts. Everything is
    stated on the rows of the three tables. *)
Theorem fetchPolls_lists_and_tallies :
  forall (c : Client Dashboard.State) (b : Backend),
    faults b = [] ->
    let d := db (store b) in
    let options_in (r : Polls.row) :=
      filter (fun o => N.eqb (PollOptions.poll_id o) (Polls.id r)) (poll_options d) in
    let votes_on (o : uuid) :=
      length (filter (fun v => N.eqb (Votes.option_id v) o) (votes d)) in
    exists (c' : Client Dashboard.State) (b' : Backend) (rows : list Polls.row),
      run Dashboard.fetchPolls c b = (Fulfilled tt, c', b')
      /\ db (store b') = d
      /\ Dashboard.isLoading (state c') = false
      /\ toasts c' = toasts c
      /\ Permutation rows (polls d)
      /\ StronglySorted
           (fun r r' => (Polls.created_at r' <= Polls.created_at r)%N) rows
      /\ Dashboard.polls (state c')
         = map (fun r =>
                  {| Poll.id := Polls.id r;
                     Poll.title := Polls.title r;
                     Poll.created_at := Polls.created_at r;
                     Poll.user_id := Polls.user_id r;
                     Poll.poll_options :=
                       map (fun o =>
                              {| PollOption.id := PollOptions.id o;
                                 PollOption.option_text := PollOptions.option_text o;
                                 PollOption.vote_count :=
                                   Some (votes_on (PollOptions.id o)) |})
                           (options_in r) |})
               rows
      /\ requests b'
         = requests b
           ++ polls_select
              :: flat_map (fun r => map (fun o => votes_count (PollOptions.id o))
                                        (options_in r)) rows
      /\ StronglySorted
           (fun p q => (Poll.created_at q <= Poll.created_at p)%N)
           (Dashboard.polls (state c'))
      /\ Forall
           (fun poll =>
              PollCard.totalVotes poll
              = list_sum (map (fun o => votes_on (PollOption.id o))
                              (Poll.poll_options poll)))
           (Dashboard.polls (state c')).
Proof.
  intros c b Hf d options_in votes_on.
  exists (apply_effect (set_state (Dashboard.setIsLoading false))
            (apply_effect (set_state (Dashboard.setPolls (listing d))) c)),
         (after_reads (polls_select :: count_requests (listing d)) b),
         (order_by_created_at_desc (polls d)).
  split; [apply run_fetchPolls, Hf |].
  destruct (after_reads_spec (polls_select :: count_requests (listing d)) b)
    as (Hd & Hr & _).
  cbn [apply_effect state toasts Dashboard.isLoading Dashboard.polls
       Dashboard.setIsLoading Dashboard.setPolls].
  split; [exact Hd |]. split; [reflexivity |]. split; [reflexivity |].
  split; [apply order_by_created_at_desc_perm |].
  split; [apply order_by_created_at_desc_sorted |].
  split; [reflexivity |].
  split.
  { rewrite Hr. unfold count_requests, listing. rewrite flat_map_map.
    do 2 f_equal. apply flat_map_ext. intros r.
    unfold tally_poll. cbn [Dashboard.with_options Poll.poll_options fst snd].
    rewrite map_map. reflexivity. }
  split; [apply listing_newest_first |].
  apply Forall_forall. intros poll Hin.
  destruct (listing_polls d poll Hin) as (_ & _ & _ & H4). exact H4.
Qed.

Lemma fetchPolls_lists_and_tallies_witness :
  exists (c' : Client Dashboard.State) (b' : Backend),
    run Dashboard.fetchPolls
        (new_client {| Dashboard.polls := []; Dashboard.isLoading := true;
                       Dashboard.isCreateModalOpen := false |}
                    (Some {| User.id := 7%N |}))
        (online two_polls_store)
    = (Fulfilled tt, c', b')
    /\ db (store b') = db two_polls_store
    /\ Dashboard.isLoading (state c') = false
    /\ toasts c' = []
    /\ Dashboard.polls (state c') = two_polls_shown
    /\ requests b'
       = [polls_select; votes_count 4%N; votes_count 5%N;
          votes_count 1%N; votes_count 2%N]
    /\ map PollCard.totalVotes (Dashboard.polls (state c')) = [1; 2].
Proof.
  destruct (fetchPolls_lists_and_tallies
              (new_client {| Dashboard.polls := []; Dashboard.isLoading := true;
                             Dashboard.isCreateModalOpen := false |}
                          (Some {| User.id := 7%N |}))
              (online two_polls_store) eq_refl)
    as (c' & b' & rows & Hrun & Hd & Hl & Ht & Hperm & Hsorted & Hshown & Hreq & _).
  assert (Hrows : rows = [{| Polls.id := 3%N; Polls.title := js "Dinner?";
                             Polls.user_id := 8%N; Polls.created_at := 5%N;
                             Polls.updated_at := 5%N |};
                          {| Polls.id := 0%N; Polls.title := js "Lunch?";
                             Polls.user_id := 7%N; Polls.created_at := 0%N;
                             Polls.updated_at := 0%N |}]).
  { apply Permutation_sym, Permutation_length_2_inv in Hperm.
    destruct Hperm as [-> | ->]; [exfalso | reflexivity].
    inversion Hsorted as [| ? ? _ Hhd]; subst.
    inversion Hhd as [| ? ? Hle _]; subst.
    cbn in Hle. apply N.leb_le in Hle. discriminate Hle. }
  subst rows.
  exists c', b'. split; [exact Hrun |]. split; [exact Hd |].
  split; [exact Hl |]. split; [exact Ht |].
  split; [rewrite Hshown; reflexivity |].
  split; [rewrite Hreq; reflexivity |].
  rewrite Hshown. reflexivity.
Defined.

(** The listing of the example store: one poll, no vote yet. *)
Lemma fetchPolls_example :
  let '(_, c, b) :=
    run Dashboard.fetchPolls
        (new_client {| Dashboard.polls := []; Dashboard.isLoading := true;
                       Dashboard.isCreateModalOpen := false |}
                    (Some {| User.id := 7%N |}))
        (online lunch_store) in
  Dashboard.polls (state c) = [lunch_poll]
  /\ requests b = [polls_select; votes_count 1%N; votes_count 2%N].
Proof. vm_compute. split; reflexivity. Qed.

(* ================================================================== *)
(** * Percentages *)

(** With a total of 0 the guard answers: the percentage is 0, shown as 0.0. *)
Lemma percentage_without_votes (poll : Poll.t) (opt : PollOption.t) :
  PollCard.totalVotes poll = 0 ->
  PollCard.percentage poll opt = 0%float
  /\ PollCard.displayed poll opt = Some (js "0.0").
Proof.
  intros H. unfold PollCard.displayed, PollCard.percentage. rewrite H.
  split; reflexivity.
Qed.

(** C3. The percentage shown for an option is its count divided by the
    poll's total, times 100, computed on Numbers; when the total is 0 it is 0
    (shown as 0.0) and no division takes place. With three votes for A and
    one for B the total is 4 and the card shows 75.0 and 25.0. *)
Theorem percentage_is_share_of_total :
  forall (poll : Poll.t) (opt : PollOption.t),
    (PollCard.totalVotes poll = 0 ->
       PollCard.percentage poll opt = 0%float
       /\ PollCard.displayed poll opt = Some (js "0.0"))
    /\ (0 < PollCard.totalVotes poll ->
          PollCard.percentage poll opt
          = (Number (PollCard.vote_count_or_0 opt)
             / Number (PollCard.totalVotes poll) * 100)%float)
    /\ PollCard.totalVotes three_to_one = 4
    /\ PollCard.percentage three_to_one option_A = 75%float
    /\ PollCard.percentage three_to_one option_B = 25%float
    /\ PollCard.displayed three_to_one option_A = Some (js "75.0")
    /\ PollCard.displayed three_to_one option_B = Some (js "25.0").
Proof.
  intros poll opt. split; [| split].
  - apply percentage_without_votes.
  - intros H. unfold PollCard.percentage.
    destruct (Nat.ltb_spec 0 (PollCard.totalVotes poll)); [reflexivity | lia].
  - repeat split; vm_compute; reflexivity.
Qed.

(** A poll nobody has voted on shows 0.0 beside every option. *)
Lemma no_votes_shows_zero :
  forall (poll : Poll.t),
    Forall (fun o => PollOption.vote_count o = None \/ PollOption.vote_count o = Some 0)
           (Poll.poll_options poll) ->
    PollCard.totalVotes poll = 0
    /\ Forall (fun o => PollCard.displayed poll o = Some (js "0.0"))
              (Poll.poll_options poll).
Proof.
  intros poll H.
  assert (Ht : PollCard.totalVotes poll = 0).
  { rewrite totalVotes_is_sum. revert H.
    generalize (Poll.poll_options poll). intros l H.
    induction H as [| o l Ho _ IH]; [reflexivity |].
    change (list_sum (map PollCard.vote_count_or_0 (o :: l)))
      with (PollCard.vote_count_or_0 o + list_sum (map PollCard.vote_count_or_0 l)).
    rewrite IH. unfold PollCard.vote_count_or_0.
    destruct Ho as [-> | ->]; reflexivity. }
  split; [exact Ht |].
  apply Forall_forall. intros o _.
  apply (percentage_without_votes poll o Ht).
Qed.

(* ================================================================== *)
(** * The reset-password route *)

Section ResetPasswordRoute.
Import ResetPassword.

(** X22. An expired-link visit never reaches the session exchange: whatever
    else the fragment holds, the backend is left as it was. *)
Lemma init_otp_expired_never_exchanges :
  forall (hashParams : URLSearchParams) (c : Client State) (b : Backend),
    equals (get (js "error") hashParams) "access_denied" = true ->
    equals (get (js "error_code") hashParams) "otp_expired" = true ->
    snd (run (init hashParams) c b) = b.
Proof.
  intros hashParams c b H1 H2. unfold init. rewrite H1, H2. cbn [andb].
  destruct (decodeURIComponent _); reflexivity.
Qed.

(** When the description decodes, the visit is redirected to the landing
    route with the notice. *)
Lemma init_otp_expired_redirects_when_decodable :
  forall (hashParams : URLSearchParams) (c : Client State) (b : Backend)
         (d : jsstring),
    equals (get (js "error") hashParams) "access_denied" = true ->
    equals (get (js "error_code") hashParams) "otp_expired" = true ->
    decodeURIComponent
      (match truthy (get (js "error_description") hashParams) with
       | Some s => s
       | None => js "Reset link is invalid or expired."
       end) = Some d ->
    run (init hashParams) c b = (Fulfilled tt, redirected (link_expired d) c, b).
Proof.
  intros hashParams c b d H1 H2 Hd. unfold init. rewrite H1, H2. cbn [andb].
  rewrite Hd. reflexivity.
Qed.

(** A string without a percent sign decodes to itself. *)
Lemma decode_without_percent (s : jsstring) (fuel : nat) :
  length s < fuel ->
  Forall (fun c => c <> 37%N) s ->
  decode fuel s = Some s.
Proof.
  revert fuel. induction s as [| c s IH]; intros fuel Hlen Hs.
  - destruct fuel; [inversion Hlen | reflexivity].
  - destruct fuel as [| fuel]; [inversion Hlen |].
    inversion Hs as [| ? ? Hc Hs']; subst. cbn [decode].
    apply N.eqb_neq in Hc. rewrite Hc. cbn [negb].
    rewrite IH; [reflexivity | cbn in Hlen; lia | exact Hs'].
Qed.

Lemma decodeURIComponent_without_percent (s : jsstring) :
  Forall (fun c => c <> 37%N) s -> decodeURIComponent s = Some s.
Proof. intros H. apply decode_without_percent; [unfold lt; reflexivity | exact H]. Qed.

(** The link the identity provider writes is handled as intended. *)
Lemma init_expired_link_redirects :
  forall (c : Client State) (b : Backend),
    run (init expired_link) c b
    = (Fulfilled tt,
       redirected (link_expired (js "Email link is invalid or has expired")) c, b).
Proof. intros c b. reflexivity. Qed.

(** C7, at the failing input. The fragment carries [error=access_denied] and
    [error_code=otp_expired], and an [error_description] in which a percent
    sign is not followed by two hexadecimal digits. [decodeURIComponent]
    throws while the notice is being built: no notice is shown, [navigate] is
    not called, and the promise of [init] is rejected. The session exchange is
    not attempted either. *)
Theorem init_stray_percent_does_not_redirect :
  forall (c : Client State) (b : Backend),
    equals (get (js "error") expired_link_stray_percent) "access_denied" = true
    /\ equals (get (js "error_code") expired_link_stray_percent) "otp_expired" = true
    /\ run (init expired_link_stray_percent) c b = (Rejected URIError, c, b).
Proof. intros c b. repeat split. Qed.

(** X24. Without the error pair, a fragment that lacks one of the two tokens (or
    holds it empty) is redirected before any session exchange. *)
Lemma init_missing_tokens_redirects :
  forall (hashParams : URLSearchParams) (c : Client State) (b : Backend),
    equals (get (js "error") hashParams) "access_denied"
    && equals (get (js "error_code") hashParams) "otp_expired" = false ->
    truthy (get (js "access_token") hashParams) = None
    \/ truthy (get (js "refresh_token") hashParams) = None ->
    run (init hashParams) c b = (Fulfilled tt, redirected invalid_reset_link c, b).
Proof.
  intros hashParams c b Hno Hmiss. unfold init. rewrite Hno.
  destruct Hmiss as [-> | ->].
  - reflexivity.
  - destruct (truthy (get (js "access_token") hashParams)); reflexivity.
Qed.

(** The session exchange is attempted exactly when both tokens are there
    and the fragment is not the expired-link error. *)
Lemma init_exchanges_with_both_tokens :
  forall (hashParams : URLSearchParams) (c : Client State) (b : Backend)
         (accessToken refreshToken : jsstring),
    equals (get (js "error") hashParams) "access_denied"
    && equals (get (js "error_code") hashParams) "otp_expired" = false ->
    truthy (get (js "access_token") hashParams) = Some accessToken ->
    truthy (get (js "refresh_token") hashParams) = Some refreshToken ->
    requests (snd (run (init hashParams) c b))
    = requests b ++ [auth_setSession accessToken refreshToken].
Proof.
  intros hashParams c b accessToken refreshToken Hno Ha Hr.
  unfold init. rewrite Hno, Ha, Hr. prog_head. rewrite run_Await.
  pose proof (perform_requests (auth_uid c)
                (auth_setSession accessToken refreshToken) b) as Hreq.
  destruct (perform (auth_uid c) (auth_setSession accessToken refreshToken) b)
    as [res b']. cbn [fst snd] in *.
  destruct (error res); cbn; exact Hreq.
Qed.

End ResetPasswordRoute.

(* ================================================================== *)
(** * Referential integrity *)

Lemma existsb_app_l {A} (f : A -> bool) (l l' : list A) :
  existsb f l = true -> existsb f (l ++ l') = true.
Proof. intros H. rewrite existsb_app, H. reflexivity. Qed.

(** A row found by [f] that the filter keeps is still found. *)
Lemma existsb_filter_kept {A} (f keep : A -> bool) (l : list A) :
  (forall x, In x l -> f x = true -> keep x = true) ->
  existsb f l = true -> existsb f (filter keep l) = true.
Proof.
  intros Hk H. apply existsb_exists in H. destruct H as (x & Hin & Hx).
  apply existsb_exists. exists x. split; [| exact Hx].
  apply filter_In. split; [exact Hin | apply Hk; assumption].
Qed.

Lemma mem_uuid_map {A} (f : A -> uuid) (keep : A -> bool) (x : A) (l : list A) :
  In x l -> keep x = true -> mem_uuid (f x) (map f (filter keep l)) = true.
Proof.
  intros Hin Hk. unfold mem_uuid. apply existsb_exists. exists (f x).
  split; [| apply N.eqb_refl].
  apply in_map, filter_In. split; assumption.
Qed.

Lemma Forall_filter_weaken {A} (P Q : A -> Prop) (keep : A -> bool) (l : list A) :
  (forall x, In x l -> keep x = true -> P x -> Q x) ->
  Forall P l -> Forall Q (filter keep l).
Proof.
  intros H HP. apply Forall_forall. intros x Hx. apply filter_In in Hx.
  destruct Hx as [Hin Hk]. rewrite Forall_forall in HP. apply H; auto.
Qed.

Lemma update_vote_option_references (uid : option uuid) (i o : uuid) (s : Store) :
  references_hold (db s) ->
  references_hold (db (snd (update_vote_option uid i o s))).
Proof.
  intros (Ho & Hvp & Hvo). unfold update_vote_option.
  destruct (existsb (update_hits uid i) (votes (db s))) eqn:Hhit;
    destruct (option_exists (db s) o) eqn:Hex; cbn [andb negb snd];
    try (repeat split; assumption).
  - repeat split; cbn; try exact Ho.
    + apply Forall_map. eapply Forall_impl; [| exact Hvp].
      intros v Hv. destruct (update_hits uid i v); exact Hv.
    + apply Forall_map. eapply Forall_impl; [| exact Hvo].
      intros v Hv. destruct (update_hits uid i v); [exact Hex | exact Hv].
  - repeat split; cbn; try exact Ho.
    + apply Forall_map. eapply Forall_impl; [| exact Hvp].
      intros v Hv. destruct (update_hits uid i v); exact Hv.
    + apply Forall_map. eapply Forall_impl; [| exact Hvo].
      intros v Hv. destruct (update_hits uid i v); [exact Hex | exact Hv].
  - repeat split; cbn; try exact Ho.
    + apply Forall_map. eapply Forall_impl; [| exact Hvp].
      intros v Hv. destruct (update_hits uid i v); exact Hv.
    + apply Forall_map. apply Forall_forall. intros v Hin.
      rewrite Forall_forall in Hvo.
      destruct (update_hits uid i v) eqn:Hv; [| apply Hvo, Hin].
      assert (existsb (update_hits uid i) (votes (db s)) = true) as Habs
        by (apply existsb_exists; exists v; auto).
      congruence.
Qed.

Lemma insert_vote_references (uid : option uuid) (p o u : uuid) (s : Store) :
  references_hold (db s) ->
  references_hold (db (snd (insert_vote uid p o u s))).
Proof.
  intros H. pose proof H as (Ho & Hvp & Hvo). unfold insert_vote.
  destruct (negb (auth_uid_is uid u)); [exact H |].
  destruct (existsb (vote_of p u) (votes (db s))); [exact H |].
  destruct (poll_exists (db s) p) eqn:Hp; [| exact H].
  destruct (option_exists (db s) o) eqn:Hopt; [| exact H].
  repeat split; cbn.
  - exact Ho.
  - apply Forall_app. split; [exact Hvp |]. constructor; [exact Hp | constructor].
  - apply Forall_app. split; [exact Hvo |]. constructor; [exact Hopt | constructor].
Qed.

Lemma insert_poll_references (uid : option uuid) (t : jsstring) (u : uuid) (s : Store) :
  references_hold (db s) ->
  references_hold (db (snd (insert_poll uid t u s))).
Proof.
  intros H. pose proof H as (Ho & Hvp & Hvo). unfold insert_poll.
  destruct (text_error t); [exact H |].
  destruct (negb (auth_uid_is uid u)); [exact H |].
  repeat split; cbn.
  - eapply Forall_impl; [| exact Ho]. intros o Hx. apply existsb_app_l, Hx.
  - eapply Forall_impl; [| exact Hvp]. intros v Hx. apply existsb_app_l, Hx.
  - exact Hvo.
Qed.

Lemma owns_poll_exists (d : Database) (uid : option uuid) (p : uuid) :
  owns_poll d uid p = true -> poll_exists d p = true.
Proof.
  unfold owns_poll, poll_exists. intros H. apply existsb_exists in H.
  destruct H as (r & Hin & Hr). apply andb_prop in Hr.
  apply existsb_exists. exists r. tauto.
Qed.

Lemma insert_poll_options_references (uid : option uuid)
  (rows : list (uuid * jsstring)) (s : Store) :
  references_hold (db s) ->
  references_hold (db (snd (insert_poll_options uid rows s))).
Proof.
  intros H. pose proof H as (Ho & Hvp & Hvo). unfold insert_poll_options.
  destruct (first_text_error _); [exact H |].
  destruct (forallb _ rows) eqn:Hown; [| exact H].
  repeat split; cbn.
  - apply Forall_app. split; [exact Ho |].
    apply Forall_forall. intros o Hin.
    apply (in_map PollOptions.poll_id) in Hin.
    rewrite option_rows_poll_ids in Hin. apply in_map_iff in Hin.
    destruct Hin as (row & <- & Hin).
    rewrite forallb_forall in Hown. apply (owns_poll_exists _ uid), Hown, Hin.
  - exact Hvp.
  - eapply Forall_impl; [| exact Hvo]. intros v Hx. apply existsb_app_l, Hx.
Qed.

Lemma delete_poll_options_references (uid : option uuid) (p : uuid) (s : Store) :
  references_hold (db s) ->
  references_hold (db (snd (delete_poll_options uid p s))).
Proof.
  intros (Ho & Hvp & Hvo). repeat split; cbn.
  - apply Forall_filter, Ho.
  - apply Forall_filter, Hvp.
  - eapply Forall_filter_weaken; [| exact Hvo].
    intros v _ Hkeep Hex. unfold option_exists in *. cbn.
    eapply existsb_filter_kept; [| exact Hex].
    intros o Hin Hid. apply N.eqb_eq in Hid.
    destruct (N.eqb (PollOptions.poll_id o) p
              && owns_poll (db s) uid (PollOptions.poll_id o)) eqn:Hgone;
      [| reflexivity].
    rewrite <- Hid in Hkeep.
    rewrite (mem_uuid_map PollOptions.id _ o _ Hin Hgone) in Hkeep. discriminate.
Qed.

Lemma delete_polls_references (uid : option uuid) (p u : uuid) (s : Store) :
  references_hold (db s) ->
  references_hold (db (snd (delete_polls uid p u s))).
Proof.
  intros (Ho & Hvp & Hvo).
  assert (Hpolls : forall q keep,
    keep = negb (mem_uuid q (map Polls.id
             (filter (fun r => N.eqb (Polls.id r) p && N.eqb (Polls.user_id r) u
                               && auth_uid_is uid (Polls.user_id r))
                     (polls (db s))))) ->
    keep = true ->
    existsb (fun r => N.eqb (Polls.id r) q) (polls (db s)) = true ->
    existsb (fun r => N.eqb (Polls.id r) q)
      (filter (fun r => negb (N.eqb (Polls.id r) p && N.eqb (Polls.user_id r) u
                                && auth_uid_is uid (Polls.user_id r)))
              (polls (db s))) = true).
  { intros q keep -> Hkeep Hex.
    eapply existsb_filter_kept; [| exact Hex].
    intros r Hin Hid. apply N.eqb_eq in Hid.
    destruct (N.eqb (Polls.id r) p && N.eqb (Polls.user_id r) u
              && auth_uid_is uid (Polls.user_id r)) eqn:Hgone; [| reflexivity].
    rewrite <- Hid in Hkeep.
    rewrite (mem_uuid_map Polls.id _ r _ Hin Hgone) in Hkeep. discriminate. }
  repeat split; cbn.
  - eapply Forall_filter_weaken; [| exact Ho].
    intros o _ Hkeep Hex. unfold poll_exists in *. cbn.
    eapply Hpolls; [reflexivity | exact Hkeep | exact Hex].
  - eapply Forall_filter_weaken; [| exact Hvp].
    intros v _ Hkeep Hex. apply andb_prop in Hkeep. destruct Hkeep as [Hkeep _].
    unfold poll_exists in *. cbn.
    eapply Hpolls; [reflexivity | exact Hkeep | exact Hex].
  - eapply Forall_filter_weaken; [| exact Hvo].
    intros v _ Hkeep Hex. apply andb_prop in Hkeep. destruct Hkeep as [_ Hkeep].
    unfold option_exists in *. cbn.
    eapply existsb_filter_kept; [| exact Hex].
    intros o Hin Hid. apply N.eqb_eq in Hid.
    match goal with |- negb ?orphan = true => destruct orphan eqn:Horphan end;
      [| reflexivity].
    rewrite <- Hid in Hkeep.
    rewrite (mem_uuid_map PollOptions.id _ o _ Hin Horphan) in Hkeep. discriminate.
Qed.

Lemma exec_references (uid : option uuid) (r : Request) (s : Store) :
  references_hold (db s) -> references_hold (db (snd (exec uid r s))).
Proof.
  intros H. destruct r; cbn [exec snd]; try exact H.
  - apply update_vote_option_references, H.
  - apply insert_vote_references, H.
  - destruct H as (Ho & Hvp & Hvo). repeat split; cbn;
      [exact Ho | apply Forall_filter, Hvp | apply Forall_filter, Hvo].
  - apply insert_poll_options_references, H.
  - apply delete_poll_options_references, H.
  - apply insert_poll_references, H.
  - apply delete_polls_references, H.
Qed.

(** X1. The REFERENCES clauses hold of every store a history of statements leads
    to, whoever issued them: the inserts and the update check them, and the
    cascades remove the rows a deletion would leave dangling. *)
Theorem references_hold_of_every_store :
  forall h : history, references_hold (db (replay h)).
Proof.
  intros h. unfold replay.
  assert (H0 : references_hold (db empty_store)) by (repeat split; constructor).
  revert H0. generalize empty_store.
  induction h as [| [uid r] h IH]; intros s Hs.
  - exact Hs.
  - cbn [fold_left fst snd]. apply IH, exec_references, Hs.
Qed.

Lemma perform_references (uid : option uuid) (r : Request) (b : Backend) :
  references_hold (db (store b)) ->
  references_hold (db (store (snd (perform uid r b)))).
Proof.
  intros H. unfold perform. destruct (hd None (faults b)); cbn.
  - exact H.
  - pose proof (exec_references uid r (store b) H) as H'.
    destruct (exec uid r (store b)); exact H'.
Qed.

(* ================================================================== *)
(** * Primary keys *)

Lemma NoDup_map_filter {A B} (f : A -> B) (keep : A -> bool) (l : list A) :
  NoDup (map f l) -> NoDup (map f (filter keep l)).
Proof.
  induction l as [| x l IH]; cbn; intros H; [constructor |].
  inversion H as [| ? ? Hnin Hnd]; subst.
  destruct (keep x); cbn; [| apply IH, Hnd].
  constructor; [| apply IH, Hnd].
  intros Hin. apply Hnin. apply in_map_iff in Hin.
  destruct Hin as (y & Hy & Hin). apply filter_In in Hin.
  apply in_map_iff. exists y. tauto.
Qed.

Lemma Forall_map_filter {A B} (P : B -> Prop) (f : A -> B) (keep : A -> bool)
  (l : list A) :
  Forall P (map f l) -> Forall P (map f (filter keep l)).
Proof.
  rewrite !Forall_map. apply Forall_filter.
Qed.

Lemma NoDup_snoc_fresh (l : list uuid) (n : uuid) :
  NoDup l -> Forall (fun i => (i < n)%N) l -> NoDup (l ++ [n]).
Proof.
  intros Hnd Hlt. apply NoDup_app.
  - exact Hnd.
  - constructor; [intros [] | constructor].
  - intros x Hin [Hx | []]. subst x. rewrite Forall_forall in Hlt.
    specialize (Hlt n Hin). lia.
Qed.

Lemma Forall_lt_succ (l : list uuid) (n m : uuid) :
  (n <= m)%N -> Forall (fun i => (i < n)%N) l -> Forall (fun i => (i < m)%N) l.
Proof.
  intros Hle H. eapply Forall_impl; [| exact H]. cbn. intros i Hi. lia.
Qed.

(** The identifiers of the rows of one INSERT INTO poll_options. *)
Lemma option_rows_ids (rows : list (uuid * jsstring)) (i : uuid) (now : timestamptz) :
  NoDup (map PollOptions.id (option_rows i now rows))
  /\ Forall (fun j => (i <= j < i + N.of_nat (length rows))%N)
            (map PollOptions.id (option_rows i now rows)).
Proof.
  revert i. induction rows as [| [p t] rows IH]; intros i; cbn [option_rows map].
  - split; constructor.
  - destruct (IH (N.succ i)) as [Hnd Hb]. split.
    + constructor; [| exact Hnd].
      intros Hin. rewrite Forall_forall in Hb. specialize (Hb i Hin). lia.
    + cbn [length]. rewrite Nat2N.inj_succ.
      constructor; [cbn [PollOptions.id]; lia |].
      eapply Forall_impl; [| exact Hb]. cbn beta. intros j Hj. lia.
Qed.

Lemma exec_keys (uid : option uuid) (r : Request) (s : Store) :
  keys_hold s -> keys_hold (snd (exec uid r s)).
Proof.
  intros H. pose proof H as (Np & No & Nv & Bp & Bo & Bv).
  destruct r; cbn [exec snd]; try exact H.
  - unfold update_vote_option. destruct (_ && _); [exact H |].
    unfold keys_hold; cbn [snd db set_db set_votes votes polls poll_options next_uuid].
    rewrite map_map. cbn [set_option_id Votes.id].
    replace (map _ (votes (db s))) with (map Votes.id (votes (db s)))
      by (apply map_ext; intros v; destruct (update_hits uid id v); reflexivity).
    repeat split; assumption.
  - unfold insert_vote.
    destruct (negb (auth_uid_is uid user_id)); [exact H |].
    destruct (existsb _ _); [exact H |].
    destruct (negb (poll_exists _ _)); [exact H |].
    destruct (negb (option_exists _ _)); [exact H |].
    unfold keys_hold; cbn [snd db set_db set_votes votes polls poll_options next_uuid].
    rewrite map_app. cbn [map Votes.id Polls.id].
    repeat split; try assumption.
    + apply NoDup_snoc_fresh; assumption.
    + eapply Forall_lt_succ; [| exact Bp]. lia.
    + eapply Forall_lt_succ; [| exact Bo]. lia.
    + apply Forall_app. split.
      * eapply Forall_lt_succ; [| exact Bv]. lia.
      * constructor; [lia | constructor].
  - unfold keys_hold; cbn [db set_db set_votes votes polls poll_options next_uuid delete_votes delete_poll_options delete_polls snd].
    repeat split; try assumption.
    + apply NoDup_map_filter, Nv.
    + apply Forall_map_filter, Bv.
  - unfold insert_poll_options. destruct (first_text_error _); [exact H |].
    destruct (forallb _ rows); [| exact H].
    unfold keys_hold; cbn [snd db set_db set_votes votes polls poll_options next_uuid].
    rewrite map_app.
    destruct (option_rows_ids rows (next_uuid s) (clock s)) as [Hnd Hb].
    repeat split; try assumption.
    + apply NoDup_app; [exact No | exact Hnd |].
      intros x Hin Hin'. rewrite Forall_forall in Bo, Hb.
      specialize (Bo x Hin). specialize (Hb x Hin'). lia.
    + eapply Forall_lt_succ; [| exact Bp]. lia.
    + apply Forall_app. split.
      * eapply Forall_lt_succ; [| exact Bo]. lia.
      * eapply Forall_impl; [| exact Hb]. cbn. intros j Hj. lia.
    + eapply Forall_lt_succ; [| exact Bv]. lia.
  - unfold keys_hold; cbn [db set_db set_votes votes polls poll_options next_uuid delete_votes delete_poll_options delete_polls snd].
    repeat split; try assumption.
    + apply NoDup_map_filter, No.
    + apply NoDup_map_filter, Nv.
    + apply Forall_map_filter, Bo.
    + apply Forall_map_filter, Bv.
  - unfold insert_poll. destruct (text_error title); [exact H |].
    destruct (negb (auth_uid_is uid user_id)); [exact H |].
    unfold keys_hold; cbn [snd db set_db set_votes votes polls poll_options next_uuid].
    rewrite map_app. cbn [map Votes.id Polls.id].
    repeat split; try assumption.
    + apply NoDup_snoc_fresh; assumption.
    + apply Forall_app. split.
      * eapply Forall_lt_succ; [| exact Bp]. lia.
      * constructor; [lia | constructor].
    + eapply Forall_lt_succ; [| exact Bo]. lia.
    + eapply Forall_lt_succ; [| exact Bv]. lia.
  - unfold keys_hold; cbn [db set_db set_votes votes polls poll_options next_uuid delete_votes delete_poll_options delete_polls snd].
    repeat split.
    + apply NoDup_map_filter, Np.
    + apply NoDup_map_filter, No.
    + apply NoDup_map_filter, Nv.
    + apply Forall_map_filter, Bp.
    + apply Forall_map_filter, Bo.
    + apply Forall_map_filter, Bv.
Qed.

Lemma perform_keys (uid : option uuid) (r : Request) (b : Backend) :
  keys_hold (store b) -> keys_hold (store (snd (perform uid r b))).
Proof.
  intros H. unfold perform. destruct (hd None (faults b)); cbn.
  - exact H.
  - pose proof (exec_keys uid r (store b) H) as H'.
    destruct (exec uid r (store b)); exact H'.
Qed.

Lemma replay_keys (h : history) : keys_hold (replay h).
Proof.
  unfold replay.
  assert (H0 : keys_hold empty_store) by (repeat split; constructor).
  revert H0. generalize empty_store.
  induction h as [| [uid r] h IH]; intros s Hs.
  - exact Hs.
  - cbn [fold_left fst snd]. apply IH, exec_keys, Hs.
Qed.

(* ================================================================== *)
(** * Row-level policies *)

Lemma filter_all {A} (keep : A -> bool) (l : list A) :
  (forall x, In x l -> keep x = true) -> filter keep l = l.
Proof.
  induction l as [| x l IH]; cbn; intros H; [reflexivity |].
  rewrite (H x (or_introl eq_refl)). f_equal. apply IH. intros y Hy. apply H. now right.
Qed.

Lemma filter_none {A} (keep : A -> bool) (l : list A) :
  (forall x, In x l -> keep x = false) -> filter keep l = [].
Proof.
  induction l as [| x l IH]; cbn; intros H; [reflexivity |].
  rewrite (H x (or_introl eq_refl)). apply IH. intros y Hy. apply H. now right.
Qed.

(** Rows the filter [f] selects that [keep] keeps, all of them. *)
Lemma filter_filter_kept {A} (f keep : A -> bool) (l : list A) :
  (forall x, f x = true -> keep x = true) ->
  filter f (filter keep l) = filter f l.
Proof.
  intros H. induction l as [| x l IH]; cbn; [reflexivity |].
  destruct (keep x) eqn:Hk; cbn.
  - rewrite IH. reflexivity.
  - destruct (f x) eqn:Hf; [| exact IH]. rewrite (H x Hf) in Hk. discriminate.
Qed.

(** Rows the filter [f] selects that [g] leaves alone. *)
Lemma filter_map_fixed {A} (f : A -> bool) (g : A -> A) (l : list A) :
  (forall x, f (g x) = f x) -> (forall x, f x = true -> g x = x) ->
  filter f (map g l) = filter f l.
Proof.
  intros Hf Hg. induction l as [| x l IH]; cbn; [reflexivity |].
  rewrite Hf. destruct (f x) eqn:Hx; [| exact IH].
  rewrite (Hg x Hx), IH. reflexivity.
Qed.

Lemma exec_on_votes_frame :
  forall (uid : option uuid) (r : Request) (s : Store),
    on_votes r = true ->
    votes_of_others uid (db (snd (exec uid r s))) = votes_of_others uid (db s)
    /\ polls (db (snd (exec uid r s))) = polls (db s)
    /\ poll_options (db (snd (exec uid r s))) = poll_options (db s).
Proof.
  intros uid r s Hr. destruct r; try discriminate; cbn [exec snd].
  - unfold update_vote_option. destruct (_ && _); [auto |].
    cbn. repeat split. unfold votes_of_others. cbn.
    apply filter_map_fixed.
    + intros v. destruct (update_hits uid id v); reflexivity.
    + intros v Hv. unfold update_hits.
      destruct (auth_uid_is uid (Votes.user_id v)); [discriminate |].
      rewrite andb_false_r. reflexivity.
  - unfold insert_vote.
    destruct (auth_uid_is uid user_id) eqn:Hauth; cbn [negb]; [| auto].
    destruct (existsb _ _); [auto |].
    destruct (negb (poll_exists _ _)); [auto |].
    destruct (negb (option_exists _ _)); [auto |].
    cbn. repeat split. unfold votes_of_others. cbn.
    rewrite filter_app. cbn. rewrite Hauth. cbn. apply app_nil_r.
  - cbn. repeat split. unfold votes_of_others. cbn.
    apply filter_filter_kept. intros v Hv.
    destruct (auth_uid_is uid (Votes.user_id v)); [discriminate |].
    rewrite andb_false_r. reflexivity.
Qed.

(** X2. An INSERT, UPDATE or DELETE that a client issues on the votes table
    touches no vote row of another user, and no poll or option: the policies
    of the votes table admit the caller's own rows only. *)
Theorem votes_statements_spare_other_users :
  forall (uid : option uuid) (r : Request) (s : Store),
    on_votes r = true ->
    votes_of_others uid (db (snd (exec uid r s))) = votes_of_others uid (db s)
    /\ polls (db (snd (exec uid r s))) = polls (db s)
    /\ poll_options (db (snd (exec uid r s))) = poll_options (db s).
Proof. exact exec_on_votes_frame. Qed.

Lemma votes_statements_spare_other_users_witness :
  let s := {| db := {| polls := polls (db lunch_store);
                       poll_options := poll_options (db lunch_store);
                       votes := [{| Votes.id := 3%N; Votes.poll_id := 0%N;
                                    Votes.option_id := 1%N; Votes.user_id := 7%N;
                                    Votes.created_at := 2%N |}] |};
              next_uuid := 4%N; clock := 3%N |} in
  on_votes (votes_delete 0%N) = true
  /\ votes_of_others (Some 8%N) (db (snd (exec (Some 8%N) (votes_delete 0%N) s)))
     = votes_of_others (Some 8%N) (db s)
  /\ polls (db (snd (exec (Some 8%N) (votes_delete 0%N) s))) = polls (db s)
  /\ poll_options (db (snd (exec (Some 8%N) (votes_delete 0%N) s)))
     = poll_options (db s).
Proof.
  intros s. split; [reflexivity |].
  apply (votes_statements_spare_other_users (Some 8%N) (votes_delete 0%N) s).
  reflexivity.
Defined.

(** What manages a poll does nothing in the hands of someone else. *)
Lemma not_owner_no_poll_row (d : Database) (uid : option uuid) (p : uuid)
  (r : Polls.row) :
  owns_poll d uid p = false -> In r (polls d) ->
  N.eqb (Polls.id r) p && auth_uid_is uid (Polls.user_id r) = false.
Proof.
  intros Hown Hin. unfold owns_poll in Hown.
  destruct (N.eqb (Polls.id r) p && auth_uid_is uid (Polls.user_id r)) eqn:H;
    [| reflexivity].
  assert (existsb (fun r => N.eqb (Polls.id r) p && auth_uid_is uid (Polls.user_id r))
                  (polls d) = true) by (apply existsb_exists; exists r; auto).
  congruence.
Qed.

Lemma delete_polls_not_owner (uid : option uuid) (p u : uuid) (s : Store) :
  owns_poll (db s) uid p = false ->
  snd (delete_polls uid p u s) = s.
Proof.
  intros Hown.
  assert (Hgone : forall r, In r (polls (db s)) ->
            N.eqb (Polls.id r) p && N.eqb (Polls.user_id r) u
            && auth_uid_is uid (Polls.user_id r) = false).
  { intros r Hin.
    pose proof (not_owner_no_poll_row _ uid p r Hown Hin) as H.
    destruct (N.eqb (Polls.id r) p); cbn [andb] in *; [| reflexivity].
    rewrite H. apply andb_false_r. }
  unfold delete_polls. cbn [snd].
  rewrite (filter_none _ (polls (db s)) Hgone). cbn [map mem_uuid existsb negb andb].
  rewrite (filter_none (fun _ => false) (poll_options (db s))) by reflexivity.
  cbn [map existsb negb].
  rewrite (filter_all _ (polls (db s)))
    by (intros r Hin; rewrite (Hgone r Hin); reflexivity).
  rewrite !filter_all by reflexivity.
  destruct s as [[ps os vs] nx ck]. reflexivity.
Qed.

Lemma delete_poll_options_not_owner (uid : option uuid) (p : uuid) (s : Store) :
  owns_poll (db s) uid p = false ->
  snd (delete_poll_options uid p s) = s.
Proof.
  intros Hown.
  assert (Hgone : forall o, In o (poll_options (db s)) ->
            N.eqb (PollOptions.poll_id o) p
            && owns_poll (db s) uid (PollOptions.poll_id o) = false).
  { intros o _. destruct (N.eqb_spec (PollOptions.poll_id o) p) as [-> |];
      [rewrite Hown |]; reflexivity. }
  unfold delete_poll_options. cbn [snd].
  rewrite (filter_none _ (poll_options (db s)) Hgone).
  cbn [map mem_uuid existsb negb].
  rewrite (filter_all _ (poll_options (db s)))
    by (intros o Hin; rewrite (Hgone o Hin); reflexivity).
  rewrite filter_all by reflexivity.
  destruct s as [[ps os vs] nx ck]. reflexivity.
Qed.

Lemma exec_by_stranger_frame :
  forall (uid : option uuid) (p : uuid) (r : Request) (s : Store),
    owns_poll (db s) uid p = false ->
    manages_poll p r = true ->
    db (snd (exec uid r s)) = db s.
Proof.
  intros uid p r s Hown Hr. destruct r; try discriminate; cbn [exec manages_poll] in *.
  - unfold insert_poll_options.
    destruct (first_text_error _); [reflexivity |].
    destruct rows as [| row rows].
    + cbn. destruct (db s). cbn. rewrite app_nil_r. reflexivity.
    + cbn [forallb] in *. apply andb_prop in Hr. destruct Hr as [Hrow _].
      apply N.eqb_eq in Hrow. subst p. rewrite Hown. reflexivity.
  - apply N.eqb_eq in Hr. subst poll_id.
    rewrite delete_poll_options_not_owner by exact Hown. reflexivity.
  - apply N.eqb_eq in Hr. subst id.
    rewrite delete_polls_not_owner by exact Hown. reflexivity.
Qed.

(** X3. Only its owner manages a poll: the deletion of a poll, the deletion of
    its options and the insertion of options for it leave the tables as they
    are when the caller does not own the poll. *)
Theorem only_the_owner_manages_a_poll :
  forall (uid : option uuid) (p : uuid) (r : Request) (s : Store),
    owns_poll (db s) uid p = false ->
    manages_poll p r = true ->
    db (snd (exec uid r s)) = db s.
Proof. exact exec_by_stranger_frame. Qed.

Lemma only_the_owner_manages_a_poll_witness :
  owns_poll (db lunch_store) (Some 8%N) 0%N = false
  /\ manages_poll 0%N (polls_delete 0%N 7%N) = true
  /\ db (snd (exec (Some 8%N) (polls_delete 0%N 7%N) lunch_store)) = db lunch_store.
Proof.
  split; [reflexivity |]. split; [reflexivity |].
  apply (only_the_owner_manages_a_poll (Some 8%N) 0%N (polls_delete 0%N 7%N) lunch_store);
    reflexivity.
Defined.

(* ================================================================== *)
(** * Casting a vote: every outcome *)

(** X4. Whatever the store holds and whatever the network does, a vote that
    passes the guard issues exactly two requests: the lookup, then the update
    of the row the lookup returned or, when it returned none (an error of the
    lookup is not looked at), the insert of a row for the clicked option. The
    promise is fulfilled, the [isVoting] flag is down again at the end, and
    exactly one notice is shown, decided by the answer to the second request:
    without an error the success notice, with the clicked option recorded as
    the user's vote; with an error the error notice carrying its message, with
    the recorded vote left as it was. Nothing else reaches the backend. *)
Theorem handleVote_settles_with_one_notice :
  forall (u : User.t) (poll : Poll.t) (optionId : uuid)
         (c : Client PollCard.State) (b : Backend),
    let lookup :=
      perform (auth_uid c) (votes_select_id (Poll.id poll) (User.id u)) b in
    let second : Request :=
      match data (fst lookup) with
      | Some existingVote => votes_update_option existingVote optionId
      | None => votes_insert (Poll.id poll) optionId (User.id u)
      end in
    let answer := perform (auth_uid c) second (snd lookup) in
    exists c' : Client PollCard.State,
      run (PollCard.handleVote (Some u) false poll optionId) c b
      = (Fulfilled tt, c', snd answer)
      /\ requests (snd answer)
         = requests b ++ [votes_select_id (Poll.id poll) (User.id u); second]
      /\ PollCard.isVoting (state c') = false
      /\ PollCard.isDeleting (state c') = PollCard.isDeleting (state c)
      /\ callbacks c' = callbacks c
      /\ navigations c' = navigations c
      /\ match error (fst answer) with
         | None =>
             PollCard.userVote (state c') = Some optionId
             /\ toasts c' = toasts c ++ [PollCard.vote_recorded]
         | Some e =>
             PollCard.userVote (state c') = PollCard.userVote (state c)
             /\ toasts c' = toasts c ++ [PollCard.error_voting e]
         end.
Proof.
  intros u poll optionId c b lookup second answer.
  subst answer second lookup.
  unfold PollCard.handleVote. prog_head. rewrite run_Do, run_Await.
  unfold auth_uid; cbn [session apply_effect].
  pose proof (perform_requests (option_map User.id (session c))
                (votes_select_id (Poll.id poll) (User.id u)) b) as Hreq1.
  destruct (perform (option_map User.id (session c))
              (votes_select_id (Poll.id poll) (User.id u)) b) as [existing b1].
  cbn [fst snd] in *.
  destruct (data existing) as [existingVote |]; prog_head; rewrite run_Await;
    unfold auth_uid; cbn [session apply_effect].
  - pose proof (perform_requests (option_map User.id (session c))
                  (votes_update_option existingVote optionId) b1) as Hreq2.
    destruct (perform (option_map User.id (session c))
                (votes_update_option existingVote optionId) b1) as [r b2].
    cbn [fst snd] in *.
    destruct (error r) as [e |]; prog_head; cbn [run apply_effect];
      eexists; (split; [reflexivity |]);
      rewrite Hreq2, Hreq1, <- app_assoc;
      cbn [state toasts callbacks navigations PollCard.isVoting PollCard.isDeleting
           PollCard.userVote PollCard.setIsVoting PollCard.setUserVote app];
      repeat split.
  - pose proof (perform_requests (option_map User.id (session c))
                  (votes_insert (Poll.id poll) optionId (User.id u)) b1) as Hreq2.
    destruct (perform (option_map User.id (session c))
                (votes_insert (Poll.id poll) optionId (User.id u)) b1) as [r b2].
    cbn [fst snd] in *.
    destruct (error r) as [e |]; prog_head; cbn [run apply_effect];
      eexists; (split; [reflexivity |]);
      rewrite Hreq2, Hreq1, <- app_assoc;
      cbn [state toasts callbacks navigations PollCard.isVoting PollCard.isDeleting
           PollCard.userVote PollCard.setIsVoting PollCard.setUserVote app];
      repeat split.
Qed.

(* ================================================================== *)
(** * Sequences of votes *)

Lemma last_cons {A} (l : list A) (a d : A) : last (a :: l) d = last l a.
Proof.
  revert a d. induction l as [| b l IH]; intros a d; [reflexivity |].
  change (last (a :: b :: l) d) with (last (b :: l) d).
  rewrite (IH b d), (IH b a). reflexivity.
Qed.

Lemma click_in_turn_last_wins_aux :
  forall (u : User.t) (poll : Poll.t) (rest : list uuid) (optionId : uuid)
         (c : Client PollCard.State) (b : Backend),
    session c = Some u ->
    PollCard.isVoting (state c) = false ->
    faults b = [] ->
    votes_unique (db (store b)) ->
    poll_exists (db (store b)) (Poll.id poll) = true ->
    Forall (fun o => option_exists (db (store b)) o = true) (optionId :: rest) ->
    exists v : Votes.row,
      votes_of (db (store (snd (click_in_turn
                                  (map (fun o => (poll, o)) (optionId :: rest)) c b))))
               (Poll.id poll) (User.id u) = [v]
      /\ Votes.option_id v = last rest optionId
      /\ PollCard.userVote
           (state (fst (click_in_turn
                          (map (fun o => (poll, o)) (optionId :: rest)) c b)))
         = Some (last rest optionId).
Proof.
  intros u poll rest. induction rest as [| o' rest IH];
    intros optionId c b Hs Hv Hf Hu Hp Ho;
    inversion Ho as [| ? ? Ho1 Ho']; subst;
    destruct (handleVote_casts u poll optionId c b Hs Hf Hu Hp Ho1)
      as (b1 & Hrun & Hf1 & Hpolls & Hopts & _ & v & Hv1 & Hopt & _);
    cbn [map click_in_turn]; unfold PollCard.onClick; rewrite Hs, Hv, Hrun.
  - cbn [click_in_turn snd fst last]. exists v. repeat split; assumption.
  - assert (Hu1 : votes_unique (db (store b1))).
    { pose proof (run_votes_unique
                    (PollCard.handleVote (Some u) false poll optionId) c b Hu) as H.
      rewrite Hrun in H. exact H. }
    assert (Hp1 : poll_exists (db (store b1)) (Poll.id poll) = true)
      by (unfold poll_exists; rewrite Hpolls; exact Hp).
    assert (Ho1' : Forall (fun o => option_exists (db (store b1)) o = true)
                          (o' :: rest)).
    { eapply Forall_impl; [| exact Ho']. intros o H.
      unfold option_exists in *. rewrite Hopts. exact H. }
    destruct (IH o' (after_vote optionId c) b1 Hs eq_refl Hf1 Hu1 Hp1 Ho1')
      as (v' & Hv' & Hopt' & Huv).
    exists v'. rewrite last_cons.
    repeat split; assumption.
Qed.

(** X5. The last click wins: after any non-empty sequence of votes cast in turn
    by one user on one poll (a session, no fault, the poll and the options
    exist), the pair has exactly one vote row, it references the option
    clicked last, and that option is the card's recorded vote. *)
Theorem last_click_wins :
  forall (u : User.t) (poll : Poll.t) (options : list uuid)
         (c : Client PollCard.State) (b : Backend),
    options <> [] ->
    session c = Some u ->
    PollCard.isVoting (state c) = false ->
    faults b = [] ->
    votes_unique (db (store b)) ->
    poll_exists (db (store b)) (Poll.id poll) = true ->
    Forall (fun o => option_exists (db (store b)) o = true) options ->
    exists v : Votes.row,
      votes_of (db (store (snd (click_in_turn (map (fun o => (poll, o)) options) c b))))
               (Poll.id poll) (User.id u) = [v]
      /\ Some (Votes.option_id v) = nth_error options (length options - 1)
      /\ PollCard.userVote
           (state (fst (click_in_turn (map (fun o => (poll, o)) options) c b)))
         = Some (Votes.option_id v).
Proof.
  intros u poll options c b Hne Hs Hv Hf Hu Hp Ho.
  destruct options as [| o rest]; [contradiction |].
  destruct (click_in_turn_last_wins_aux u poll rest o c b Hs Hv Hf Hu Hp Ho)
    as (v & Hv1 & Hopt & Huv).
  exists v. split; [exact Hv1 |]. split; [| rewrite Huv, Hopt; reflexivity].
  rewrite Hopt. clear.
  replace (length (o :: rest) - 1) with (length rest) by (cbn [length]; lia).
  revert o. induction rest as [| o' rest IH]; intros o; [reflexivity |].
  rewrite last_cons. cbn [length nth_error]. apply IH.
Qed.

Lemma last_click_wins_witness :
  exists v : Votes.row,
    votes_of (db (store (snd (click_in_turn
                                (map (fun o => (lunch_poll, o)) [1%N; 2%N; 1%N; 2%N])
                                (new_client idle_card (Some {| User.id := 7%N |}))
                                (online lunch_store)))))
             (Poll.id lunch_poll) (User.id {| User.id := 7%N |}) = [v]
    /\ Some (Votes.option_id v) = nth_error [1%N; 2%N; 1%N; 2%N] (4 - 1)
    /\ PollCard.userVote
         (state (fst (click_in_turn
                        (map (fun o => (lunch_poll, o)) [1%N; 2%N; 1%N; 2%N])
                        (new_client idle_card (Some {| User.id := 7%N |}))
                        (online lunch_store))))
       = Some (Votes.option_id v).
Proof.
  apply (last_click_wins {| User.id := 7%N |} lunch_poll [1%N; 2%N; 1%N; 2%N]
           (new_client idle_card (Some {| User.id := 7%N |})) (online lunch_store)).
  - discriminate.
  - reflexivity.
  - reflexivity.
  - reflexivity.
  - intros p u. cbn. lia.
  - reflexivity.
  - repeat constructor.
Defined.

Lemma NoDup_map_injective {A B} (f : A -> B) (l : list A) (x y : A) :
  NoDup (map f l) -> In x l -> In y l -> f x = f y -> x = y.
Proof.
  induction l as [| z l IH]; cbn; intros Hnd Hx Hy Hf; [contradiction |].
  inversion Hnd as [| ? ? Hnin Hnd']; subst.
  destruct Hx as [-> | Hx], Hy as [-> | Hy].
  - reflexivity.
  - exfalso. apply Hnin. rewrite Hf. apply in_map, Hy.
  - exfalso. apply Hnin. rewrite <- Hf. apply in_map, Hx.
  - apply IH; assumption.
Qed.

Lemma set_option_id_same (v : Votes.row) :
  set_option_id (Votes.option_id v) v = v.
Proof. destruct v. reflexivity. Qed.

(** X6. Voting again for the option already chosen changes nothing in the
    tables: the row is rewritten with the value it has. The two requests are
    issued and the success notice is shown all the same. *)
Theorem revote_for_same_option_changes_nothing :
  forall (u : User.t) (poll : Poll.t) (w : Votes.row)
         (c : Client PollCard.State) (b : Backend),
    session c = Some u ->
    faults b = [] ->
    NoDup (map Votes.id (votes (db (store b)))) ->
    option_exists (db (store b)) (Votes.option_id w) = true ->
    votes_of (db (store b)) (Poll.id poll) (User.id u) = [w] ->
    exists b' : Backend,
      run (PollCard.handleVote (Some u) false poll (Votes.option_id w)) c b
      = (Fulfilled tt, after_vote (Votes.option_id w) c, b')
      /\ db (store b') = db (store b)
      /\ requests b'
         = requests b ++ [votes_select_id (Poll.id poll) (User.id u);
                          votes_update_option (Votes.id w) (Votes.option_id w)].
Proof.
  intros u poll w c b Hs Hf Hnd Ho Hw.
  eexists. split; [apply handleVote_updates_existing; eassumption |].
  split; [| reflexivity].
  cbn [store db tick set_db].
  assert (Hin : In w (votes (db (store b)))).
  { assert (H : In w (votes_of (db (store b)) (Poll.id poll) (User.id u)))
      by (rewrite Hw; left; reflexivity).
    unfold votes_of in H. apply filter_In in H. tauto. }
  replace (map _ (votes (db (store b)))) with (votes (db (store b))).
  - destruct (db (store b)). reflexivity.
  - symmetry. rewrite <- (map_id (votes (db (store b)))) at 2.
    apply map_ext_in. intros v Hv. unfold update_hits.
    destruct (N.eqb_spec (Votes.id v) (Votes.id w)) as [Hid |]; [| reflexivity].
    destruct (auth_uid_is _ _); [| reflexivity]. cbn [andb].
    rewrite (NoDup_map_injective Votes.id _ v w Hnd Hv Hin Hid).
    apply set_option_id_same.
Qed.

Lemma revote_for_same_option_changes_nothing_witness :
  let s := {| db := {| polls := polls (db lunch_store);
                       poll_options := poll_options (db lunch_store);
                       votes := [{| Votes.id := 3%N; Votes.poll_id := 0%N;
                                    Votes.option_id := 1%N; Votes.user_id := 7%N;
                                    Votes.created_at := 2%N |}] |};
              next_uuid := 4%N; clock := 3%N |} in
  let c := new_client idle_card (Some {| User.id := 7%N |}) in
  exists b' : Backend,
    run (PollCard.handleVote (Some {| User.id := 7%N |}) false lunch_poll 1%N) c (online s)
    = (Fulfilled tt, after_vote 1%N c, b')
    /\ db (store b') = db s
    /\ requests b' = [] ++ [votes_select_id 0%N 7%N; votes_update_option 3%N 1%N].
Proof.
  intros s c.
  apply (revote_for_same_option_changes_nothing {| User.id := 7%N |} lunch_poll
           {| Votes.id := 3%N; Votes.poll_id := 0%N; Votes.option_id := 1%N;
              Votes.user_id := 7%N; Votes.created_at := 2%N |} c (online s)).
  - reflexivity.
  - reflexivity.
  - repeat constructor. intros [].
  - reflexivity.
  - reflexivity.
Defined.

(* ================================================================== *)
(** * Deleting a poll: what goes and what stays *)

Lemma filter_filter_andb {A} (f g : A -> bool) (l : list A) :
  filter f (filter g l) = filter (fun x => f x && g x) l.
Proof.
  induction l as [| x l IH]; cbn; [reflexivity |].
  destruct (g x); cbn; rewrite ?andb_true_r, ?andb_false_r.
  - destruct (f x); rewrite IH; reflexivity.
  - exact IH.
Qed.

Lemma owned_by_owns (d : Database) (p u : uuid) :
  owned_by d p u -> owns_poll d (Some u) p = true.
Proof.
  intros [Hex Hall]. unfold poll_exists in Hex. apply existsb_exists in Hex.
  destruct Hex as (r & Hin & Hid). unfold owns_poll. apply existsb_exists.
  exists r. split; [exact Hin |]. rewrite Hid. cbn.
  apply N.eqb_eq in Hid. rewrite (Hall r Hin Hid). apply N.eqb_refl.
Qed.

(** The poll rows a DELETE of [p] by its owner removes: those of [p]. *)
Lemma owner_deletes_rows_of_poll (d : Database) (p u : uuid) (r : Polls.row) :
  owned_by d p u -> In r (polls d) ->
  N.eqb (Polls.id r) p && N.eqb (Polls.user_id r) u
  && auth_uid_is (Some u) (Polls.user_id r)
  = N.eqb (Polls.id r) p.
Proof.
  intros [_ Hall] Hin. destruct (N.eqb_spec (Polls.id r) p) as [Hid |]; [| reflexivity].
  rewrite (Hall r Hin Hid). cbn. rewrite N.eqb_refl. reflexivity.
Qed.

Lemma mem_deleted_polls (d : Database) (p u q : uuid) :
  owned_by d p u ->
  mem_uuid q (map Polls.id
                (filter (fun r => N.eqb (Polls.id r) p && N.eqb (Polls.user_id r) u
                                  && auth_uid_is (Some u) (Polls.user_id r))
                        (polls d)))
  = N.eqb q p.
Proof.
  intros Hown.
  rewrite (filter_ext_in _ (fun r => N.eqb (Polls.id r) p))
    by (intros r Hin; apply (owner_deletes_rows_of_poll d p u r Hown Hin)).
  destruct Hown as [Hex _]. unfold poll_exists in Hex.
  apply existsb_exists in Hex. destruct Hex as (r & Hin & Hid).
  destruct (N.eqb_spec q p) as [-> | Hne].
  - unfold mem_uuid. apply existsb_exists. exists (Polls.id r).
    split; [| rewrite N.eqb_sym; exact Hid].
    apply in_map, filter_In. auto.
  - unfold mem_uuid.
    destruct (existsb (N.eqb q) _) eqn:H; [| reflexivity].
    apply existsb_exists in H. destruct H as (i & Hi & Hq).
    apply in_map_iff in Hi. destruct Hi as (r' & <- & Hr').
    apply filter_In in Hr'. destruct Hr' as [_ Hr'].
    apply N.eqb_eq in Hq, Hr'. congruence.
Qed.

(** One DELETE of the poll row by the owner: the cascades do the rest. *)
Lemma delete_polls_by_owner (p u : uuid) (s : Store) :
  owned_by (db s) p u ->
  db (snd (delete_polls (Some u) p u s)) = without_poll p (db s).
Proof.
  intros Hown. unfold delete_polls, without_poll. cbn [snd db set_db].
  f_equal.
  - apply filter_ext_in. intros r Hin.
    rewrite (owner_deletes_rows_of_poll (db s) p u r Hown Hin). reflexivity.
  - apply filter_ext. intros o. rewrite (mem_deleted_polls (db s) p u _ Hown).
    reflexivity.
  - apply filter_ext. intros v.
    rewrite (mem_deleted_polls (db s) p u _ Hown). f_equal. f_equal. f_equal. f_equal.
    unfold options_of. apply filter_ext. intros o.
    apply (mem_deleted_polls (db s) p u _ Hown).
Qed.

Lemma delete_poll_options_by_owner (p u : uuid) (s : Store) :
  owns_poll (db s) (Some u) p = true ->
  db (snd (delete_poll_options (Some u) p s))
  = {| polls := polls (db s);
       poll_options :=
         filter (fun o => negb (N.eqb (PollOptions.poll_id o) p)) (poll_options (db s));
       votes :=
         filter (fun v => negb (mem_uuid (Votes.option_id v)
                                         (map PollOptions.id (options_of (db s) p))))
                (votes (db s)) |}.
Proof.
  intros Howns.
  assert (Hgone : forall o,
            N.eqb (PollOptions.poll_id o) p
            && owns_poll (db s) (Some u) (PollOptions.poll_id o)
            = N.eqb (PollOptions.poll_id o) p).
  { intros o. destruct (N.eqb_spec (PollOptions.poll_id o) p) as [-> |];
      [| reflexivity].
    cbn [andb]. exact Howns. }
  unfold delete_poll_options, options_of. cbn [snd db set_db].
  rewrite (filter_ext _ _ Hgone (poll_options (db s))).
  f_equal. apply filter_ext. intros o. rewrite Hgone. reflexivity.
Qed.

Lemma owned_by_same_polls (d d' : Database) (p u : uuid) :
  polls d' = polls d -> owned_by d p u -> owned_by d' p u.
Proof.
  intros Heq [Hex Hall]. unfold owned_by, poll_exists in *. rewrite Heq. auto.
Qed.

(** The three statements of the handler, in its order, by the owner. *)
Lemma three_deletes_by_owner (p u : uuid) (s : Store) :
  owned_by (db s) p u ->
  db (snd (delete_polls (Some u) p u
             (tick (snd (delete_poll_options (Some u) p
                           (tick (snd (delete_votes (Some u) p s))))))))
  = without_poll p (db s).
Proof.
  intros Hown.
  set (s1 := tick (snd (delete_votes (Some u) p s))).
  set (s2 := tick (snd (delete_poll_options (Some u) p s1))).
  assert (Hown1 : owned_by (db s1) p u)
    by (apply (owned_by_same_polls (db s)); [reflexivity | exact Hown]).
  assert (Hdb2 : db s2 = db (snd (delete_poll_options (Some u) p s1)))
    by reflexivity.
  rewrite (delete_poll_options_by_owner p u s1 (owned_by_owns _ _ _ Hown1)) in Hdb2.
  assert (Hown2 : owned_by (db s2) p u)
    by (apply (owned_by_same_polls (db s)); [rewrite Hdb2; reflexivity | exact Hown]).
  rewrite (delete_polls_by_owner p u s2 Hown2), Hdb2.
  unfold without_poll, options_of. cbn [polls poll_options votes db s1 tick snd
                                         delete_votes set_db set_votes].
  f_equal.
  - rewrite filter_filter_andb. apply filter_ext. intros o.
    destruct (N.eqb (PollOptions.poll_id o) p); reflexivity.
  - rewrite (filter_none _ (filter _ (poll_options (db s)))).
    + cbn [map mem_uuid existsb negb]. rewrite !filter_filter_andb.
      apply filter_ext. intros v.
      destruct (N.eqb (Votes.poll_id v) p); cbn [negb andb]; [reflexivity |].
      rewrite !andb_true_r. reflexivity.
    + intros o Hin. apply filter_In in Hin. destruct Hin as [_ Hin].
      destruct (N.eqb (PollOptions.poll_id o) p); [discriminate | reflexivity].
Qed.

Lemma listing_omits (d : Database) (p : uuid) (x : Poll.t) :
  poll_exists d p = false -> In x (listing d) -> Poll.id x <> p.
Proof.
  intros Hex Hin Hid. apply (in_map Poll.id) in Hin. rewrite listing_ids in Hin.
  apply (Permutation_in _ (Permutation_map Polls.id
                             (order_by_created_at_desc_perm (polls d)))) in Hin.
  apply in_map_iff in Hin. destruct Hin as (r & Hr & Hin).
  assert (poll_exists d p = true); [| congruence].
  apply existsb_exists. exists r. split; [exact Hin |].
  apply N.eqb_eq. congruence.
Qed.

Lemma without_poll_gone (p : uuid) (d : Database) :
  poll_exists (without_poll p d) p = false
  /\ options_of (without_poll p d) p = [].
Proof.
  split.
  - unfold poll_exists. cbn. apply filter_nil_existsb.
    rewrite filter_filter_andb. apply filter_none. intros r _.
    destruct (N.eqb (Polls.id r) p); reflexivity.
  - unfold options_of. cbn. rewrite filter_filter_andb. apply filter_none.
    intros o _. destruct (N.eqb (PollOptions.poll_id o) p); reflexivity.
Qed.

(** X10. The owner deletes a poll, no fault on the way: the tables are left
    without the poll, its options, the votes on it and the votes on its
    options, and with every other row; this is what the DELETE of the poll row
    alone would leave, the cascades making the first two statements redundant.
    A listing made afterwards does not show the poll. *)
Theorem handleDeletePoll_by_owner_removes_the_poll :
  forall (u : User.t) (poll : Poll.t) (c : Client PollCard.State) (b : Backend),
    session c = Some u ->
    faults b = [] ->
    owned_by (db (store b)) (Poll.id poll) (User.id u) ->
    exists b' : Backend,
      run (PollCard.handleDeletePoll (Some u) true false poll) c b
      = (Fulfilled tt, after_delete c, b')
      /\ db (store b') = without_poll (Poll.id poll) (db (store b))
      /\ db (store b')
         = db (snd (exec (Some (User.id u))
                         (polls_delete (Poll.id poll) (User.id u)) (store b)))
      /\ poll_exists (db (store b')) (Poll.id poll) = false
      /\ options_of (db (store b')) (Poll.id poll) = []
      /\ (forall x, In x (listing (db (store b'))) -> Poll.id x <> Poll.id poll).
Proof.
  intros u poll c b Hs Hf Hown.
  assert (H1 : hd None (faults b) = None) by (rewrite Hf; reflexivity).
  assert (H2 : hd None (tl (faults b)) = None) by (rewrite Hf; reflexivity).
  assert (H3 : hd None (tl (tl (faults b))) = None) by (rewrite Hf; reflexivity).
  unfold PollCard.handleDeletePoll.
  await_ok H1. cbn [exec delete_votes fst snd error ok].
  await_ok H2. cbn [exec delete_poll_options fst snd error ok].
  await_ok H3. cbn [exec delete_polls fst snd error ok].
  prog_head. cbn [run apply_effect].
  unfold auth_uid. cbn [session]. rewrite Hs. cbn [option_map].
  eexists. split.
  { unfold after_delete. rewrite Hs. reflexivity. }
  cbn [store].
  change (db (tick ?s)) with (db s).
  pose proof (three_deletes_by_owner (Poll.id poll) (User.id u) (store b) Hown) as H.
  unfold delete_polls, delete_poll_options, delete_votes in H. cbn [snd] in H.
  unfold set_db at 1. cbn [db].
  unfold set_db at 1 in H. cbn [snd db] in H.
  assert (Hdb : forall X, X = without_poll (Poll.id poll) (db (store b)) ->
            X = without_poll (Poll.id poll) (db (store b))
            /\ X = db (snd (exec (Some (User.id u))
                             (polls_delete (Poll.id poll) (User.id u)) (store b)))
            /\ poll_exists X (Poll.id poll) = false
            /\ options_of X (Poll.id poll) = []
            /\ (forall x, In x (listing X) -> Poll.id x <> Poll.id poll)).
  { intros X ->. destruct (without_poll_gone (Poll.id poll) (db (store b))) as [G1 G2].
    repeat split; try assumption.
    - symmetry. apply (delete_polls_by_owner _ _ _ Hown).
    - intros x. apply listing_omits, G1. }
  apply Hdb. exact H.
Qed.

Lemma handleDeletePoll_by_owner_removes_the_poll_witness :
  exists b' : Backend,
    run (PollCard.handleDeletePoll (Some {| User.id := 7%N |}) true false lunch_poll)
        (new_client idle_card (Some {| User.id := 7%N |})) (online lunch_store)
    = (Fulfilled tt,
       after_delete (new_client idle_card (Some {| User.id := 7%N |})), b')
    /\ db (store b') = without_poll 0%N (db lunch_store)
    /\ db (store b')
       = db (snd (exec (Some 7%N) (polls_delete 0%N 7%N) lunch_store))
    /\ poll_exists (db (store b')) 0%N = false
    /\ options_of (db (store b')) 0%N = []
    /\ (forall x, In x (listing (db (store b'))) -> Poll.id x <> 0%N).
Proof.
  apply (handleDeletePoll_by_owner_removes_the_poll {| User.id := 7%N |} lunch_poll
           (new_client idle_card (Some {| User.id := 7%N |})) (online lunch_store)).
  - reflexivity.
  - reflexivity.
  - split; [reflexivity |].
    intros r [<- | []] _. reflexivity.
Defined.

(** X11. No rollback in a deletion either: when the votes have been deleted and
    the deletion of the options then fails, nothing more is issued. The
    caller's votes on the poll are gone, the poll and its options are still
    there, and the card shows the error notice only. *)
Theorem handleDeletePoll_no_rollback :
  forall (u : User.t) (poll : Poll.t) (c : Client PollCard.State) (b : Backend)
         (e : Error) (later : list (option Error)),
    session c = Some u ->
    faults b = None :: Some e :: later ->
    exists (c' : Client PollCard.State) (b' : Backend),
      run (PollCard.handleDeletePoll (Some u) true false poll) c b
      = (Fulfilled tt, c', b')
      /\ requests b'
         = requests b ++ [votes_delete (Poll.id poll); poll_options_delete (Poll.id poll)]
      /\ polls (db (store b')) = polls (db (store b))
      /\ poll_options (db (store b')) = poll_options (db (store b))
      /\ votes (db (store b'))
         = filter (fun v => negb (vote_of (Poll.id poll) (User.id u) v))
                  (votes (db (store b)))
      /\ toasts c' = toasts c ++ [PollCard.error_deleting e]
      /\ callbacks c' = callbacks c
      /\ PollCard.isDeleting (state c') = false.
Proof.
  intros u poll c b e later Hs Hf.
  assert (H1 : hd None (faults b) = None) by (rewrite Hf; reflexivity).
  assert (H2 : hd None (tl (faults b)) = Some e) by (rewrite Hf; reflexivity).
  unfold PollCard.handleDeletePoll.
  await_ok H1. cbn [exec delete_votes fst snd error ok].
  await_fault H2. cbn [error fail]. prog_head. cbn [run apply_effect].
  unfold auth_uid. cbn [session]. rewrite Hs. cbn [option_map].
  do 2 eexists. split; [reflexivity |].
  cbn [requests store db tick set_db set_votes polls poll_options votes toasts
       callbacks state PollCard.isDeleting PollCard.setIsDeleting].
  rewrite <- app_assoc. repeat split.
  apply filter_ext. intros v. unfold vote_of. cbn [auth_uid_is].
  rewrite (N.eqb_sym (User.id u)). reflexivity.
Qed.

Lemma handleDeletePoll_no_rollback_witness :
  let s := {| db := {| polls := polls (db lunch_store);
                       poll_options := poll_options (db lunch_store);
                       votes := [{| Votes.id := 3%N; Votes.poll_id := 0%N;
                                    Votes.option_id := 1%N; Votes.user_id := 7%N;
                                    Votes.created_at := 2%N |}] |};
              next_uuid := 4%N; clock := 3%N |} in
  let c := new_client idle_card (Some {| User.id := 7%N |}) in
  let b := {| store := s; faults := [None; Some (pg_error "Failed to fetch")];
              requests := [] |} in
  exists (c' : Client PollCard.State) (b' : Backend),
    run (PollCard.handleDeletePoll (Some {| User.id := 7%N |}) true false lunch_poll) c b
    = (Fulfilled tt, c', b')
    /\ requests b' = [] ++ [votes_delete 0%N; poll_options_delete 0%N]
    /\ polls (db (store b')) = polls (db s)
    /\ poll_options (db (store b')) = poll_options (db s)
    /\ votes (db (store b')) = filter (fun v => negb (vote_of 0%N 7%N v)) (votes (db s))
    /\ toasts c' = [] ++ [PollCard.error_deleting (pg_error "Failed to fetch")]
    /\ callbacks c' = []
    /\ PollCard.isDeleting (state c') = false.
Proof.
  intros s c b.
  apply (handleDeletePoll_no_rollback {| User.id := 7%N |} lunch_poll c b
           (pg_error "Failed to fetch") []); reflexivity.
Defined.

(** A statement that the delete handler can issue, in the hands of a caller
    who does not own the poll. *)
Lemma perform_by_stranger (uid : option uuid) (p : uuid) (r : Request) (b : Backend) :
  owns_poll (db (store b)) uid p = false ->
  on_votes r || manages_poll p r = true ->
  polls (db (store (snd (perform uid r b)))) = polls (db (store b))
  /\ poll_options (db (store (snd (perform uid r b)))) = poll_options (db (store b))
  /\ votes_of_others uid (db (store (snd (perform uid r b))))
     = votes_of_others uid (db (store b)).
Proof.
  intros Hown Hr. unfold perform. destruct (hd None (faults b)); cbn [snd store].
  - auto.
  - destruct (exec uid r (store b)) as [res s'] eqn:He.
    assert (Hs' : s' = snd (exec uid r (store b))) by (rewrite He; reflexivity).
    cbn [snd store]. change (db (tick s')) with (db s'). subst s'.
    apply orb_prop in Hr. destruct Hr as [Hr | Hr].
    + destruct (exec_on_votes_frame uid r (store b) Hr) as (Hv & Hp & Ho). auto.
    + rewrite (exec_by_stranger_frame uid p r (store b) Hown Hr). auto.
Qed.

(** X12. The delete handler in the hands of someone who does not own the poll
    (the [isOwner] prop is not what protects it): whatever the guard lets
    through and whatever the network does, no poll row, no option row and no
    vote row of another user is touched. *)
Theorem handleDeletePoll_spares_what_is_not_the_callers :
  forall (user : option User.t) (isOwner isDeleting : bool) (poll : Poll.t)
         (c : Client PollCard.State) (b : Backend),
    owns_poll (db (store b)) (auth_uid c) (Poll.id poll) = false ->
    let b' := snd (run (PollCard.handleDeletePoll user isOwner isDeleting poll) c b) in
    polls (db (store b')) = polls (db (store b))
    /\ poll_options (db (store b')) = poll_options (db (store b))
    /\ votes_of_others (auth_uid c) (db (store b'))
       = votes_of_others (auth_uid c) (db (store b)).
Proof.
  intros user isOwner isDeleting poll c b Hown.
  destruct user as [u |]; [| cbn; auto].
  destruct isOwner; [| cbn; auto]. destruct isDeleting; [cbn; auto |].
  cbv zeta. unfold PollCard.handleDeletePoll. prog_head. rewrite run_Do, run_Await.
  set (c1 := apply_effect (set_state (PollCard.setIsDeleting true)) c).
  change (auth_uid c1) with (auth_uid c).
  destruct (perform_by_stranger (auth_uid c) (Poll.id poll)
              (votes_delete (Poll.id poll)) b Hown eq_refl) as (P1 & O1 & V1).
  destruct (perform (auth_uid c) (votes_delete (Poll.id poll)) b) as [r1 b1].
  cbn [fst snd] in *.
  assert (Hown1 : owns_poll (db (store b1)) (auth_uid c) (Poll.id poll) = false)
    by (unfold owns_poll in *; rewrite P1; exact Hown).
  destruct (error r1); prog_head; [cbn [run snd]; auto |].
  rewrite run_Await. change (auth_uid c1) with (auth_uid c).
  destruct (perform_by_stranger (auth_uid c) (Poll.id poll)
              (poll_options_delete (Poll.id poll)) b1 Hown1)
    as (P2 & O2 & V2); [cbn; rewrite N.eqb_refl; reflexivity |].
  destruct (perform (auth_uid c) (poll_options_delete (Poll.id poll)) b1) as [r2 b2].
  cbn [fst snd] in *.
  assert (Hown2 : owns_poll (db (store b2)) (auth_uid c) (Poll.id poll) = false)
    by (unfold owns_poll in *; rewrite P2; exact Hown1).
  destruct (error r2); prog_head;
    [cbn [run snd]; rewrite P2, O2, V2; auto |].
  rewrite run_Await. change (auth_uid c1) with (auth_uid c).
  destruct (perform_by_stranger (auth_uid c) (Poll.id poll)
              (polls_delete (Poll.id poll) (User.id u)) b2 Hown2)
    as (P3 & O3 & V3); [cbn; rewrite N.eqb_refl; reflexivity |].
  destruct (perform (auth_uid c) (polls_delete (Poll.id poll) (User.id u)) b2)
    as [r3 b3].
  cbn [fst snd] in *.
  destruct (error r3); prog_head; cbn [run snd];
    rewrite P3, O3, V3, P2, O2, V2; auto.
Qed.

Lemma handleDeletePoll_spares_what_is_not_the_callers_witness :
  let c := new_client idle_card (Some {| User.id := 8%N |}) in
  let b := online lunch_store in
  owns_poll (db (store b)) (auth_uid c) (Poll.id lunch_poll) = false
  /\ polls (db (store (snd (run (PollCard.handleDeletePoll
                                    (Some {| User.id := 8%N |}) true false lunch_poll)
                                 c b))))
     = polls (db (store b))
  /\ poll_options (db (store (snd (run (PollCard.handleDeletePoll
                                          (Some {| User.id := 8%N |}) true false
                                          lunch_poll) c b))))
     = poll_options (db (store b))
  /\ votes_of_others (auth_uid c)
       (db (store (snd (run (PollCard.handleDeletePoll
                               (Some {| User.id := 8%N |}) true false lunch_poll)
                            c b))))
     = votes_of_others (auth_uid c) (db (store b)).
Proof.
  intros c b. split; [reflexivity |].
  apply (handleDeletePoll_spares_what_is_not_the_callers
           (Some {| User.id := 8%N |}) true false lunch_poll c b).
  reflexivity.
Defined.

(* ================================================================== *)
(** * The Total Votes card *)

(** Items grouped by the key they reference: when the keys are distinct and
    every reference resolves, the groups partition the items. *)
Lemma sum_over_matching_key {K} (k : K -> uuid) (i : uuid) (a : nat) (keys : list K) :
  NoDup (map k keys) ->
  existsb (fun x => N.eqb (k x) i) keys = true ->
  list_sum (map (fun x => if N.eqb i (k x) then a else 0) keys) = a.
Proof.
  induction keys as [| x keys IH]; intros Hnd Hex; [discriminate |].
  cbn [map] in Hnd. inversion Hnd as [| ? ? Hnin Hnd']; subst.
  cbn [map]. change (list_sum (?y :: ?l)) with (y + list_sum l).
  destruct (N.eqb_spec i (k x)) as [-> | Hne].
  - replace (list_sum _) with 0; [lia |].
    symmetry. clear IH Hex Hnd Hnd'.
    induction keys as [| y keys IH]; [reflexivity |].
    cbn [map]. change (list_sum (?z :: ?l)) with (z + list_sum l).
    destruct (N.eqb_spec (k x) (k y)) as [Heq |].
    + exfalso. apply Hnin. rewrite Heq. left. reflexivity.
    + rewrite IH; [reflexivity |]. intros H. apply Hnin. right. exact H.
  - cbn [existsb] in Hex. rewrite (proj2 (N.eqb_neq (k x) i)) in Hex by congruence.
    cbn [orb] in Hex. rewrite (IH Hnd' Hex). reflexivity.
Qed.

Lemma list_sum_map_add {A} (f g : A -> nat) (l : list A) :
  list_sum (map (fun x => f x + g x) l) = list_sum (map f l) + list_sum (map g l).
Proof.
  induction l as [| x l IH]; [reflexivity |].
  cbn [map]. change (list_sum (?y :: ?l)) with (y + list_sum l).
  rewrite IH.
  change (list_sum (f x :: map f l)) with (f x + list_sum (map f l)).
  change (list_sum (g x :: map g l)) with (g x + list_sum (map g l)). lia.
Qed.

Lemma grouped_sum {K I} (k : K -> uuid) (ref : I -> uuid) (g : I -> nat)
  (keys : list K) (items : list I) :
  NoDup (map k keys) ->
  Forall (fun i => existsb (fun x => N.eqb (k x) (ref i)) keys = true) items ->
  list_sum (map (fun x => list_sum (map g (filter (fun i => N.eqb (ref i) (k x)) items)))
                keys)
  = list_sum (map g items).
Proof.
  intros Hnd Hall. induction Hall as [| i items Hi _ IH].
  - cbn. induction keys as [| x keys IHk]; [reflexivity |].
    cbn [map] in Hnd. inversion Hnd; subst. cbn [map].
    change (list_sum (?y :: ?l)) with (y + list_sum l). rewrite IHk by assumption.
    reflexivity.
  - cbn [map]. change (list_sum (g i :: ?l)) with (g i + list_sum l).
    rewrite <- IH, <- (sum_over_matching_key k (ref i) (g i) keys Hnd Hi) at 1.
    rewrite <- list_sum_map_add. f_equal. apply map_ext. intros x. cbn [filter].
    destruct (N.eqb (ref i) (k x)); reflexivity.
Qed.

Lemma list_sum_perm (l l' : list nat) : Permutation l l' -> list_sum l = list_sum l'.
Proof.
  intros H. induction H as [| x l l' H IH | x y l | l l' l'' H1 IH1 H2 IH2].
  - reflexivity.
  - change (list_sum (x :: l)) with (x + list_sum l).
    change (list_sum (x :: l')) with (x + list_sum l'). lia.
  - change (list_sum (y :: x :: l)) with (y + (x + list_sum l)).
    change (list_sum (x :: y :: l)) with (x + (y + list_sum l)). lia.
  - congruence.
Qed.

Lemma dashboard_totalVotes_is_sum (l : list Poll.t) :
  DashboardView.totalVotes l = list_sum (map PollCard.totalVotes l).
Proof.
  exact (fold_left_sum PollCard.totalVotes l 0).
Qed.

(** The number on the Total Votes card, for the listing of [d]. *)
Lemma listing_totalVotes (d : Database) :
  NoDup (map Polls.id (polls d)) ->
  NoDup (map PollOptions.id (poll_options d)) ->
  references_hold d ->
  DashboardView.totalVotes (listing d) = length (votes d).
Proof.
  intros Np No (Rop & _ & Rvo).
  rewrite dashboard_totalVotes_is_sum. unfold listing. rewrite map_map.
  rewrite (list_sum_perm _ _
             (Permutation_map _ (order_by_created_at_desc_perm (polls d)))).
  rewrite (map_ext _ (fun r => list_sum (map (fun o => length (votes_for_option d
                                   (PollOptions.id o)))
                                 (filter (fun o => N.eqb (PollOptions.poll_id o) (Polls.id r))
                                         (poll_options d))))).
  2:{ intros r. rewrite totalVotes_is_sum. unfold tally_poll.
      cbn [Dashboard.with_options Poll.poll_options fst snd].
      rewrite map_map. reflexivity. }
  rewrite (grouped_sum Polls.id PollOptions.poll_id _ (polls d) (poll_options d) Np Rop).
  unfold votes_for_option.
  rewrite (map_ext _ (fun o => list_sum (map (fun _ => 1)
                                 (filter (fun v => N.eqb (Votes.option_id v) (PollOptions.id o))
                                         (votes d))))).
  2:{ intros o. generalize (filter (fun v => N.eqb (Votes.option_id v) (PollOptions.id o))
                                   (votes d)).
      intros l. induction l as [| v l IH]; [reflexivity |].
      cbn [length map]. change (list_sum (1 :: ?l)) with (1 + list_sum l).
      rewrite <- IH. reflexivity. }
  rewrite (grouped_sum PollOptions.id Votes.option_id (fun _ => 1)
             (poll_options d) (votes d) No Rvo).
  clear. induction (votes d) as [| v l IH]; [reflexivity |].
  cbn [length map]. change (list_sum (1 :: ?l)) with (1 + list_sum l).
  rewrite IH. reflexivity.
Qed.

(** X13. After a listing made without a fault, the Total Votes card shows the
    number of rows of the votes table, in every store whose keys and
    references hold (every store that statements lead to): each vote is
    counted under exactly one option of exactly one poll. *)
Theorem dashboard_total_is_the_number_of_votes :
  forall (c : Client Dashboard.State) (b : Backend),
    faults b = [] ->
    keys_hold (store b) ->
    references_hold (db (store b)) ->
    let c' := snd (fst (run Dashboard.fetchPolls c b)) in
    DashboardView.totalVotes (DashboardView.allPolls (Dashboard.polls (state c')))
    = length (votes (db (store b))).
Proof.
  intros c b Hf (Np & No & _) Hr. cbv zeta.
  rewrite (run_fetchPolls c b Hf). cbn [fst snd apply_effect state Dashboard.polls
                                       Dashboard.setIsLoading Dashboard.setPolls].
  unfold DashboardView.allPolls. apply listing_totalVotes; assumption.
Qed.

Lemma voted_store_keys : keys_hold voted_store.
Proof.
  unfold keys_hold. cbn.
  repeat split; repeat constructor; cbn; try lia; intuition discriminate.
Qed.

Lemma voted_store_references : references_hold (db voted_store).
Proof. repeat split; repeat constructor. Qed.

Lemma dashboard_total_is_the_number_of_votes_witness :
  faults (online voted_store) = []
  /\ DashboardView.totalVotes
       (DashboardView.allPolls
          (Dashboard.polls
             (state (snd (fst (run Dashboard.fetchPolls
                                   (new_client idle_dashboard (Some {| User.id := 7%N |}))
                                   (online voted_store)))))))
     = length (votes (db (store (online voted_store)))).
Proof.
  split; [reflexivity |].
  apply (dashboard_total_is_the_number_of_votes
           (new_client idle_dashboard (Some {| User.id := 7%N |})) (online voted_store)).
  - reflexivity.
  - exact voted_store_keys.
  - exact voted_store_references.
Defined.

(* ================================================================== *)
(** * Creating a poll and finding it in the listing *)












(* ================================================================== *)
(** * A listing that fails *)

(** X18. The listing itself is not answered: nothing else is asked, the polls
    shown before stay, the error is shown and the loading flag is cleared. *)
Theorem fetchPolls_failed_select_keeps_the_listing :
  forall (c : Client Dashboard.State) (b : Backend) (e : Error),
    hd None (faults b) = Some e ->
    exists (c' : Client Dashboard.State) (b' : Backend),
      run Dashboard.fetchPolls c b = (Fulfilled tt, c', b')
      /\ Dashboard.polls (state c') = Dashboard.polls (state c)
      /\ Dashboard.isLoading (state c') = false
      /\ toasts c' = toasts c ++ [Dashboard.error_loading e]
      /\ requests b' = requests b ++ [polls_select]
      /\ db (store b') = db (store b).
Proof.
  intros c b e H. unfold Dashboard.fetchPolls.
  await_fault H. prog_head. cbn [error fail run apply_effect].
  do 2 eexists. split; [reflexivity |]. repeat split.
Qed.

Lemma fetchPolls_failed_select_keeps_the_listing_witness :
  exists (c' : Client Dashboard.State) (b' : Backend),
    run Dashboard.fetchPolls (new_client idle_dashboard (Some {| User.id := 7%N |}))
        (offline voted_store)
    = (Fulfilled tt, c', b')
    /\ Dashboard.polls (state c') = Dashboard.polls idle_dashboard
    /\ Dashboard.isLoading (state c') = false
    /\ toasts c' = [] ++ [Dashboard.error_loading (pg_error "Failed to fetch")]
    /\ requests b' = [] ++ [polls_select]
    /\ db (store b') = db voted_store.
Proof.
  apply (fetchPolls_failed_select_keeps_the_listing
           (new_client idle_dashboard (Some {| User.id := 7%N |}))
           (offline voted_store) (pg_error "Failed to fetch")).
  reflexivity.
Defined.

Lemma uncounted_length (answers : list (option Error)) (l : list PollOption.t) :
  length (uncounted answers l) = length l.
Proof.
  revert answers. induction l as [| o l IH]; intros answers; cbn [uncounted length];
    [reflexivity |].
  rewrite IH. reflexivity.
Qed.





Section FetchPollsFaults.
Import Dashboard.



End FetchPollsFaults.



(* ================================================================== *)
(** * The option fields of the form *)

Section OptionFields.
Import CreatePollForm CreatePollFormView.






End OptionFields.


(* ================================================================== *)
(** * The owner flag of the cards *)

Lemma listing_row (d : Database) (p : Poll.t) :
  In p (listing d) ->
  exists r : Polls.row,
    In r (polls d) /\ Poll.id p = Polls.id r /\ Poll.user_id p = Polls.user_id r.
Proof.
  unfold listing. intros H. apply in_map_iff in H. destruct H as (r & <- & Hr).
  exists r. split; [| split; reflexivity].
  exact (Permutation_in r (order_by_created_at_desc_perm (polls d)) Hr).
Qed.

(** X20. The owner flag a card of the dashboard is given says what the store
    will allow: for a poll of the listing it is true exactly when the poll's
    row belongs to the user, which is what the policies ask of a deletion. The
    cards of the My Polls tab are given [true] without a test; the polls shown
    there do belong to the user. *)
Theorem owner_flag_agrees_with_the_store :
  forall (s : Store) (u : User.t) (p : Poll.t),
    keys_hold s ->
    In p (listing (db s)) ->
    (DashboardView.isOwner (Some u) p = true
       <-> owned_by (db s) (Poll.id p) (User.id u))
    /\ (In p (DashboardView.myPolls (Some u) (listing (db s)))
          <-> owned_by (db s) (Poll.id p) (User.id u)).
Proof.
  intros s u p Hk Hin.
  assert (Hflag : DashboardView.isOwner (Some u) p = true
                  <-> owned_by (db s) (Poll.id p) (User.id u)).
  { destruct (listing_row _ _ Hin) as (r & Hr & Hid & Hu).
    unfold DashboardView.isOwner, owned_by. rewrite Hid, Hu. split.
    - intros H. apply N.eqb_eq in H. split.
      + unfold poll_exists. apply existsb_exists. exists r.
        split; [exact Hr | apply N.eqb_refl].
      + intros r' Hr' Hid'. destruct Hk as (Np & _).
        rewrite (NoDup_map_injective Polls.id _ r' r Np Hr' Hr Hid'). exact H.
    - intros [_ H]. apply N.eqb_eq. apply (H r Hr eq_refl). }
  split; [exact Hflag |].
  unfold DashboardView.myPolls. rewrite filter_In, Hflag. tauto.
Qed.

Lemma owner_flag_agrees_with_the_store_witness :
  (DashboardView.isOwner (Some {| User.id := 7%N |}) lunch_poll_voted = true
     <-> owned_by (db voted_store) (Poll.id lunch_poll_voted) 7%N)
  /\ (In lunch_poll_voted
         (DashboardView.myPolls (Some {| User.id := 7%N |}) (listing (db voted_store)))
        <-> owned_by (db voted_store) (Poll.id lunch_poll_voted) 7%N).
Proof.
  apply (owner_flag_agrees_with_the_store voted_store {| User.id := 7%N |}
           lunch_poll_voted).
  - exact voted_store_keys.
  - left. reflexivity.
Defined.

(* ================================================================== *)
(** * Every submission settles *)

(** An answer to the insert of a poll carries the new row or an error. *)
Lemma perform_polls_insert_data (uid : option uuid) (t : jsstring) (u : uuid)
  (b : Backend) :
  error (fst (perform uid (polls_insert t u) b)) = None ->
  exists r : Polls.row, data (fst (perform uid (polls_insert t u) b)) = Some r.
Proof.
  unfold perform. destruct (hd None (faults b)); [discriminate |].
  cbn [exec]. unfold insert_poll.
  destruct (text_error t); [discriminate |].
  destruct (negb (auth_uid_is uid u)); [discriminate |].
  intros _. eexists. reflexivity.
Qed.

(** X15. Whatever the store holds and whatever the network does, a submission
    by a signed-in user is fulfilled with the loading flag down and exactly
    one notice shown. The insert of the poll is issued; when it is answered
    with an error, nothing follows it. Otherwise the options are inserted for
    the row that was returned, in one request, and nothing follows that
    request either. The form is reset and [onSuccess] called only together
    with the success notice, after two answers without an error; an error
    notice carries the message of the answer that stopped the handler. *)
Theorem handleSubmit_settles_with_one_notice :
  forall (u : User.t) (values : CreatePollForm.CreatePollForm)
         (c : Client CreatePollForm.State) (b : Backend),
    let first :=
      perform (auth_uid c)
              (polls_insert (CreatePollForm.title values) (User.id u)) b in
    exists c' : Client CreatePollForm.State,
      CreatePollForm.isLoading (state c') = false
      /\ CreatePollForm.errors (state c') = CreatePollForm.errors (state c)
      /\ navigations c' = navigations c
      /\ match error (fst first), data (fst first) with
         | Some e, _ =>
             run (CreatePollForm.handleSubmit (Some u) values) c b
             = (Fulfilled tt, c', snd first)
             /\ requests (snd first)
                = requests b
                  ++ [polls_insert (CreatePollForm.title values) (User.id u)]
             /\ toasts c' = toasts c ++ [CreatePollForm.error_creating e]
             /\ callbacks c' = callbacks c
         | None, Some pollData =>
             let rows := map (fun o => (Polls.id pollData, CreatePollForm.text o))
                             (CreatePollForm.options values) in
             let second :=
               perform (auth_uid c) (poll_options_insert rows) (snd first) in
             run (CreatePollForm.handleSubmit (Some u) values) c b
             = (Fulfilled tt, c', snd second)
             /\ requests (snd second)
                = requests b
                  ++ [polls_insert (CreatePollForm.title values) (User.id u);
                      poll_options_insert rows]
             /\ match error (fst second) with
                | Some e =>
                    toasts c' = toasts c ++ [CreatePollForm.error_creating e]
                    /\ callbacks c' = callbacks c
                | None =>
                    toasts c' = toasts c ++ [CreatePollForm.poll_created]
                    /\ callbacks c' = callbacks c ++ [form_reset; onSuccess]
                end
         | None, None => False
         end.
Proof.
  intros u values c b first. subst first.
  unfold CreatePollForm.handleSubmit. prog_head. rewrite run_Do, run_Await.
  unfold auth_uid; cbn [session apply_effect].
  pose proof (perform_requests (option_map User.id (session c))
                (polls_insert (CreatePollForm.title values) (User.id u)) b) as Hreq1.
  pose proof (perform_polls_insert_data (option_map User.id (session c))
                (CreatePollForm.title values) (User.id u) b) as Hdata.
  destruct (perform (option_map User.id (session c))
              (polls_insert (CreatePollForm.title values) (User.id u)) b)
    as [pollR b1].
  cbn [fst snd] in *.
  destruct (error pollR) as [e |]; prog_head.
  { cbn [run apply_effect]. eexists.
    refine (conj _ (conj _ (conj _
              (conj eq_refl (conj Hreq1 (conj eq_refl eq_refl))))));
      reflexivity. }
  destruct (Hdata eq_refl) as [pollData Hrow]. rewrite Hrow. cbv beta iota zeta.
  cbn [CreatePollForm.option_inserts]. prog_head. rewrite run_Await.
  unfold auth_uid; cbn [session apply_effect].
  pose proof (perform_requests (option_map User.id (session c))
                (poll_options_insert
                   (map (fun o => (Polls.id pollData, CreatePollForm.text o))
                        (CreatePollForm.options values))) b1) as Hreq2.
  destruct (perform (option_map User.id (session c))
              (poll_options_insert
                 (map (fun o => (Polls.id pollData, CreatePollForm.text o))
                      (CreatePollForm.options values))) b1) as [optionsR b2].
  cbn [fst snd] in *.
  destruct (error optionsR) as [e |]; prog_head; cbn [run apply_effect]; eexists;
    (refine (conj _ (conj _ (conj _ (conj eq_refl (conj _ (conj eq_refl _))))));
     try reflexivity);
    cbn [callbacks]; rewrite ?Hreq2, ?Hreq1, <- !app_assoc; reflexivity.
Qed.

(* ================================================================== *)
(** * More on the reset-password route *)




(** The expired-link error goes first: a fragment that carries it beside
    both tokens is not used for a session exchange. *)
Lemma init_otp_expired_never_exchanges_witness :
  truthy (get (js "access_token") expired_link_with_tokens) = Some (js "at")
  /\ truthy (get (js "refresh_token") expired_link_with_tokens) = Some (js "rt")
  /\ snd (run (ResetPassword.init expired_link_with_tokens)
              (new_client idle_reset None) (online empty_store))
     = online empty_store.
Proof.
  split; [reflexivity |]. split; [reflexivity |].
  apply (init_otp_expired_never_exchanges expired_link_with_tokens
           (new_client idle_reset None) (online empty_store)); reflexivity.
Defined.

(** X23. An expired-link visit whose description holds no percent sign is
    redirected to the landing route, the description shown as it is; without
    a description (or with an empty one) the notice says that the reset link
    is invalid or expired. *)
Theorem init_expired_link_shows_description :
  forall (hashParams : URLSearchParams) (c : Client ResetPassword.State)
         (b : Backend) (d : jsstring),
    equals (get (js "error") hashParams) "access_denied" = true ->
    equals (get (js "error_code") hashParams) "otp_expired" = true ->
    match truthy (get (js "error_description") hashParams) with
    | Some s => s
    | None => js "Reset link is invalid or expired."
    end = d ->
    Forall (fun c => c <> 37%N) d ->
    run (ResetPassword.init hashParams) c b
    = (Fulfilled tt, redirected (ResetPassword.link_expired d) c, b).
Proof.
  intros hashParams c b d H1 H2 Hd Hp.
  apply (init_otp_expired_redirects_when_decodable hashParams c b d H1 H2).
  rewrite Hd. apply decodeURIComponent_without_percent, Hp.
Qed.

Lemma init_expired_link_shows_description_witness :
  run (ResetPassword.init
         [(js "error", js "access_denied"); (js "error_code", js "otp_expired")])
      (new_client idle_reset None) (online empty_store)
  = (Fulfilled tt,
     redirected (ResetPassword.link_expired (js "Reset link is invalid or expired."))
                (new_client idle_reset None),
     online empty_store).
Proof.
  apply (init_expired_link_shows_description
           [(js "error", js "access_denied"); (js "error_code", js "otp_expired")]
           (new_client idle_reset None) (online empty_store)
           (js "Reset link is invalid or expired.")).
  - reflexivity.
  - reflexivity.
  - reflexivity.
  - cbv. repeat (apply Forall_cons; [discriminate |]). apply Forall_nil.
Defined.

(* ================================================================== *)
(** * Witnesses of the guards *)

Lemma handleDeletePoll_guard_is_noop_witness :
  run (PollCard.handleDeletePoll (Some {| User.id := 8%N |}) false false lunch_poll)
      (new_client idle_card (Some {| User.id := 8%N |})) (online lunch_store)
  = (Fulfilled tt, new_client idle_card (Some {| User.id := 8%N |}),
     online lunch_store).
Proof.
  apply (handleDeletePoll_guard_is_noop (Some {| User.id := 8%N |}) false false
           lunch_poll (new_client idle_card (Some {| User.id := 8%N |}))
           (online lunch_store)).
  right. left. reflexivity.
Defined.

Lemma onSubmit_accepts_within_bounds_witness :
  CreatePollForm.onSubmit (Some {| User.id := 7%N |}) dinner_form
  = Do (set_state (CreatePollForm.setErrors []))
       (CreatePollForm.handleSubmit (Some {| User.id := 7%N |}) dinner_form).
Proof.
  apply (onSubmit_accepts_within_bounds (Some {| User.id := 7%N |}) dinner_form).
  - cbn. lia.
  - cbn. lia.
  - repeat constructor; cbn; lia.
Defined.

(* ================================================================== *)
(** * What a vote does to the counts *)

Lemma count_after_update (uid : uuid) (l : list Votes.row) (w : Votes.row)
  (opt o : uuid) :
  NoDup (map Votes.id l) ->
  In w l ->
  Votes.user_id w = uid ->
  length (filter (fun v => N.eqb (Votes.option_id v) o)
                 (map (fun v => if update_hits (Some uid) (Votes.id w) v
                                then set_option_id opt v else v) l))
  + (if N.eqb (Votes.option_id w) o then 1 else 0)
  = length (filter (fun v => N.eqb (Votes.option_id v) o) l)
    + (if N.eqb opt o then 1 else 0).
Proof.
  intros Hnd Hin Hu. induction l as [| v l IH]; [contradiction |].
  cbn [map] in Hnd. inversion Hnd as [| ? ? Hnin Hnd']; subst.
  destruct Hin as [-> | Hin].
  - cbn [map filter]. unfold update_hits at 1. cbn [auth_uid_is].
    rewrite !N.eqb_refl. cbn [andb set_option_id Votes.option_id].
    replace (map (fun v => if update_hits (Some (Votes.user_id w)) (Votes.id w) v
                           then set_option_id opt v else v) l) with l.
    + destruct (N.eqb opt o), (N.eqb (Votes.option_id w) o); cbn [length]; lia.
    + rewrite <- (map_id l) at 1. apply map_ext_in. intros x Hx.
      unfold update_hits.
      destruct (N.eqb_spec (Votes.id x) (Votes.id w)) as [E | _]; [| reflexivity].
      exfalso. apply Hnin. rewrite <- E. apply in_map, Hx.
  - cbn [map filter]. unfold update_hits at 1.
    destruct (N.eqb_spec (Votes.id v) (Votes.id w)) as [E | _].
    { exfalso. apply Hnin. rewrite E. apply in_map, Hin. }
    cbn [andb]. specialize (IH Hnd' Hin).
    destruct (N.eqb (Votes.option_id v) o); cbn [length]; lia.
Qed.

(** X7. A vote that goes through moves at most one vote: for every option, the
    count a listing will show afterwards is the count before, plus one when it
    is the option clicked, minus one when the user's previous vote on the poll
    was for it. A first vote adds one to the total of the poll, a changed vote
    leaves the total as it was. *)
Theorem vote_moves_one_count :
  forall (u : User.t) (poll : Poll.t) (opt : uuid)
         (c : Client PollCard.State) (b : Backend),
    session c = Some u ->
    faults b = [] ->
    keys_hold (store b) ->
    votes_unique (db (store b)) ->
    poll_exists (db (store b)) (Poll.id poll) = true ->
    option_exists (db (store b)) opt = true ->
    exists b' : Backend,
      run (PollCard.handleVote (Some u) false poll opt) c b
      = (Fulfilled tt, after_vote opt c, b')
      /\ forall o : uuid,
           length (votes_for_option (db (store b')) o)
           + length (filter (fun w => N.eqb (Votes.option_id w) o)
                            (votes_of (db (store b)) (Poll.id poll) (User.id u)))
           = length (votes_for_option (db (store b)) o)
             + (if N.eqb opt o then 1 else 0).
Proof.
  intros u poll opt c b Hs Hf Hk Hu Hp Ho.
  destruct (votes_of (db (store b)) (Poll.id poll) (User.id u))
    as [| w [| w' l]] eqn:Hw.
  - eexists. split.
    + apply (handleVote_inserts_first u poll opt c b Hs Hf Hp Ho Hw).
    + intros o. unfold votes_for_option.
      cbn [store db tick set_votes votes filter length].
      rewrite filter_app, length_app. cbn [filter Votes.option_id].
      destruct (N.eqb opt o); cbn [length]; lia.
  - eexists. split.
    + apply (handleVote_updates_existing u poll opt w c b Hs Hf Ho Hw).
    + intros o. unfold votes_for_option.
      cbn [store db tick set_db set_votes votes].
      assert (Hin : In w (votes_of (db (store b)) (Poll.id poll) (User.id u)))
        by (rewrite Hw; left; reflexivity).
      unfold votes_of in Hin. apply filter_In in Hin. destruct Hin as [Hin Hvo].
      unfold vote_of in Hvo. apply andb_true_iff in Hvo. destruct Hvo as [_ Hvu].
      apply N.eqb_eq in Hvu.
      destruct Hk as (_ & _ & Nv & _).
      pose proof (count_after_update (User.id u) (votes (db (store b))) w opt o
                    Nv Hin Hvu) as H.
      cbn [filter]. destruct (N.eqb (Votes.option_id w) o); cbn [length] in *; lia.
  - specialize (Hu (Poll.id poll) (User.id u)). rewrite Hw in Hu. cbn in Hu. lia.
Qed.

Lemma voted_store_votes_unique : votes_unique (db voted_store).
Proof.
  intros p u. unfold votes_of. cbn [voted_store db votes filter].
  destruct (vote_of p u _); cbn; lia.
Qed.

Lemma vote_moves_one_count_witness :
  exists b' : Backend,
    run (PollCard.handleVote (Some {| User.id := 7%N |}) false lunch_poll 2%N)
        (new_client idle_card (Some {| User.id := 7%N |})) (online voted_store)
    = (Fulfilled tt,
       after_vote 2%N (new_client idle_card (Some {| User.id := 7%N |})), b')
    /\ forall o : uuid,
         length (votes_for_option (db (store b')) o)
         + length (filter (fun w => N.eqb (Votes.option_id w) o)
                          (votes_of (db (store (online voted_store)))
                                    (Poll.id lunch_poll) 7%N))
         = length (votes_for_option (db (store (online voted_store))) o)
           + (if N.eqb 2%N o then 1 else 0).
Proof.
  apply (vote_moves_one_count {| User.id := 7%N |} lunch_poll 2%N
           (new_client idle_card (Some {| User.id := 7%N |})) (online voted_store)).
  - reflexivity.
  - reflexivity.
  - exact voted_store_keys.
  - exact voted_store_votes_unique.
  - reflexivity.
  - reflexivity.
Defined.

Lemma init_missing_tokens_redirects_witness :
  run (ResetPassword.init [(js "type", js "recovery")])
      (new_client idle_reset None) (online empty_store)
  = (Fulfilled tt,
     redirected ResetPassword.invalid_reset_link (new_client idle_reset None),
     online empty_store).
Proof.
  apply (init_missing_tokens_redirects [(js "type", js "recovery")]
           (new_client idle_reset None) (online empty_store)).
  - reflexivity.
  - left. reflexivity.
Defined.

(* ================================================================== *)
(** * Strings: code units, and text the store refuses *)

(** The schema counts code units: a title of 101 characters outside the
    Basic Multilingual Plane (here U+1F600, the pair D83D DE00) has length 202
    and is refused. *)
Lemma createPollSchema_counts_code_units :
  let title := concat (repeat [55357%N; 56832%N] 101) in
  length title = 202
  /\ CreatePollForm.createPollSchema
       {| CreatePollForm.title := title;
          CreatePollForm.options := CreatePollForm.options dinner_form |}
     = [{| CreatePollForm.path := CreatePollForm.at_title;
           CreatePollForm.issue_message :=
             js "Title must be less than 200 characters" |}].
Proof. vm_compute. split; reflexivity. Qed.

(** What the store takes as text. *)
Lemma text_error_examples :
  text_error (js "Dinner?") = None
  /\ text_error [55357%N; 56832%N] = None
  /\ text_error [97%N; 0%N; 98%N]
     = Some (pg_error "unsupported Unicode escape sequence")
  /\ text_error [55357%N; 97%N]
     = Some (pg_error "invalid input syntax for type json")
  /\ text_error [56832%N]
     = Some (pg_error "invalid input syntax for type json").
Proof. vm_compute. repeat split. Qed.

(** A title with U+0000 passes the form's validation and is refused by the
    store: one request, no row, the error notice. *)
Lemma handleSubmit_refused_title_example :
  let values := {| CreatePollForm.title := [97%N; 0%N; 98%N];
                   CreatePollForm.options := CreatePollForm.options dinner_form |} in
  let '(o, c, b) :=
    run (CreatePollForm.onSubmit (Some {| User.id := 7%N |}) values)
        (new_client idle_form (Some {| User.id := 7%N |})) (online lunch_store) in
  o = Fulfilled tt
  /\ requests b = [polls_insert [97%N; 0%N; 98%N] 7%N]
  /\ db (store b) = db lunch_store
  /\ toasts c = [CreatePollForm.error_creating
                   (pg_error "unsupported Unicode escape sequence")]
  /\ callbacks c = [].
Proof. vm_compute. repeat split. Qed.
